(** * Nucleus auth service (src/auth/src/auth.c): a shallow embedding

    The C file is a sequence of OpenSSL calls wired together with
    out-parameters and [goto err] clean-up blocks.  The embedding keeps
    that shape:

    - a [world] holds the C memory (one address space: caller variables
      that out-parameters point to, OpenSSL objects, malloc'ed buffers),
      the file system, the entropy pool, a schedule of resource faults and
      the log of calls made so far;
    - a C function is a state transformer [M A := world -> outcome A];
      using a pointer that designates no live object of the right kind is
      [Undefined];
    - every OpenSSL entry point the source uses is a primitive of that
      monad, written from its documented behaviour on the arguments the
      source passes.  Resource exhaustion is modelled at the calls whose
      result the source tests ([EVP_PKEY_new], [X509_REQ_new],
      [RSA_generate_key] through [EVP_PKEY_assign_RSA], [X509_REQ_sign]);
      calls whose status the source ignores are modelled on live, well
      typed arguments;
    - cryptography is symbolic: a key pair is identified by its modulus, a
      signature records the digest, the signing key and the signed data;
    - the PEM text format belongs to OpenSSL: the functions of auth.c
      take it as a parameter ([PemCodec]); [pem_codec] is the format
      itself (armour, Base64, DER) on the symbolic certificates and
      keys. *)

From stdpp Require Import base numbers option list strings gmap fin_maps.
From Stdlib Require Import ZArith.
From Stdlib.Strings Require Import Byte.

Local Open Scope Z_scope.

(** ** Machine integers *)

(** C [int] (32 bits, two's complement) and [size_t] (64 bits). *)
Definition wrap_int (z : Z) : Z := (z + 2 ^ 31) mod 2 ^ 32 - 2 ^ 31.
Definition wrap_size_t (z : Z) : N := Z.to_N (z mod 2 ^ 64).
Definition INT_MAX : Z := 2 ^ 31 - 1.

(** A pointer is an address; address 0 is [NULL]. *)
Definition ptr := N.
Definition NULL : ptr := 0%N.
Definition is_null (p : ptr) : bool := N.eqb p 0.

(** ** Constants of auth.c *)

Definition RSA_SERVER_CERT : string := "server.crt".
Definition RSA_SERVER_KEY : string := "server.key".
Definition RSA_KEY_BITS : Z := 4096.
Definition PORT : Z := 8000.
Definition REQ_DN_C : string := "US".
Definition REQ_DN_ST : string := "MI".
Definition REQ_DN_L : string := "".
Definition REQ_DN_O : string := "Grand Valley State University".
Definition REQ_DN_OU : string := "IT".
Definition REQ_DN_CN : string := "www.gvsu.edu".
Definition csa : string := "ADD THE CERTIFICATE REQUEST HERE".

(** Constants of the OpenSSL headers. *)
Definition RSA_F4 : Z := 65537.
Definition MBSTRING_ASC : Z := 4097.

(** ** Symbolic cryptography *)

Inductive digest := EVP_md5 | EVP_sha1 | EVP_sha256 | EVP_sha512.

Inductive cipher := EVP_des_ede3_cbc | EVP_aes_256_cbc.

(** An RSA key pair: modulus size, public exponent, and the modulus, which
    stands for the whole key material drawn from the entropy pool. *)
Record rsa_key := { rsa_bits : Z; rsa_e : Z; rsa_n : N }.

Record rsa_pub := { pub_bits : Z; pub_e : Z; pub_n : N }.

Definition RSA_public (k : rsa_key) : rsa_pub :=
  {| pub_bits := rsa_bits k; pub_e := rsa_e k; pub_n := rsa_n k |}.

(** RSA_size: the length of a signature, in bytes. *)
Definition RSA_size (k : rsa_key) : Z := (rsa_bits k + 7) / 8.

(** A distinguished name: the entries in the order they were added. *)
Definition x509_name := list (string * string).

(** A signature over data of type [T]. *)
Record signature (T : Type) := Signature { sig_md : digest; sig_signer : N; sig_over : T }.
Arguments Signature {T} _ _ _.
Arguments sig_md {T} _.
Arguments sig_signer {T} _.
Arguments sig_over {T} _.

(** What X509_REQ_sign signs. *)
Record req_info := { ri_subject : x509_name; ri_pubkey : option rsa_pub }.

(** What a certificate's signature covers. *)
Record cert_info := {
  ci_serial : Z;
  ci_issuer : x509_name;
  ci_not_before : Z;
  ci_not_after : Z;
  ci_subject : x509_name;
  ci_pubkey : rsa_pub
}.

Record x509 := { crt_info : cert_info; crt_sig : signature cert_info }.

#[global] Instance digest_eq_dec : EqDecision digest.
Proof. solve_decision. Defined.
#[global] Instance cipher_eq_dec : EqDecision cipher.
Proof. solve_decision. Defined.
#[global] Instance rsa_key_eq_dec : EqDecision rsa_key.
Proof. solve_decision. Defined.
#[global] Instance rsa_pub_eq_dec : EqDecision rsa_pub.
Proof. solve_decision. Defined.
#[global] Instance signature_eq_dec `{EqDecision T} : EqDecision (signature T).
Proof. solve_decision. Defined.
#[global] Instance req_info_eq_dec : EqDecision req_info.
Proof. solve_decision. Defined.
#[global] Instance cert_info_eq_dec : EqDecision cert_info.
Proof. solve_decision. Defined.
#[global] Instance x509_eq_dec : EqDecision x509.
Proof. solve_decision. Defined.

(** Signing with a private key and checking against a public key. *)
Definition sign {T} (k : rsa_key) (md : digest) (data : T) : signature T :=
  Signature md (rsa_n k) data.

Definition verify `{EqDecision T} (pk : rsa_pub) (data : T) (s : signature T) : bool :=
  bool_decide (sig_signer s = pub_n pk) && bool_decide (sig_over s = data).

(** X509_verify and X509_check_private_key on decoded values. *)
Definition X509_verify (c : x509) (pk : rsa_pub) : bool :=
  verify pk (crt_info c) (crt_sig c).

Definition X509_check_private_key (c : x509) (k : rsa_key) : bool :=
  bool_decide (ci_pubkey (crt_info c) = RSA_public k).

(** ** The PEM text format (OpenSSL's, a parameter of the model) *)

Class PemCodec := {
  PEM_encode_X509 : x509 → list byte;
  PEM_decode_X509 : list byte → option (x509 * list byte);
  (* unencrypted private key *)
  PEM_encode_PrivateKey : rsa_key → list byte;
  (* private key encrypted under a cipher and a passphrase *)
  PEM_encrypt_PrivateKey : cipher → list byte → rsa_key → list byte;
  PEM_decode_PrivateKey : list byte → option (rsa_key * list byte)
}.

(** ** Memory, files and the world *)

Inductive bio_method := BIO_s_mem | BIO_s_file.

Inductive bio :=
| BioMem (data : list byte)
| BioFile (data : option (list byte)).

(** An X509_REQ owns its subject name, a separate object that
    X509_REQ_get_subject_name hands out. *)
Record x509_req := {
  req_pubkey : option rsa_pub;
  req_name : positive;
  req_sig : option (signature req_info)
}.

Inductive obj :=
| OCell (v : N)                      (* a caller's variable: pointer or size_t *)
| OPkey (rsa : ptr)                  (* EVP_PKEY and the RSA it owns *)
| ORsa (k : rsa_key)
| OName (entries : x509_name)
| OReq (r : x509_req)
| OX509 (c : x509)
| OBio (b : bio)
| OBuf (data : list (option byte)).  (* malloc'ed bytes, None = never written *)

(** The functions of auth.c (server_loop and cty_to_pem are declared only). *)
Inductive fn :=
| Fgenerate_csr | Finitialize | Fcleanup | Fcrt_to_pem | Fkey_to_pem
| Fload_ca | Fprint_bytes | Fgenerate_signed_key_pair | Fusage | Fmain
| Fserver_loop.

Inductive event :=
| Enter (f : fn)
| EvERR_load_crypto_strings
| EvOpenSSL_add_all_algorithms
| EvOPENSSL_config (name : ptr)
| EvEVP_cleanup
| EvCRYPTO_cleanup_all_ex_data
| EvERR_free_strings
| EvERR_remove_thread_state (tid : ptr)
| EvEVP_PKEY_new
| EvX509_REQ_new
| EvRSA_generate_key (bits e : Z)
| EvEVP_PKEY_assign_RSA (pkey rsa : ptr)
| EvX509_REQ_set_pubkey (req pkey : ptr)
| EvX509_REQ_get_subject_name (req : ptr)
| EvX509_NAME_add_entry_by_txt (name : ptr) (field value : string)
| EvX509_REQ_sign (req pkey : ptr) (md : digest)
| EvEVP_PKEY_free (p : ptr)
| EvX509_REQ_free (p : ptr)
| EvX509_free (p : ptr)
| EvBIO_new (m : bio_method)
| EvBIO_free_all (p : ptr)
| EvBIO_read_filename (b : ptr) (path : string)
| EvBIO_pending (b : ptr)
| EvBIO_read (b buf : ptr) (len : Z)
| EvPEM_read_bio_X509 (b : ptr)
| EvPEM_read_bio_PrivateKey (b : ptr)
| EvPEM_write_bio_X509 (b x : ptr)
| EvPEM_write_bio_PrivateKey (b key : ptr) (enc : option cipher)
    (kstr : option (list byte)) (klen : Z) (cb u : ptr)
| EvMalloc (size : N)
| EvSocket | EvBind (port : Z) | EvListen | EvAccept | EvRecv | EvSend | EvClose.

#[global] Instance fn_eq_dec : EqDecision fn.
Proof. solve_decision. Defined.
#[global] Instance bio_method_eq_dec : EqDecision bio_method.
Proof. solve_decision. Defined.
#[global] Instance byte_eq_dec : EqDecision byte.
Proof. intros x y. destruct (Byte.eqb x y) eqn:E.
  - left. by apply Byte.byte_dec_bl.
  - right. intros ->. by rewrite Byte.byte_dec_lb in E.
Defined.
#[global] Instance event_eq_dec : EqDecision event.
Proof. solve_decision. Defined.

Record world := World {
  mem : gmap positive obj;
  files : gmap string (list byte);
  entropy : list N;
  faults : list bool;
  calls : list event
}.

Definition upd_mem (f : gmap positive obj → gmap positive obj) (w : world) : world :=
  World (f (mem w)) (files w) (entropy w) (faults w) (calls w).
Definition set_entropy (e : list N) (w : world) : world :=
  World (mem w) (files w) e (faults w) (calls w).
Definition set_faults (fs : list bool) (w : world) : world :=
  World (mem w) (files w) (entropy w) fs (calls w).
Definition log (e : event) (w : world) : world :=
  World (mem w) (files w) (entropy w) (faults w) (calls w ++ [e]).

(** What a pointer designates. *)
Definition deref (w : world) (p : ptr) : option obj :=
  match p with
  | N0 => None
  | Npos a => mem w !! a
  end.

(** ** Outcomes and the monad of C functions *)

Inductive outcome (A : Type) :=
| Returns (a : A) (w : world)
| Undefined.
Arguments Returns {A} _ _.
Arguments Undefined {A}.

Definition M (A : Type) : Type := world → outcome A.

#[global] Instance M_ret : MRet M := λ A a w, Returns a w.
#[global] Instance M_bind : MBind M := λ A B f m w,
  match m w with
  | Returns a w' => f a w'
  | Undefined => Undefined
  end.

Definition undefined {A} : M A := λ _, Undefined.
Definition emit (e : event) : M unit := λ w, Returns tt (log e w).
Definition enter (f : fn) : M unit := emit (Enter f).

(** The next resource fault of the schedule (none once it is used up). *)
Definition next_fault (w : world) : bool := default false (head (faults w)).
Definition tick_fault (w : world) : world := set_faults (drop 1 (faults w)) w.
(** The fault met by the [i]-th call that can fail for lack of resources. *)
Definition fault_at (w : world) (i : nat) : bool := default false (head (drop i (faults w))).
Definition pop_fault : M bool := λ w, Returns (next_fault w) (tick_fault w).

(** Allocation picks an address that is not live; a freed address may be
    handed out again. *)
Definition alloc (o : obj) : M positive := λ w,
  let a := fresh (dom (mem w)) in Returns a (upd_mem (insert a o) w).

(** [*p] and [*p = v] on a caller's variable. *)
Definition load (p : ptr) : M N := λ w,
  match deref w p with
  | Some (OCell v) => Returns v w
  | _ => Undefined
  end.

Definition store (p : ptr) (v : N) : M unit := λ w,
  match p, deref w p with
  | Npos a, Some (OCell _) => Returns tt (upd_mem (insert a (OCell v)) w)
  | _, _ => Undefined
  end.

(** ** OpenSSL: library set-up and tear-down *)

Definition ERR_load_crypto_strings : M unit := emit EvERR_load_crypto_strings.
Definition OpenSSL_add_all_algorithms : M unit := emit EvOpenSSL_add_all_algorithms.
Definition OPENSSL_config (name : ptr) : M unit := emit (EvOPENSSL_config name).
Definition EVP_cleanup : M unit := emit EvEVP_cleanup.
Definition CRYPTO_cleanup_all_ex_data : M unit := emit EvCRYPTO_cleanup_all_ex_data.
Definition ERR_free_strings : M unit := emit EvERR_free_strings.
Definition ERR_remove_thread_state (tid : ptr) : M unit := emit (EvERR_remove_thread_state tid).

(** ** OpenSSL: keys and requests *)

Definition EVP_PKEY_new : M ptr :=
  emit EvEVP_PKEY_new;;
  f ← pop_fault;
  if f : bool then mret NULL else a ← alloc (OPkey NULL); mret (Npos a).

Definition X509_REQ_new : M ptr :=
  emit EvX509_REQ_new;;
  f ← pop_fault;
  if f : bool then mret NULL
  else
    nm ← alloc (OName []);
    a ← alloc (OReq {| req_pubkey := None; req_name := nm; req_sig := None |});
    mret (Npos a).

(** The key material comes from the entropy pool; an exhausted pool makes
    the generation fail. *)
Definition RSA_generate_key (bits e : Z) (callback cb_arg : ptr) : M ptr :=
  emit (EvRSA_generate_key bits e);;
  ((λ w, match entropy w with
         | [] => Returns NULL w
         | n :: pool =>
             (a ← alloc (ORsa {| rsa_bits := bits; rsa_e := e; rsa_n := n |});
              mret (Npos a)) (set_entropy pool w)
         end) : M ptr).

(** EVP_PKEY_assign: 0 for a NULL [pkey]; otherwise the envelope drops the
    key it held, takes [rsa], and the result tells whether [rsa] is a key. *)
Definition EVP_PKEY_assign_RSA (pkey rsa : ptr) : M Z :=
  emit (EvEVP_PKEY_assign_RSA pkey rsa);;
  ((λ w, match pkey with
         | N0 => Returns 0 w
         | Npos a =>
             match mem w !! a with
             | Some (OPkey old) =>
                 let drop := match old with Npos o => delete o | N0 => id end in
                 Returns (if is_null rsa then 0 else 1)
                         (upd_mem (λ m, <[a := OPkey rsa]> (drop m)) w)
             | _ => Undefined
             end
         end) : M Z).

Definition X509_REQ_set_pubkey (req pkey : ptr) : M Z :=
  emit (EvX509_REQ_set_pubkey req pkey);;
  ((λ w, match req, deref w req, deref w pkey with
         | Npos a, Some (OReq r), Some (OPkey rsa) =>
             match rsa, deref w rsa with
             | N0, _ => Returns 0 w
             | _, Some (ORsa k) =>
                 Returns 1 (upd_mem (insert a (OReq {| req_pubkey := Some (RSA_public k);
                                                        req_name := req_name r;
                                                        req_sig := req_sig r |})) w)
             | _, _ => Undefined
             end
         | _, _, _ => Undefined
         end) : M Z).

Definition X509_REQ_get_subject_name (req : ptr) : M ptr :=
  emit (EvX509_REQ_get_subject_name req);;
  ((λ w, match deref w req with
         | Some (OReq r) => Returns (Npos (req_name r)) w
         | _ => Undefined
         end) : M ptr).

(** The size bounds OpenSSL's string table puts on the attributes the
    source sets (country is exactly two characters, the others at least
    one); a short name outside this list is rejected. *)
Definition string_table (field : string) : option (nat * nat) :=
  if decide (field = "C") then Some (2, 2)%nat
  else if decide (field = "ST") then Some (1, 128)%nat
  else if decide (field = "L") then Some (1, 128)%nat
  else if decide (field = "O") then Some (1, 64)%nat
  else if decide (field = "OU") then Some (1, 64)%nat
  else if decide (field = "CN") then Some (1, 64)%nat
  else None.

(** The value of an entry: [len = -1] takes the whole C string. *)
Definition entry_value (field bytes : string) (len : Z) : option string :=
  let v := if len =? -1 then bytes else String.substring 0 (Z.to_nat len) bytes in
  match string_table field with
  | Some (lo, hi) =>
      if bool_decide (lo ≤ String.length v ≤ hi)%nat then Some v else None
  | None => None
  end.

(** [loc = -1] appends; another [loc] inserts at that position. *)
Definition add_entry (loc : Z) (e : string * string) (es : x509_name) : x509_name :=
  if (loc <? 0) || (Z.of_nat (length es) <=? loc) then es ++ [e]
  else take (Z.to_nat loc) es ++ e :: drop (Z.to_nat loc) es.

Definition X509_NAME_add_entry_by_txt (name : ptr) (field : string) (type : Z)
    (bytes : string) (len loc set : Z) : M Z :=
  emit (EvX509_NAME_add_entry_by_txt name field bytes);;
  ((λ w, match name, deref w name with
         | Npos a, Some (OName es) =>
             match entry_value field bytes len with
             | Some v => Returns 1 (upd_mem (insert a (OName (add_entry loc (field, v) es))) w)
             | None => Returns 0 w
             end
         | _, _ => Undefined
         end) : M Z).

(** X509_REQ_sign signs the request's subject and public key and returns
    the length of the signature (0 on failure). *)
Definition X509_REQ_sign (req pkey : ptr) (md : digest) : M Z :=
  emit (EvX509_REQ_sign req pkey md);;
  f ← pop_fault;
  if f : bool then mret 0
  else
    ((λ w, match req, deref w req, deref w pkey with
           | Npos a, Some (OReq r), Some (OPkey rsa) =>
               match rsa, deref w rsa, mem w !! req_name r with
               | N0, _, _ => Returns 0 w
               | _, Some (ORsa k), Some (OName es) =>
                   let tbs := {| ri_subject := es; ri_pubkey := req_pubkey r |} in
                   Returns (RSA_size k)
                           (upd_mem (insert a (OReq {| req_pubkey := req_pubkey r;
                                                        req_name := req_name r;
                                                        req_sig := Some (sign k md tbs) |})) w)
               | _, _, _ => Undefined
               end
           | _, _, _ => Undefined
           end) : M Z).

(** The free functions accept NULL; the envelope's key and the request's
    name go with their owner. *)
Definition EVP_PKEY_free (p : ptr) : M unit :=
  emit (EvEVP_PKEY_free p);;
  ((λ w, match p with
         | N0 => Returns tt w
         | Npos a =>
             match mem w !! a with
             | Some (OPkey rsa) =>
                 let drop := match rsa with Npos r => delete r | N0 => id end in
                 Returns tt (upd_mem (λ m, drop (delete a m)) w)
             | _ => Undefined
             end
         end) : M unit).

Definition X509_REQ_free (p : ptr) : M unit :=
  emit (EvX509_REQ_free p);;
  ((λ w, match p with
         | N0 => Returns tt w
         | Npos a =>
             match mem w !! a with
             | Some (OReq r) => Returns tt (upd_mem (λ m, delete (req_name r) (delete a m)) w)
             | _ => Undefined
             end
         end) : M unit).

Definition X509_free (p : ptr) : M unit :=
  emit (EvX509_free p);;
  ((λ w, match p with
         | N0 => Returns tt w
         | Npos a =>
             match mem w !! a with
             | Some (OX509 _) => Returns tt (upd_mem (delete a) w)
             | _ => Undefined
             end
         end) : M unit).


(** ** OpenSSL: BIOs and malloc *)

Definition bio_data (b : bio) : list byte :=
  match b with
  | BioMem d => d
  | BioFile (Some d) => d
  | BioFile None => []
  end.

Definition bio_set_data (b : bio) (d : list byte) : bio :=
  match b with
  | BioMem _ => BioMem d
  | BioFile _ => BioFile (Some d)
  end.

(** The source never tests the result of BIO_new (lines 139, 158, 179
    and 186) nor that of malloc (lines 144 and 162), and the model has no
    execution in which either is NULL: what is proved of crt_to_pem,
    key_to_pem and load_ca is about the executions in which the BIO and
    the buffer were obtained. *)
Definition BIO_new (m : bio_method) : M ptr :=
  emit (EvBIO_new m);;
  a ← alloc (OBio match m with BIO_s_mem => BioMem [] | BIO_s_file => BioFile None end);
  mret (Npos a).

Definition BIO_free_all (p : ptr) : M unit :=
  emit (EvBIO_free_all p);;
  ((λ w, match p with
         | N0 => Returns tt w
         | Npos a =>
             match mem w !! a with
             | Some (OBio _) => Returns tt (upd_mem (delete a) w)
             | _ => Undefined
             end
         end) : M unit).

(** Opens [path] for reading on a file BIO: 1 when the file can be read,
    0 otherwise (also on a memory BIO).  On a NULL BIO the control call
    behind the macro gives -1. *)
Definition BIO_read_filename (b : ptr) (path : string) : M Z :=
  emit (EvBIO_read_filename b path);;
  ((λ w, match b with
         | N0 => Returns (-1) w
         | Npos a =>
             match mem w !! a with
             | Some (OBio (BioFile _)) =>
                 match files w !! path with
                 | Some d => Returns 1 (upd_mem (insert a (OBio (BioFile (Some d)))) w)
                 | None => Returns 0 w
                 end
             | Some (OBio (BioMem _)) => Returns 0 w
             | _ => Undefined
             end
         end) : M Z).

(** The number of bytes a memory BIO holds, through the macro's [int] cast. *)
Definition BIO_pending (b : ptr) : M Z :=
  emit (EvBIO_pending b);;
  ((λ w, match deref w b with
         | Some (OBio (BioMem d)) => Returns (wrap_int (Z.of_nat (length d))) w
         | Some (OBio (BioFile _)) => Returns 0 w
         | _ => Undefined
         end) : M Z).

Definition malloc (size : N) : M ptr :=
  emit (EvMalloc size);;
  a ← alloc (OBuf (replicate (N.to_nat size) None));
  mret (Npos a).

(** Writes [bytes] at the start of a buffer that is long enough. *)
Definition fill (bytes : list byte) (buf : list (option byte)) : list (option byte) :=
  (Some <$> bytes) ++ drop (length bytes) buf.

(** Moves up to [len] bytes from the BIO to [buf]; -1 when a memory BIO
    has nothing to give, 0 at the end of a file.  Writing past the end of
    [buf] is undefined. *)
Definition BIO_read (b buf : ptr) (len : Z) : M Z :=
  emit (EvBIO_read b buf len);;
  ((λ w, match b, deref w b with
         | Npos a, Some (OBio bb) =>
             let d := bio_data bb in
             let n := Z.min len (Z.of_nat (length d)) in
             if 0 <? n then
               match buf, deref w buf with
               | Npos c, Some (OBuf old) =>
                   if n <=? Z.of_nat (length old) then
                     Returns n (upd_mem (λ m, <[c := OBuf (fill (take (Z.to_nat n) d) old)]>
                                                (<[a := OBio (bio_set_data bb (drop (Z.to_nat n) d))]> m)) w)
                   else Undefined
               | _, _ => Undefined
               end
             else
               Returns (if bool_decide (d = []) then
                          match bb with BioMem _ => -1 | BioFile _ => 0 end
                        else n) w
         | _, _ => Undefined
         end) : M Z).

(** ** OpenSSL: PEM readers and writers *)

Section pem.
Context `{PemCodec}.

(** Reads the first certificate of the BIO into a new X509; NULL when
    there is none (the BIO has then been read to its end). *)
Definition PEM_read_bio_X509 (b : ptr) (x cb u : ptr) : M ptr :=
  emit (EvPEM_read_bio_X509 b);;
  ((λ w, match b, deref w b with
         | Npos a, Some (OBio bb) =>
             match PEM_decode_X509 (bio_data bb) with
             | Some (c, rest) =>
                 (p ← alloc (OX509 c); mret (Npos p))
                   (upd_mem (insert a (OBio (bio_set_data bb rest))) w)
             | None => Returns NULL (upd_mem (insert a (OBio (bio_set_data bb []))) w)
             end
         | _, _ => Undefined
         end) : M ptr).

Definition PEM_read_bio_PrivateKey (b : ptr) (x cb u : ptr) : M ptr :=
  emit (EvPEM_read_bio_PrivateKey b);;
  ((λ w, match b, deref w b with
         | Npos a, Some (OBio bb) =>
             match PEM_decode_PrivateKey (bio_data bb) with
             | Some (k, rest) =>
                 (r ← alloc (ORsa k); p ← alloc (OPkey (Npos r)); mret (Npos p))
                   (upd_mem (insert a (OBio (bio_set_data bb rest))) w)
             | None => Returns NULL (upd_mem (insert a (OBio (bio_set_data bb []))) w)
             end
         | _, _ => Undefined
         end) : M ptr).

(** Appends the PEM text of a certificate to a memory BIO (a file BIO
    opened for reading takes no output).  A NULL certificate is turned
    down: 0, and nothing is written. *)
Definition PEM_write_bio_X509 (b x : ptr) : M Z :=
  emit (EvPEM_write_bio_X509 b x);;
  ((λ w, if is_null x then
           match deref w b with
           | Some (OBio _) => Returns 0 w
           | _ => Undefined
           end
         else
           match b, deref w b, deref w x with
           | Npos a, Some (OBio (BioMem d)), Some (OX509 c) =>
               Returns 1 (upd_mem (insert a (OBio (BioMem (d ++ PEM_encode_X509 c)))) w)
           | _, Some (OBio (BioFile _)), Some (OX509 _) => Returns 0 w
           | _, _, _ => Undefined
           end) : M Z).

(** The text PEM_write_bio_PrivateKey produces: in the clear when no
    cipher is given, otherwise encrypted under the first [klen] bytes of
    [kstr]. *)
Definition private_key_pem (k : rsa_key) (enc : option cipher)
    (kstr : option (list byte)) (klen : Z) : list byte :=
  match enc with
  | None => PEM_encode_PrivateKey k
  | Some c => PEM_encrypt_PrivateKey c (take (Z.to_nat klen) (default [] kstr)) k
  end.

(** A NULL key is turned down like a NULL certificate: 0, and nothing is
    written. *)
Definition PEM_write_bio_PrivateKey (b key : ptr) (enc : option cipher)
    (kstr : option (list byte)) (klen : Z) (cb u : ptr) : M Z :=
  emit (EvPEM_write_bio_PrivateKey b key enc kstr klen cb u);;
  ((λ w, if is_null key then
           match deref w b with
           | Some (OBio _) => Returns 0 w
           | _ => Undefined
           end
         else
           match b, deref w b, deref w key with
           | Npos a, Some (OBio (BioMem d)), Some (OPkey rsa) =>
               match rsa, deref w rsa with
               | N0, _ => Returns 0 w
               | _, Some (ORsa k) =>
                   Returns 1 (upd_mem (insert a (OBio (BioMem (d ++ private_key_pem k enc kstr klen)))) w)
               | _, _ => Undefined
               end
           | _, Some (OBio (BioFile _)), Some (OPkey _) => Returns 0 w
           | _, _, _ => Undefined
           end) : M Z).

(** ** The functions of auth.c *)

(** The [err:] block of generate_csr. *)
Definition generate_csr_err (key req : ptr) : M Z :=
  k ← load key;
  EVP_PKEY_free k;;
  r ← load req;
  X509_REQ_free r;;
  mret 0.

Definition generate_csr (key req : ptr) : M Z :=
  enter Fgenerate_csr;;
  (* Allocate an empty EVP_PKEY structure inside of key *)
  k ← EVP_PKEY_new;
  store key k;;
  k ← load key;
  if is_null k then generate_csr_err key req else
  (* Generate X509 typed object inside of req *)
  r ← X509_REQ_new;
  store req r;;
  r ← load req;
  if is_null r then generate_csr_err key req else
  (* Generate the RSA key *)
  rsa ← RSA_generate_key RSA_KEY_BITS RSA_F4 NULL NULL;
  k ← load key;
  a ← EVP_PKEY_assign_RSA k rsa;
  if a =? 0 then generate_csr_err key req else
  r ← load req;
  k ← load key;
  X509_REQ_set_pubkey r k;;
  (* Set DN and other info for the CSA *)
  r ← load req;
  name ← X509_REQ_get_subject_name r;
  X509_NAME_add_entry_by_txt name "C" MBSTRING_ASC REQ_DN_C (-1) (-1) 0;;
  X509_NAME_add_entry_by_txt name "ST" MBSTRING_ASC REQ_DN_ST (-1) (-1) 0;;
  X509_NAME_add_entry_by_txt name "L" MBSTRING_ASC REQ_DN_L (-1) (-1) 0;;
  X509_NAME_add_entry_by_txt name "O" MBSTRING_ASC REQ_DN_O (-1) (-1) 0;;
  X509_NAME_add_entry_by_txt name "OU" MBSTRING_ASC REQ_DN_OU (-1) (-1) 0;;
  X509_NAME_add_entry_by_txt name "CN" MBSTRING_ASC REQ_DN_CN (-1) (-1) 0;;
  (* Self-sign the request to prove we have the key *)
  r ← load req;
  k ← load key;
  s ← X509_REQ_sign r k EVP_sha256;
  if s =? 0 then generate_csr_err key req else
  mret 1.

Definition initialize : M unit :=
  enter Finitialize;;
  ERR_load_crypto_strings;;
  OpenSSL_add_all_algorithms;;
  OPENSSL_config NULL.

Definition cleanup : M unit :=
  enter Fcleanup;;
  EVP_cleanup;;
  CRYPTO_cleanup_all_ex_data;;
  ERR_free_strings;;
  ERR_remove_thread_state NULL.

Definition crt_to_pem (crt crt_bytes crt_size : ptr) : M unit :=
  enter Fcrt_to_pem;;
  (* Set up a bio to store the PEM data *)
  bio ← BIO_new BIO_s_mem;
  PEM_write_bio_X509 bio crt;;
  n ← BIO_pending bio;
  store crt_size (wrap_size_t n);;
  sz ← load crt_size;
  buf ← malloc (wrap_size_t (Z.of_N sz + 1));
  store crt_bytes buf;;
  (* Read the cert into pem format *)
  buf ← load crt_bytes;
  sz ← load crt_size;
  BIO_read bio buf (wrap_int (Z.of_N sz));;
  BIO_free_all bio.

Definition key_to_pem (key key_bytes key_size : ptr) : M unit :=
  enter Fkey_to_pem;;
  (* Set up bio to store the private key *)
  bio ← BIO_new BIO_s_mem;
  PEM_write_bio_PrivateKey bio key None None 0 NULL NULL;;
  n ← BIO_pending bio;
  store key_size (wrap_size_t n);;
  sz ← load key_size;
  buf ← malloc (wrap_size_t (Z.of_N sz + 1));
  store key_bytes buf;;
  buf ← load key_bytes;
  sz ← load key_size;
  BIO_read bio buf (wrap_int (Z.of_N sz));;
  BIO_free_all bio.

(** The [err:] block of load_ca; [bio] is the local variable. *)
Definition load_ca_err (bio ca_key ca_crt : ptr) : M Z :=
  BIO_free_all bio;;
  c ← load ca_crt;
  X509_free c;;
  k ← load ca_key;
  EVP_PKEY_free k;;
  mret 0.

Definition load_ca (ca_key_path : string) (ca_key : ptr)
    (ca_crt_path : string) (ca_crt : ptr) : M Z :=
  enter Fload_ca;;
  store ca_crt NULL;;
  store ca_key NULL;;
  (* Load the CA public key into a bio *)
  bio ← BIO_new BIO_s_file;
  ok ← BIO_read_filename bio ca_crt_path;
  if ok =? 0 then load_ca_err bio ca_key ca_crt else
  c ← PEM_read_bio_X509 bio NULL NULL NULL;
  store ca_crt c;;
  c ← load ca_crt;
  if is_null c then load_ca_err bio ca_key ca_crt else
  BIO_free_all bio;;
  (* Load the CA private key into a bio *)
  bio ← BIO_new BIO_s_file;
  ok ← BIO_read_filename bio ca_key_path;
  if ok =? 0 then load_ca_err bio ca_key ca_crt else
  k ← PEM_read_bio_PrivateKey bio NULL NULL NULL;
  store ca_key k;;
  (* the test is on the out-parameter itself, not on what it points to *)
  if is_null ca_key then load_ca_err bio ca_key ca_crt else
  BIO_free_all bio;;
  mret 1.

(** [printf("%s", data[i])] hands a byte to a conversion that expects a
    string: undefined as soon as the loop body runs. *)
Definition print_bytes (data : ptr) (size : N) : M unit :=
  enter Fprint_bytes;;
  if N.eqb size 0 then mret tt else undefined.

(** The body is empty: control reaches the closing brace of a function
    that returns [int], so no value is returned ([None]). *)
Definition generate_signed_key_pair (ca_key ca_crt key crt : ptr) : M (option Z) :=
  enter Fgenerate_signed_key_pair;;
  mret None.

Definition usage : M unit :=
  enter Fusage;;
  mret tt.

(** [main] falls off its end, which returns 0. *)
Definition main (argc : Z) (argv : ptr) : M Z :=
  enter Fmain;;
  (* Load CA key and cert *)
  initialize;;
  mret 0.

End pem.

(** * Reasoning about runs *)

(** [wp m w Q]: from [w], [m] has defined behaviour and its result and
    final world satisfy [Q]. *)
Definition wp {A} (m : M A) (w : world) (Q : A → world → Prop) : Prop :=
  match m w with
  | Returns a w' => Q a w'
  | Undefined => False
  end.

Lemma wp_ret {A} (a : A) w Q : Q a w → wp (mret a) w Q.
Proof. done. Qed.

Lemma wp_bind {A B} (m : M A) (f : A → M B) w Q :
  wp m w (λ a w', wp (f a) w' Q) → wp (m ≫= f) w Q.
Proof. unfold wp, mbind, M_bind. by destruct (m w). Qed.

Lemma wp_mono {A} (m : M A) w (Q Q' : A → world → Prop) :
  wp m w Q → (∀ a w', Q a w' → Q' a w') → wp m w Q'.
Proof. unfold wp. destruct (m w); [auto | done]. Qed.

Lemma wp_returns {A} (m : M A) w Q :
  wp m w Q ↔ ∃ a w', m w = Returns a w' ∧ Q a w'.
Proof.
  unfold wp. destruct (m w) as [a w'|]; split.
  - eauto.
  - by intros (? & ? & [= <- <-] & ?).
  - done.
  - by intros (? & ? & ? & _).
Qed.

Lemma wp_emit e w Q : Q tt (log e w) → wp (emit e) w Q.
Proof. done. Qed.

Lemma wp_alloc o w Q :
  (∀ a, mem w !! a = None → Q a (upd_mem (insert a o) w)) → wp (alloc o) w Q.
Proof. intros HQ. apply HQ, not_elem_of_dom, is_fresh. Qed.

Lemma wp_load a v w Q :
  mem w !! a = Some (OCell v) → Q v w → wp (load (Npos a)) w Q.
Proof. unfold wp, load, deref. by intros ->. Qed.

Lemma wp_store a v v' w Q :
  mem w !! a = Some (OCell v) → Q tt (upd_mem (insert a (OCell v')) w) →
  wp (store (Npos a) v') w Q.
Proof. unfold wp, store, deref. by intros ->. Qed.

Lemma wp_pop_fault w Q : Q (next_fault w) (tick_fault w) → wp pop_fault w Q.
Proof. done. Qed.

(** A primitive that logs its call and then acts on the world. *)
Lemma wp_call {A} e (f : M A) w Q : wp f (log e w) Q → wp (emit e ;; f) w Q.
Proof. intros. by apply wp_bind, wp_emit. Qed.

(** ** Rules for the library calls *)

Lemma wp_EVP_PKEY_new w Q :
  (next_fault w = true → Q NULL (tick_fault (log EvEVP_PKEY_new w))) →
  (next_fault w = false → ∀ a, mem w !! a = None →
     Q (Npos a) (upd_mem (insert a (OPkey NULL)) (tick_fault (log EvEVP_PKEY_new w)))) →
  wp EVP_PKEY_new w Q.
Proof.
  intros Ht Hf. apply wp_call, wp_bind, wp_pop_fault.
  change (next_fault (log EvEVP_PKEY_new w)) with (next_fault w).
  destruct (next_fault w); [by apply wp_ret, Ht|].
  apply wp_bind, wp_alloc. intros a Ha. apply wp_ret. by apply Hf.
Qed.

Lemma wp_X509_REQ_new w Q :
  (next_fault w = true → Q NULL (tick_fault (log EvX509_REQ_new w))) →
  (next_fault w = false → ∀ nm a, mem w !! nm = None → mem w !! a = None → nm ≠ a →
     Q (Npos a)
       (upd_mem (insert a (OReq {| req_pubkey := None; req_name := nm; req_sig := None |}))
          (upd_mem (insert nm (OName [])) (tick_fault (log EvX509_REQ_new w))))) →
  wp X509_REQ_new w Q.
Proof.
  intros Ht Hf. apply wp_call, wp_bind, wp_pop_fault.
  change (next_fault (log EvX509_REQ_new w)) with (next_fault w).
  destruct (next_fault w); [by apply wp_ret, Ht|].
  apply wp_bind, wp_alloc. intros nm Hnm. apply wp_bind, wp_alloc. intros a Ha.
  cbn in Hnm, Ha. apply lookup_insert_None in Ha as [Ha Hne].
  apply wp_ret. by apply Hf.
Qed.

Lemma wp_RSA_generate_key bits e cb arg w Q :
  (entropy w = [] → Q NULL (log (EvRSA_generate_key bits e) w)) →
  (∀ n pool a, entropy w = n :: pool → mem w !! a = None →
     Q (Npos a) (upd_mem (insert a (ORsa {| rsa_bits := bits; rsa_e := e; rsa_n := n |}))
                   (set_entropy pool (log (EvRSA_generate_key bits e) w)))) →
  wp (RSA_generate_key bits e cb arg) w Q.
Proof.
  intros He Hs. apply wp_call. unfold wp. cbn.
  destruct (entropy w) as [|n pool] eqn:E; [by apply He|].
  apply (Hs n pool); [done|]. apply (not_elem_of_dom (mem w)), is_fresh.
Qed.

Lemma wp_EVP_PKEY_assign_RSA a rsa w Q :
  mem w !! a = Some (OPkey NULL) →
  Q (if is_null rsa then 0 else 1)
    (upd_mem (insert a (OPkey rsa)) (log (EvEVP_PKEY_assign_RSA (Npos a) rsa) w)) →
  wp (EVP_PKEY_assign_RSA (Npos a) rsa) w Q.
Proof. intros Ha HQ. apply wp_call. unfold wp. cbn. by rewrite Ha. Qed.

Lemma wp_X509_REQ_set_pubkey a r p ra k w Q :
  mem w !! a = Some (OReq r) → mem w !! p = Some (OPkey (Npos ra)) →
  mem w !! ra = Some (ORsa k) →
  Q 1 (upd_mem (insert a (OReq {| req_pubkey := Some (RSA_public k);
                                   req_name := req_name r; req_sig := req_sig r |}))
         (log (EvX509_REQ_set_pubkey (Npos a) (Npos p)) w)) →
  wp (X509_REQ_set_pubkey (Npos a) (Npos p)) w Q.
Proof. intros Ha Hp Hra HQ. apply wp_call. unfold wp. cbn. by rewrite Ha, Hp, Hra. Qed.

Lemma wp_X509_REQ_get_subject_name a r w Q :
  mem w !! a = Some (OReq r) →
  Q (Npos (req_name r)) (log (EvX509_REQ_get_subject_name (Npos a)) w) →
  wp (X509_REQ_get_subject_name (Npos a)) w Q.
Proof. intros Ha HQ. apply wp_call. unfold wp. cbn. by rewrite Ha. Qed.

Lemma wp_X509_NAME_add_entry_by_txt a es field type bytes len loc set ov w Q :
  mem w !! a = Some (OName es) → entry_value field bytes len = ov →
  (let w1 := log (EvX509_NAME_add_entry_by_txt (Npos a) field bytes) w in
   match ov with
   | Some v => Q 1 (upd_mem (insert a (OName (add_entry loc (field, v) es))) w1)
   | None => Q 0 w1
   end) →
  wp (X509_NAME_add_entry_by_txt (Npos a) field type bytes len loc set) w Q.
Proof.
  intros Ha <- HQ. apply wp_call. unfold wp. cbn. rewrite Ha.
  cbn in HQ. by destruct (entry_value field bytes len).
Qed.

Lemma wp_X509_REQ_sign a r p ra k es md w Q :
  mem w !! a = Some (OReq r) → mem w !! p = Some (OPkey (Npos ra)) →
  mem w !! ra = Some (ORsa k) → mem w !! req_name r = Some (OName es) →
  (next_fault w = true → Q 0 (tick_fault (log (EvX509_REQ_sign (Npos a) (Npos p) md) w))) →
  (next_fault w = false →
     Q (RSA_size k)
       (upd_mem (insert a (OReq {| req_pubkey := req_pubkey r; req_name := req_name r;
           req_sig := Some (sign k md {| ri_subject := es; ri_pubkey := req_pubkey r |}) |}))
          (tick_fault (log (EvX509_REQ_sign (Npos a) (Npos p) md) w)))) →
  wp (X509_REQ_sign (Npos a) (Npos p) md) w Q.
Proof.
  intros Ha Hp Hra Hnm Ht Hf. apply wp_call, wp_bind, wp_pop_fault.
  change (next_fault (log _ w)) with (next_fault w).
  destruct (next_fault w); [by apply wp_ret, Ht|].
  unfold wp. cbn. rewrite Ha, Hp, Hra, Hnm. by apply Hf.
Qed.

Lemma wp_EVP_PKEY_free_null w Q :
  Q tt (log (EvEVP_PKEY_free NULL) w) → wp (EVP_PKEY_free NULL) w Q.
Proof. intros. by apply wp_call. Qed.

Lemma wp_EVP_PKEY_free a rsa w Q :
  mem w !! a = Some (OPkey rsa) →
  Q tt (upd_mem (λ m, match rsa with Npos r => delete r | N0 => id end (delete a m))
          (log (EvEVP_PKEY_free (Npos a)) w)) →
  wp (EVP_PKEY_free (Npos a)) w Q.
Proof. intros Ha HQ. apply wp_call. unfold wp. cbn. by rewrite Ha. Qed.

Lemma wp_X509_REQ_free_null w Q :
  Q tt (log (EvX509_REQ_free NULL) w) → wp (X509_REQ_free NULL) w Q.
Proof. intros. by apply wp_call. Qed.

Lemma wp_X509_REQ_free a r w Q :
  mem w !! a = Some (OReq r) →
  Q tt (upd_mem (λ m, delete (req_name r) (delete a m)) (log (EvX509_REQ_free (Npos a)) w)) →
  wp (X509_REQ_free (Npos a)) w Q.
Proof. intros Ha HQ. apply wp_call. unfold wp. cbn. by rewrite Ha. Qed.

Lemma wp_X509_free_null w Q :
  Q tt (log (EvX509_free NULL) w) → wp (X509_free NULL) w Q.
Proof. intros. by apply wp_call. Qed.

Lemma wp_X509_free a c w Q :
  mem w !! a = Some (OX509 c) →
  Q tt (upd_mem (delete a) (log (EvX509_free (Npos a)) w)) →
  wp (X509_free (Npos a)) w Q.
Proof. intros Ha HQ. apply wp_call. unfold wp. cbn. by rewrite Ha. Qed.

Lemma wp_BIO_new m w Q :
  (∀ a, mem w !! a = None →
     Q (Npos a)
       (upd_mem (insert a (OBio match m with BIO_s_mem => BioMem [] | BIO_s_file => BioFile None end))
          (log (EvBIO_new m) w))) →
  wp (BIO_new m) w Q.
Proof. intros HQ. apply wp_call, wp_bind, wp_alloc. intros a Ha. by apply wp_ret, HQ. Qed.

Lemma wp_BIO_free_all a b w Q :
  mem w !! a = Some (OBio b) →
  Q tt (upd_mem (delete a) (log (EvBIO_free_all (Npos a)) w)) →
  wp (BIO_free_all (Npos a)) w Q.
Proof. intros Ha HQ. apply wp_call. unfold wp. cbn. by rewrite Ha. Qed.

Lemma wp_BIO_read_filename a o path w Q :
  mem w !! a = Some (OBio (BioFile o)) →
  (let w1 := log (EvBIO_read_filename (Npos a) path) w in
   match files w !! path with
   | Some d => Q 1 (upd_mem (insert a (OBio (BioFile (Some d)))) w1)
   | None => Q 0 w1
   end) →
  wp (BIO_read_filename (Npos a) path) w Q.
Proof.
  intros Ha HQ. apply wp_call. unfold wp. cbn. rewrite Ha.
  cbn in HQ. by destruct (files w !! path).
Qed.

Lemma wp_BIO_pending a d w Q :
  mem w !! a = Some (OBio (BioMem d)) →
  Q (wrap_int (Z.of_nat (length d))) (log (EvBIO_pending (Npos a)) w) →
  wp (BIO_pending (Npos a)) w Q.
Proof. intros Ha HQ. apply wp_call. unfold wp. cbn. by rewrite Ha. Qed.

Lemma wp_malloc size w Q :
  (∀ a, mem w !! a = None →
     Q (Npos a) (upd_mem (insert a (OBuf (replicate (N.to_nat size) None)))
                   (log (EvMalloc size) w))) →
  wp (malloc size) w Q.
Proof. intros HQ. apply wp_call, wp_bind, wp_alloc. intros a Ha. by apply wp_ret, HQ. Qed.

(** Reading the whole content of a memory BIO into a buffer that holds
    it (an empty BIO gives -1 and writes nothing). *)
Lemma wp_BIO_read_all a d c old w Q :
  mem w !! a = Some (OBio (BioMem d)) → mem w !! c = Some (OBuf old) →
  (length d ≤ length old)%nat →
  Q (if bool_decide (d = []) then -1 else Z.of_nat (length d))
    (upd_mem (λ m, <[c := OBuf (fill d old)]> (<[a := OBio (BioMem [])]> m))
       (log (EvBIO_read (Npos a) (Npos c) (Z.of_nat (length d))) w)) →
  wp (BIO_read (Npos a) (Npos c) (Z.of_nat (length d))) w Q.
Proof.
  intros Ha Hc Hlen HQ. apply wp_call. unfold wp. cbn. rewrite Ha. cbn.
  rewrite Z.min_id.
  destruct d as [|x d].
  - match type of HQ with
    | Q _ ?W => assert (W = log (EvBIO_read (Npos a) (Npos c) 0) w) as E
    end.
    { destruct w as [m f e fs cs]. unfold upd_mem, log, fill. cbn in *.
      by rewrite (insert_id _ _ _ Ha), (insert_id _ _ _ Hc). }
    rewrite E in HQ. exact HQ.
  - rewrite Hc.
    rewrite (proj2 (Z.ltb_lt _ _)) by (cbn [length]; lia).
    rewrite (proj2 (Z.leb_le _ _)) by lia.
    by rewrite Nat2Z.id, firstn_all, drop_all.
Qed.

Section pem_rules.
Context `{PemCodec}.

Lemma wp_PEM_read_bio_X509 a bb x cb u w Q :
  mem w !! a = Some (OBio bb) →
  (let w1 := log (EvPEM_read_bio_X509 (Npos a)) w in
   match PEM_decode_X509 (bio_data bb) with
   | Some (c, rest) =>
       ∀ p, mem w !! p = None → a ≠ p →
         Q (Npos p) (upd_mem (insert p (OX509 c))
                       (upd_mem (insert a (OBio (bio_set_data bb rest))) w1))
   | None => Q NULL (upd_mem (insert a (OBio (bio_set_data bb []))) w1)
   end) →
  wp (PEM_read_bio_X509 (Npos a) x cb u) w Q.
Proof.
  intros Ha HQ. apply wp_call. unfold wp. cbn. rewrite Ha. cbn in HQ.
  destruct (PEM_decode_X509 (bio_data bb)) as [[c rest]|]; [|done].
  apply (wp_bind (alloc _)), wp_alloc. intros p Hp. cbn in Hp.
  apply lookup_insert_None in Hp as [Hp Hne]. by apply wp_ret, HQ.
Qed.

Lemma wp_PEM_read_bio_PrivateKey a bb x cb u w Q :
  mem w !! a = Some (OBio bb) →
  (let w1 := log (EvPEM_read_bio_PrivateKey (Npos a)) w in
   match PEM_decode_PrivateKey (bio_data bb) with
   | Some (k, rest) =>
       ∀ r p, mem w !! r = None → mem w !! p = None → a ≠ r → a ≠ p → r ≠ p →
         Q (Npos p) (upd_mem (insert p (OPkey (Npos r)))
                       (upd_mem (insert r (ORsa k))
                          (upd_mem (insert a (OBio (bio_set_data bb rest))) w1)))
   | None => Q NULL (upd_mem (insert a (OBio (bio_set_data bb []))) w1)
   end) →
  wp (PEM_read_bio_PrivateKey (Npos a) x cb u) w Q.
Proof.
  intros Ha HQ. apply wp_call. unfold wp. cbn. rewrite Ha. cbn in HQ.
  destruct (PEM_decode_PrivateKey (bio_data bb)) as [[k rest]|]; [|done].
  apply (wp_bind (alloc _)), wp_alloc. intros r Hr. cbn in Hr.
  apply lookup_insert_None in Hr as [Hr Hner].
  apply (wp_bind (alloc _)), wp_alloc. intros p Hp. cbn in Hp.
  apply lookup_insert_None in Hp as [Hp Hnep].
  apply lookup_insert_None in Hp as [Hp Hnep'].
  by apply wp_ret, HQ.
Qed.

Lemma wp_PEM_write_bio_X509 a d x c w Q :
  mem w !! a = Some (OBio (BioMem d)) → mem w !! x = Some (OX509 c) →
  Q 1 (upd_mem (insert a (OBio (BioMem (d ++ PEM_encode_X509 c))))
         (log (EvPEM_write_bio_X509 (Npos a) (Npos x)) w)) →
  wp (PEM_write_bio_X509 (Npos a) (Npos x)) w Q.
Proof. intros Ha Hx HQ. apply wp_call. unfold wp. cbn. by rewrite Ha, Hx. Qed.

Lemma wp_PEM_write_bio_PrivateKey a d key ra k enc kstr klen cb u w Q :
  mem w !! a = Some (OBio (BioMem d)) → mem w !! key = Some (OPkey (Npos ra)) →
  mem w !! ra = Some (ORsa k) →
  Q 1 (upd_mem (insert a (OBio (BioMem (d ++ private_key_pem k enc kstr klen))))
         (log (EvPEM_write_bio_PrivateKey (Npos a) (Npos key) enc kstr klen cb u) w)) →
  wp (PEM_write_bio_PrivateKey (Npos a) (Npos key) enc kstr klen cb u) w Q.
Proof. intros Ha Hk Hra HQ. apply wp_call. unfold wp. cbn. by rewrite Ha, Hk, Hra. Qed.

End pem_rules.

(** ** Symbolic execution *)

(** Lookups in a memory built by inserts and deletes at distinct addresses. *)
Ltac mem_simpl :=
  cbn [mem files entropy faults calls upd_mem set_entropy set_faults log tick_fault id NULL] in *.

Ltac lookup_tac :=
  mem_simpl;
  repeat first
    [ rewrite lookup_insert_eq
    | rewrite lookup_delete_eq
    | rewrite lookup_insert_ne by done
    | rewrite lookup_delete_ne by done ];
  first [ reflexivity | eassumption ].

(** A fresh address differs from every live one. *)
Ltac fresh_ne H :=
  mem_simpl;
  repeat (apply lookup_insert_None in H; destruct H as [H ?]);
  repeat match goal with
         | Hs : ?m !! ?k = Some _ |- _ =>
             match type of H with
             | m !! ?a = None =>
                 lazymatch goal with
                 | _ : k ≠ a |- _ => fail
                 | _ => assert (k ≠ a) by (intros ->; rewrite H in Hs; discriminate)
                 end
             end
         end.

(** Positions in the fault schedule. *)
Ltac fault_norm :=
  unfold next_fault, fault_at in *; mem_simpl;
  rewrite ?drop_drop, ?drop_0 in *; cbn [Nat.add] in *.

Ltac fault_contra :=
  fault_norm;
  match goal with
  | H1 : ?x = true, H2 : ?x = false |- _ => rewrite H1 in H2; discriminate H2
  end.

Ltac wp_step lem :=
  lazymatch goal with
  | |- wp (mbind _ _) _ _ => apply wp_bind; eapply lem
  | |- _ => eapply lem
  end.
Ltac wp_load := wp_step wp_load; [ lookup_tac | cbn beta ].
Ltac wp_store := wp_step wp_store; [ lookup_tac | cbn beta ].

Ltac wp_add_entry :=
  first [ apply wp_bind | idtac ];
  lazymatch goal with
  | |- wp (X509_NAME_add_entry_by_txt _ ?f _ ?b ?l _ _) _ _ =>
      let ov := eval vm_compute in (entry_value f b l) in
      eapply (wp_X509_NAME_add_entry_by_txt _ _ f _ b l _ _ ov);
      [ lookup_tac | vm_compute; reflexivity | cbv zeta; cbn match ]
  end.

(** Live objects of two different kinds sit at different addresses. *)
Ltac kinds_ne a b :=
  assert (a ≠ b) by
    (let E := fresh in
     intros E; rewrite E in *;
     match goal with
     | H1 : ?m !! b = Some _, H2 : ?m !! b = Some _ |- _ => rewrite H1 in H2; discriminate H2
     end).

(** Where a lookup in a memory of inserts and deletes can come from. *)
Ltac lookup_cases H :=
  mem_simpl;
  repeat first
    [ apply lookup_delete_Some in H; destruct H as [? H]
    | apply lookup_insert_Some in H; destruct H as [[<- <-]|[? H]] ].

(** * generate_csr *)

(** The key generate_csr asks for, given the modulus drawn, and the
    subject it ends up with (the empty locality is rejected by the
    string table, and the source does not look at the result). *)
Definition csr_key (n : N) : rsa_key :=
  {| rsa_bits := RSA_KEY_BITS; rsa_e := RSA_F4; rsa_n := n |}.

Definition csr_subject : x509_name :=
  [("C", REQ_DN_C); ("ST", REQ_DN_ST); ("O", REQ_DN_O); ("OU", REQ_DN_OU);
   ("CN", REQ_DN_CN)].

(** Some step of generate_csr fails: one of the two allocations, the key
    generation, or the signature. *)
Definition csr_faults (w : world) : bool :=
  fault_at w 0 || fault_at w 1 || bool_decide (entropy w = []) || fault_at w 2.

Definition live_req (w : world) (p : ptr) : Prop :=
  ∃ a r es, p = Npos a ∧ mem w !! a = Some (OReq r) ∧ mem w !! req_name r = Some (OName es).

(** The variable at [c] holds a pointer that designates no live object. *)
Definition dangling (w : world) (c : positive) : Prop :=
  ∃ v, mem w !! c = Some (OCell v) ∧ deref w v = None.

(** Apart from the two variables, whatever is live in [w'] was live, and
    the same, in [w]. *)
Definition discarded (w w' : world) (key req : positive) : Prop :=
  ∀ a o, mem w' !! a = Some o → a = key ∨ a = req ∨ mem w !! a = Some o.

(** What a successful call leaves behind [*key] and [*req]. *)
Definition csr_built (w w' : world) (key req : positive) : Prop :=
  ∃ n pool kp ra rp nm,
    entropy w = n :: pool ∧
    mem w' !! key = Some (OCell (Npos kp)) ∧
    mem w' !! req = Some (OCell (Npos rp)) ∧
    mem w' !! kp = Some (OPkey (Npos ra)) ∧
    mem w' !! ra = Some (ORsa (csr_key n)) ∧
    mem w' !! nm = Some (OName csr_subject) ∧
    mem w' !! rp = Some (OReq {|
      req_pubkey := Some (RSA_public (csr_key n));
      req_name := nm;
      req_sig := Some (sign (csr_key n) EVP_sha256
                         {| ri_subject := csr_subject;
                            ri_pubkey := Some (RSA_public (csr_key n)) |}) |}) ∧
    calls w' = calls w ++
      [Enter Fgenerate_csr; EvEVP_PKEY_new; EvX509_REQ_new;
       EvRSA_generate_key RSA_KEY_BITS RSA_F4;
       EvEVP_PKEY_assign_RSA (Npos kp) (Npos ra);
       EvX509_REQ_set_pubkey (Npos rp) (Npos kp);
       EvX509_REQ_get_subject_name (Npos rp);
       EvX509_NAME_add_entry_by_txt (Npos nm) "C" REQ_DN_C;
       EvX509_NAME_add_entry_by_txt (Npos nm) "ST" REQ_DN_ST;
       EvX509_NAME_add_entry_by_txt (Npos nm) "L" REQ_DN_L;
       EvX509_NAME_add_entry_by_txt (Npos nm) "O" REQ_DN_O;
       EvX509_NAME_add_entry_by_txt (Npos nm) "OU" REQ_DN_OU;
       EvX509_NAME_add_entry_by_txt (Npos nm) "CN" REQ_DN_CN;
       EvX509_REQ_sign (Npos rp) (Npos kp) EVP_sha256].

Lemma generate_csr_spec w key req vk vr :
  mem w !! key = Some (OCell vk) → mem w !! req = Some (OCell vr) → key ≠ req →
  (fault_at w 0 = true → vr = NULL ∨ live_req w vr) →
  wp (generate_csr (Npos key) (Npos req)) w (λ r w',
    if csr_faults w
    then r = 0 ∧ dangling w' key ∧ dangling w' req ∧ discarded w w' key req
    else r = 1 ∧ csr_built w w' key req).
Proof.
  intros Hk Hr Hne Hinit. unfold generate_csr, generate_csr_err.
  wp_step wp_emit.
  wp_step wp_EVP_PKEY_new; [intros Hf0 | intros Hf0 kp Hkp].
  { (* EVP_PKEY_new fails *)
    wp_store. wp_load. cbn [is_null N.eqb NULL]. wp_load.
    wp_step wp_EVP_PKEY_free_null. wp_load.
    assert (csr_faults w = true) as -> by (unfold csr_faults; fault_norm; by rewrite Hf0).
    destruct Hinit as [->|(a0 & r0 & es & -> & Ha0 & Hnm0)]; [by fault_norm| |].
    - wp_step wp_X509_REQ_free_null. apply wp_ret. split; [done|].
      split; [eexists; split; [lookup_tac|done]|].
      split; [eexists; split; [lookup_tac|done]|].
      intros a o Ha. lookup_cases Ha; auto.
    - kinds_ne a0 key. kinds_ne a0 req. kinds_ne (req_name r0) key.
      kinds_ne (req_name r0) req. kinds_ne (req_name r0) a0.
      wp_step wp_X509_REQ_free; [lookup_tac|]. apply wp_ret. split; [done|].
      split; [eexists; split; [lookup_tac|done]|].
      split; [eexists; split; [lookup_tac|cbn [deref]; lookup_tac]|].
      intros a o Ha. lookup_cases Ha; auto. }
  fresh_ne Hkp.
  wp_store. wp_load. cbn [is_null N.eqb].
  wp_step wp_X509_REQ_new; [intros Hf1 | intros Hf1 nm rp Hnm Hrp Hnmrp].
  { (* X509_REQ_new fails *)
    wp_store. wp_load. cbn [is_null N.eqb NULL]. wp_load.
    wp_step wp_EVP_PKEY_free; [lookup_tac|]. wp_load.
    wp_step wp_X509_REQ_free_null. apply wp_ret.
    assert (csr_faults w = true) as ->
      by (unfold csr_faults; fault_norm; rewrite Hf1; by destruct (default _ _)).
    split; [done|].
    split; [eexists; split; [lookup_tac|cbn [deref]; lookup_tac]|].
    split; [eexists; split; [lookup_tac|done]|].
    intros a o Ha. lookup_cases Ha; auto; done. }
  fresh_ne Hnm. fresh_ne Hrp.
  wp_store. wp_load. cbn [is_null N.eqb].
  wp_step wp_RSA_generate_key; [intros He | intros n pool ra He Hra].
  { (* the entropy pool is empty *)
    wp_load. wp_step wp_EVP_PKEY_assign_RSA; [lookup_tac|].
    cbn [is_null N.eqb NULL Z.eqb]. wp_load.
    wp_step wp_EVP_PKEY_free; [lookup_tac|]. wp_load.
    wp_step wp_X509_REQ_free; [lookup_tac|]. apply wp_ret.
    assert (csr_faults w = true) as ->.
    { unfold csr_faults. mem_simpl. rewrite He, bool_decide_eq_true_2 by done.
      by rewrite orb_true_r. }
    split; [done|]. cbn [req_name].
    split; [eexists; split; [lookup_tac|cbn [deref]; lookup_tac]|].
    split; [eexists; split; [lookup_tac|cbn [deref]; lookup_tac]|].
    intros a o Ha. lookup_cases Ha; auto; done. }
  fresh_ne Hra.
  wp_load.
  wp_step wp_EVP_PKEY_assign_RSA; [lookup_tac|]. cbn [is_null N.eqb Z.eqb].
  wp_load. wp_load.
  wp_step wp_X509_REQ_set_pubkey; [lookup_tac..|].
  wp_load.
  wp_step wp_X509_REQ_get_subject_name; [lookup_tac|]. cbn [req_name].
  do 6 wp_add_entry.
  wp_load. wp_load.
  wp_step wp_X509_REQ_sign; [lookup_tac.. | intros Hf2 | intros Hf2].
  { (* X509_REQ_sign fails *)
    cbn [Z.eqb]. wp_load.
    wp_step wp_EVP_PKEY_free; [lookup_tac|]. wp_load.
    wp_step wp_X509_REQ_free; [lookup_tac|]. apply wp_ret.
    assert (csr_faults w = true) as ->
      by (unfold csr_faults; fault_norm; rewrite Hf2; by rewrite orb_true_r).
    split; [done|]. cbn [req_name].
    split; [eexists; split; [lookup_tac|cbn [deref]; lookup_tac]|].
    split; [eexists; split; [lookup_tac|cbn [deref]; lookup_tac]|].
    intros a o Ha. lookup_cases Ha; auto; done. }
  change (RSA_size _ =? 0) with false. cbv iota.
  apply wp_ret.
  assert (csr_faults w = false) as ->.
  { unfold csr_faults. fault_norm. rewrite Hf0, Hf1, Hf2, He.
    by rewrite bool_decide_eq_false_2. }
  split; [done|].
  exists n, pool, kp, ra, rp, nm. mem_simpl.
  repeat split; try lookup_tac.
  by rewrite <- !app_assoc.
Qed.

(** [wlp m w Q]: if [m] returns from [w], its result and final world
    satisfy [Q]. *)
Definition wlp {A} (m : M A) (w : world) (Q : A → world → Prop) : Prop :=
  match m w with
  | Returns a w' => Q a w'
  | Undefined => True
  end.

Lemma wlp_bind {A B} (m : M A) (f : A → M B) w Q :
  wp m w (λ a w', wlp (f a) w' Q) → wlp (m ≫= f) w Q.
Proof. unfold wp, wlp, mbind, M_bind. by destruct (m w). Qed.

Lemma wlp_returns {A} (m : M A) w Q a w' :
  wlp m w Q → m w = Returns a w' → Q a w'.
Proof. unfold wlp. intros HQ E. by rewrite E in HQ. Qed.

Lemma wlp_then_ret {A B} (m : M A) (b : B) w (Q : B → world → Prop) :
  (∀ w', Q b w') → wlp (m ;; mret b) w Q.
Proof. intros HQ. unfold wlp, mbind, M_bind. destruct (m w); [apply HQ | done]. Qed.

(** When the first allocation fails, the call cannot report success,
    whatever [*req] held on entry. *)
Lemma generate_csr_first_fault w key req vk vr r w' :
  mem w !! key = Some (OCell vk) → mem w !! req = Some (OCell vr) → key ≠ req →
  fault_at w 0 = true →
  generate_csr (Npos key) (Npos req) w = Returns r w' → r = 0.
Proof.
  intros Hk Hr Hne Hf0. apply (wlp_returns _ _ (λ r _, r = 0)).
  unfold generate_csr, generate_csr_err.
  apply wlp_bind, wp_emit. apply wlp_bind.
  eapply wp_EVP_PKEY_new; [intros _ | intros Hf; fault_contra].
  apply wlp_bind. eapply wp_store; [lookup_tac|].
  apply wlp_bind. eapply wp_load; [lookup_tac|]. cbn [is_null N.eqb NULL].
  apply wlp_bind. eapply wp_load; [lookup_tac|].
  apply wlp_bind. eapply wp_EVP_PKEY_free_null.
  apply wlp_bind. eapply wp_load; [lookup_tac|].
  by apply wlp_then_ret.
Qed.

(** A call that returns 1 went through every step. *)
Lemma generate_csr_success w key req vk vr w' :
  mem w !! key = Some (OCell vk) → mem w !! req = Some (OCell vr) → key ≠ req →
  generate_csr (Npos key) (Npos req) w = Returns 1 w' →
  csr_built w w' key req.
Proof.
  intros Hk Hr Hne Hrun.
  destruct (fault_at w 0) eqn:Hf0.
  { by pose proof (generate_csr_first_fault _ _ _ _ _ _ _ Hk Hr Hne Hf0 Hrun). }
  assert (fault_at w 0 = true → vr = NULL ∨ live_req w vr) as Hinit
    by (rewrite Hf0; discriminate).
  pose proof (generate_csr_spec w key req vk vr Hk Hr Hne Hinit) as Hwp.
  apply wp_returns in Hwp as (r & w'' & Hrun' & Hpost).
  rewrite Hrun in Hrun'. injection Hrun' as <- <-.
  destruct (csr_faults w); [by destruct Hpost | by destruct Hpost].
Qed.

(** ** Reading the results back *)

(** The value of a caller's variable. *)
Definition out (w : world) (c : positive) : ptr :=
  match mem w !! c with
  | Some (OCell v) => v
  | _ => NULL
  end.

(** The RSA key held by the EVP_PKEY at [p]. *)
Definition read_key (w : world) (p : ptr) : option rsa_key :=
  match deref w p with
  | Some (OPkey rsa) =>
      match deref w rsa with
      | Some (ORsa k) => Some k
      | _ => None
      end
  | _ => None
  end.

(** A certificate signing request as a value. *)
Record csr := {
  csr_name : x509_name;
  csr_pubkey : option rsa_pub;
  csr_sig : option (signature req_info)
}.

Definition read_req (w : world) (p : ptr) : option csr :=
  match deref w p with
  | Some (OReq r) =>
      match mem w !! req_name r with
      | Some (OName es) =>
          Some {| csr_name := es; csr_pubkey := req_pubkey r; csr_sig := req_sig r |}
      | _ => None
      end
  | _ => None
  end.

Definition read_x509 (w : world) (p : ptr) : option x509 :=
  match deref w p with
  | Some (OX509 c) => Some c
  | _ => None
  end.

(** X509_REQ_verify: the signature of the request covers what the
    request now says and was made by the key that [pk] belongs to. *)
Definition X509_REQ_verify (c : csr) (pk : rsa_pub) : bool :=
  match csr_sig c with
  | Some s => verify pk {| ri_subject := csr_name c; ri_pubkey := csr_pubkey c |} s
  | None => false
  end.

Lemma csr_built_read w w' key req :
  csr_built w w' key req →
  ∃ n pool,
    entropy w = n :: pool ∧
    read_key w' (out w' key) = Some (csr_key n) ∧
    read_req w' (out w' req) =
      Some {| csr_name := csr_subject;
              csr_pubkey := Some (RSA_public (csr_key n));
              csr_sig := Some (sign (csr_key n) EVP_sha256
                                 {| ri_subject := csr_subject;
                                    ri_pubkey := Some (RSA_public (csr_key n)) |}) |}.
Proof.
  intros (n & pool & kp & ra & rp & nm & He & Hk & Hr & Hkp & Hra & Hnm & Hrp & _).
  exists n, pool. split; [done|].
  unfold read_key, read_req, out, deref. rewrite Hk, Hr, Hkp, Hra, Hrp. cbn [req_name].
  by rewrite Hnm.
Qed.

(** ** A caller of generate_csr

    Two variables, [key] at address 1 and [req] at address 2, both NULL,
    and one modulus left in the entropy pool. *)
Definition w_call : world :=
  World (<[1%positive := OCell 0]> (<[2%positive := OCell 0]> ∅)) ∅ [12345%N] [] [].

(** The same caller when the signature is going to fail, and when the
    very first allocation is. *)
Definition w_call_sign_fault : world := set_faults [false; false; true] w_call.
Definition w_call_no_memory : world := set_faults [true] w_call.

Definition w_call_done : world :=
  Eval vm_compute in
    match generate_csr 1%N 2%N w_call with
    | Returns _ w' => w'
    | Undefined => w_call
    end.

(** C5: a call of generate_csr that returns 1 leaves in [*req] a request
    that carries the public half of the key just generated (left in
    [*key]), is signed with SHA-256, neither MD5 nor SHA-1, and whose
    signature verifies against the public key it carries. *)
Theorem generate_csr_self_signed w key req vk vr w' :
  mem w !! key = Some (OCell vk) → mem w !! req = Some (OCell vr) → key ≠ req →
  generate_csr (Npos key) (Npos req) w = Returns 1 w' →
  ∃ k c s,
    read_key w' (out w' key) = Some k ∧
    read_req w' (out w' req) = Some c ∧
    (∃ pool, entropy w = rsa_n k :: pool) ∧
    csr_pubkey c = Some (RSA_public k) ∧
    csr_sig c = Some s ∧
    sig_md s = EVP_sha256 ∧ sig_md s ≠ EVP_md5 ∧ sig_md s ≠ EVP_sha1 ∧
    X509_REQ_verify c (RSA_public k) = true.
Proof.
  intros Hk Hr Hne Hrun.
  destruct (csr_built_read _ _ _ _ (generate_csr_success _ _ _ _ _ _ Hk Hr Hne Hrun))
    as (n & pool & He & Hkey & Hreq).
  eexists _, _, _. split; [exact Hkey|]. split; [exact Hreq|].
  split; [by exists pool|]. cbn.
  repeat split; try done.
  unfold X509_REQ_verify, verify. cbn. by rewrite !bool_decide_eq_true_2.
Qed.

Lemma generate_csr_self_signed_witness :
  ∃ k c s,
    read_key w_call_done (out w_call_done 1) = Some k ∧
    read_req w_call_done (out w_call_done 2) = Some c ∧
    (∃ pool, entropy w_call = rsa_n k :: pool) ∧
    csr_pubkey c = Some (RSA_public k) ∧
    csr_sig c = Some s ∧
    sig_md s = EVP_sha256 ∧ sig_md s ≠ EVP_md5 ∧ sig_md s ≠ EVP_sha1 ∧
    X509_REQ_verify c (RSA_public k) = true.
Proof.
  apply (generate_csr_self_signed w_call 1 2 0 0 w_call_done);
    [reflexivity | reflexivity | done | vm_compute; reflexivity].
Defined.

(** C10: after a call of generate_csr that returns 1, [*key] holds an RSA
    key of RSA_KEY_BITS = 4096 bits with public exponent RSA_F4 = 65537,
    and that is the size and exponent RSA_generate_key was asked for. *)
Theorem generate_csr_key_strength w key req vk vr w' :
  mem w !! key = Some (OCell vk) → mem w !! req = Some (OCell vr) → key ≠ req →
  generate_csr (Npos key) (Npos req) w = Returns 1 w' →
  ∃ k,
    read_key w' (out w' key) = Some k ∧
    rsa_bits k = RSA_KEY_BITS ∧ RSA_KEY_BITS = 4096 ∧
    rsa_e k = RSA_F4 ∧ RSA_F4 = 65537 ∧
    EvRSA_generate_key 4096 65537 ∈ calls w'.
Proof.
  intros Hk Hr Hne Hrun.
  pose proof (generate_csr_success _ _ _ _ _ _ Hk Hr Hne Hrun) as Hb.
  destruct (csr_built_read _ _ _ _ Hb) as (n & pool & He & Hkey & _).
  exists (csr_key n). repeat split; try done.
  destruct Hb as (? & ? & ? & ? & ? & ? & _ & _ & _ & _ & _ & _ & _ & ->).
  apply elem_of_app. right. do 3 apply list_elem_of_further. apply list_elem_of_here.
Qed.

Lemma generate_csr_key_strength_witness :
  ∃ k,
    read_key w_call_done (out w_call_done 1) = Some k ∧
    rsa_bits k = RSA_KEY_BITS ∧ RSA_KEY_BITS = 4096 ∧
    rsa_e k = RSA_F4 ∧ RSA_F4 = 65537 ∧
    EvRSA_generate_key 4096 65537 ∈ calls w_call_done.
Proof.
  apply (generate_csr_key_strength w_call 1 2 0 0 w_call_done);
    [reflexivity | reflexivity | done | vm_compute; reflexivity].
Defined.

(** When a step of generate_csr fails (an allocation, the key
    generation or the signature), the call returns 0, the key and the
    request built so far have been freed, so that [*key] and [*req]
    designate no live object, and nothing the call built stays in memory,
    provided that [*req] holds NULL or a request on entry when the first
    allocation is the one that fails: the clean-up then frees [*req]
    before the call has set it. *)
Lemma generate_csr_failure_discards w key req vk vr :
  mem w !! key = Some (OCell vk) → mem w !! req = Some (OCell vr) → key ≠ req →
  (fault_at w 0 = true → vr = NULL ∨ live_req w vr) →
  csr_faults w = true →
  ∃ w', generate_csr (Npos key) (Npos req) w = Returns 0 w' ∧
        dangling w' key ∧ dangling w' req ∧ discarded w w' key req.
Proof.
  intros Hk Hr Hne Hinit Hfail.
  pose proof (generate_csr_spec w key req vk vr Hk Hr Hne Hinit) as Hwp.
  apply wp_returns in Hwp as (r & w' & Hrun & Hpost).
  rewrite Hfail in Hpost. destruct Hpost as (-> & Hpost). by exists w'.
Qed.

Example generate_csr_sign_fault_discards :
  ∃ w', generate_csr 1%N 2%N w_call_sign_fault = Returns 0 w' ∧
        dangling w' 1 ∧ dangling w' 2 ∧ discarded w_call_sign_fault w' 1 2.
Proof.
  apply (generate_csr_failure_discards w_call_sign_fault 1 2 0 0);
    [reflexivity | reflexivity | done | intros _; by left | reflexivity].
Qed.

(** A prefix with defined behaviour followed by an undefined step. *)
Lemma undefined_bind {A B} (m : M A) (f : A → M B) w :
  wp m w (λ a w', f a w' = Undefined) → (m ≫= f) w = Undefined.
Proof. unfold wp, mbind, M_bind. by destruct (m w). Qed.

Lemma undefined_first {A B} (m : M A) (f : A → M B) w :
  m w = Undefined → (m ≫= f) w = Undefined.
Proof. unfold mbind, M_bind. by intros ->. Qed.

(** When the first allocation fails and [*req] holds an address at which
    nothing lives, the err block frees that address. *)
Lemma generate_csr_unset_req w key req vk a :
  mem w !! key = Some (OCell vk) → mem w !! req = Some (OCell (Npos a)) → key ≠ req →
  mem w !! a = None → fault_at w 0 = true →
  generate_csr (Npos key) (Npos req) w = Undefined.
Proof.
  intros Hk Hr Hne Ha Hf0. unfold generate_csr, generate_csr_err.
  assert (key ≠ a) by (intros ->; rewrite Ha in Hk; discriminate Hk).
  apply undefined_bind, wp_emit. apply undefined_bind.
  eapply wp_EVP_PKEY_new; [intros _ | intros Hf; fault_contra].
  apply undefined_bind. eapply wp_store; [lookup_tac|].
  apply undefined_bind. eapply wp_load; [lookup_tac|]. cbn [is_null N.eqb NULL].
  apply undefined_bind. eapply wp_load; [lookup_tac|].
  apply undefined_bind. eapply wp_EVP_PKEY_free_null.
  apply undefined_bind. eapply wp_load; [lookup_tac|].
  apply undefined_first. unfold X509_REQ_free. apply undefined_bind, wp_emit.
  mem_simpl. by rewrite lookup_insert_ne, Ha.
Qed.

(** A caller that has not initialised [req]: the variable holds an
    address at which nothing lives, and no memory is left for the first
    allocation. *)
Definition w_call_unset : world :=
  World (<[1%positive := OCell 0]> (<[2%positive := OCell 77]> ∅)) ∅ [12345%N] [true] [].

(** C6: when EVP_PKEY_new fails, control jumps to the err block before
    [*req] has been assigned, and the block passes [*req] to
    X509_REQ_free.  With a [req] the caller has not initialised the call
    does not return 0: it frees an address at which nothing lives, which
    is undefined.  (load_ca sets both of its out-parameters to NULL
    before its first jump to err; generate_csr does not.) *)
Theorem generate_csr_frees_unset_req :
  next_fault w_call_unset = true ∧
  out w_call_unset 2 = 77%N ∧
  deref w_call_unset (out w_call_unset 2) = None ∧
  generate_csr 1%N 2%N w_call_unset = Undefined.
Proof. repeat apply conj; by vm_compute. Qed.

(** * main, initialize and the empty functions *)

(** What a run of [main] adds to the log of calls. *)
Definition main_calls : list event :=
  [Enter Fmain; Enter Finitialize; EvERR_load_crypto_strings;
   EvOpenSSL_add_all_algorithms; EvOPENSSL_config NULL].

Lemma not_in_main_calls (e : event) :
  bool_decide (e ∈ main_calls) = false → e ∉ main_calls.
Proof. by intros ?%bool_decide_eq_false. Qed.

(** C3: [main] enters [initialize], which makes the three set-up calls
    of the crypto library, and returns 0.  Memory, files, entropy and
    fault schedule are untouched and nothing else is called: not load_ca,
    not the issuer, not the server loop, no socket call, not cleanup nor
    any of its four tear-down calls. *)
Theorem main_only_initializes (argc : Z) (argv : ptr) (w : world) :
  main argc argv w
    = Returns 0 (World (mem w) (files w) (entropy w) (faults w) (calls w ++ main_calls)) ∧
  (Enter Fload_ca ∉ main_calls) ∧
  (Enter Fgenerate_signed_key_pair ∉ main_calls) ∧
  (Enter Fgenerate_csr ∉ main_calls) ∧
  (Enter Fserver_loop ∉ main_calls) ∧
  (Enter Fcleanup ∉ main_calls) ∧
  (EvEVP_cleanup ∉ main_calls) ∧ (EvCRYPTO_cleanup_all_ex_data ∉ main_calls) ∧
  (EvERR_free_strings ∉ main_calls) ∧ (∀ t, EvERR_remove_thread_state t ∉ main_calls) ∧
  (EvSocket ∉ main_calls) ∧ (∀ port, EvBind port ∉ main_calls) ∧
  (EvListen ∉ main_calls) ∧ (EvAccept ∉ main_calls).
Proof.
  split.
  { cbv [main initialize main_calls mbind M_bind mret M_ret enter emit log
         ERR_load_crypto_strings OpenSSL_add_all_algorithms OPENSSL_config
         mem files entropy faults calls].
    by rewrite <- !app_assoc. }
  repeat split; try (by apply not_in_main_calls).
  - intros t H. repeat (apply elem_of_cons in H as [H|H]; [discriminate H|]).
    by apply elem_of_nil in H.
  - intros p H. repeat (apply elem_of_cons in H as [H|H]; [discriminate H|]).
    by apply elem_of_nil in H.
Qed.

(** ** generate_signed_key_pair *)

(** A CA in memory: the two variables a caller passes for [key] and
    [crt] (addresses 1 and 2, NULL), the CA's key (3, owning the RSA key
    at 4) and its self-signed certificate (5). *)
Definition ca_rsa : rsa_key := {| rsa_bits := 4096; rsa_e := 65537; rsa_n := 777 |}.

Definition ca_info : cert_info :=
  {| ci_serial := 1;
     ci_issuer := [("O", "Grand Valley State University"); ("CN", "Nucleus CA")];
     ci_not_before := 0;
     ci_not_after := 315360000;
     ci_subject := [("O", "Grand Valley State University"); ("CN", "Nucleus CA")];
     ci_pubkey := RSA_public ca_rsa |}.

Definition ca_cert : x509 :=
  {| crt_info := ca_info; crt_sig := sign ca_rsa EVP_sha256 ca_info |}.

Definition w_ca : world :=
  World (<[1%positive := OCell 0]> (<[2%positive := OCell 0]>
         (<[3%positive := OPkey 4%N]> (<[4%positive := ORsa ca_rsa]>
         (<[5%positive := OX509 ca_cert]> ∅)))))
        ∅ [12345%N] [] [].

(** What the specification states of the issuer, for the subject and
    key that generate_csr would request: the call leaves in [*crt] a certificate
    signed by the CA's key, issued by the subject of the CA certificate,
    for the request's subject and the public half of the key in [*key]. *)
Definition issues_certificate (w : world) (ca_key ca_crt : ptr) (key crt : positive) : Prop :=
  ∃ r w' k ca cert sk,
    generate_signed_key_pair ca_key ca_crt (Npos key) (Npos crt) w = Returns r w' ∧
    read_key w ca_key = Some k ∧ read_x509 w ca_crt = Some ca ∧
    read_x509 w' (out w' crt) = Some cert ∧ read_key w' (out w' key) = Some sk ∧
    X509_verify cert (RSA_public k) = true ∧
    ci_issuer (crt_info cert) = ci_subject (crt_info ca) ∧
    ci_subject (crt_info cert) = csr_subject ∧
    ci_pubkey (crt_info cert) = RSA_public sk.

(** With a well-formed CA the call issues nothing: [*crt] is still NULL. *)
Lemma generate_signed_key_pair_issues_nothing :
  ¬ issues_certificate w_ca 3%N 5%N 1 2.
Proof.
  intros (r & w' & k & ca & cert & sk & Hrun & _ & _ & Hcert & _).
  injection Hrun as <- <-. vm_compute in Hcert. discriminate Hcert.
Qed.

(** C2, as the code has it: the body of generate_signed_key_pair is
    empty.  It returns no value, makes no library call and leaves memory
    as it was, so [*key] and [*crt] keep what the caller put there and no
    certificate exists that did not exist before. *)
Theorem generate_signed_key_pair_is_empty (ca_key ca_crt key crt : ptr) (w : world) :
  ∃ w',
    generate_signed_key_pair ca_key ca_crt key crt w = Returns None w' ∧
    mem w' = mem w ∧ files w' = files w ∧ entropy w' = entropy w ∧
    calls w' = calls w ++ [Enter Fgenerate_signed_key_pair] ∧
    (∀ c, out w' c = out w c) ∧
    (∀ p, read_x509 w' p = read_x509 w p).
Proof. by eexists. Qed.

(** * load_ca *)

(** Brings the world of a [wp] goal to the form [World m f e fs cs]. *)
Ltac flatten :=
  lazymatch goal with
  | |- wp ?m ?W ?Q =>
      let M := eval cbn [mem upd_mem set_entropy set_faults log tick_fault id NULL] in (mem W) in
      let F := eval cbn [files upd_mem set_entropy set_faults log tick_fault] in (files W) in
      let E := eval cbn [entropy upd_mem set_entropy set_faults log tick_fault] in (entropy W) in
      let Fs := eval cbn [faults upd_mem set_entropy set_faults log tick_fault] in (faults W) in
      let C := eval cbn [calls upd_mem set_entropy set_faults log tick_fault] in (calls W) in
      change (wp m (World M F E Fs C) Q)
  end.

(** After a free: the freed address, fresh when it was allocated ([H]),
    leaves no trace in the memory. *)
Ltac free_norm H :=
  flatten;
  repeat first [ rewrite delete_insert_eq | rewrite delete_insert_ne by done ];
  rewrite (delete_id _ _ H).

Ltac read_tac :=
  unfold out, read_x509, read_key, read_req, deref; mem_simpl;
  repeat (first
    [ rewrite lookup_insert_eq
    | rewrite lookup_delete_eq
    | rewrite lookup_insert_ne by done
    | rewrite lookup_delete_ne by done
    | match goal with H : ?m !! ?k = _ |- context [?m !! ?k] => rewrite H end ];
    cbn beta iota);
  try reflexivity.

Section load_ca.
Context `{PemCodec}.

(** What the two files hold, in the order load_ca looks at them. *)
Inductive ca_input :=
| CertUnreadable
| CertCorrupt
| KeyUnreadable (c : x509)
| KeyCorrupt (c : x509)
| Loaded (c : x509) (k : rsa_key).

Definition ca_input_of (w : world) (ca_key_path ca_crt_path : string) : ca_input :=
  match files w !! ca_crt_path with
  | None => CertUnreadable
  | Some dc =>
      match PEM_decode_X509 dc with
      | None => CertCorrupt
      | Some (c, _) =>
          match files w !! ca_key_path with
          | None => KeyUnreadable c
          | Some dk =>
              match PEM_decode_PrivateKey dk with
              | None => KeyCorrupt c
              | Some (k, _) => Loaded c k
              end
          end
      end
  end.

(** What load_ca returns and leaves in [*ca_key] and [*ca_crt]. *)
Definition load_ca_post (i : ca_input) (key crt : positive) (r : Z) (w' : world) : Prop :=
  match i with
  | CertUnreadable | CertCorrupt => r = 0 ∧ out w' crt = NULL ∧ out w' key = NULL
  | KeyUnreadable _ => r = 0 ∧ dangling w' crt ∧ out w' key = NULL
  | KeyCorrupt c => r = 1 ∧ read_x509 w' (out w' crt) = Some c ∧ out w' key = NULL
  | Loaded c k =>
      r = 1 ∧ read_x509 w' (out w' crt) = Some c ∧ read_key w' (out w' key) = Some k
  end.

Lemma load_ca_spec w ca_key_path key ca_crt_path crt vk vc :
  mem w !! key = Some (OCell vk) → mem w !! crt = Some (OCell vc) → key ≠ crt →
  wp (load_ca ca_key_path (Npos key) ca_crt_path (Npos crt)) w
     (load_ca_post (ca_input_of w ca_key_path ca_crt_path) key crt).
Proof.
  intros Hk Hc Hne. unfold load_ca, load_ca_err, ca_input_of.
  wp_step wp_emit. wp_store. wp_store.
  wp_step wp_BIO_new. intros b1 Hb1. fresh_ne Hb1.
  wp_step wp_BIO_read_filename; [lookup_tac|]. cbv zeta. mem_simpl.
  destruct (files w !! ca_crt_path) as [dc|] eqn:Hfc.
  2:{ (* the certificate file cannot be read *)
      cbn [Z.eqb]. wp_step wp_BIO_free_all; [lookup_tac|]. free_norm Hb1.
      wp_load. wp_step wp_X509_free_null. wp_load. wp_step wp_EVP_PKEY_free_null.
      apply wp_ret. repeat apply conj; read_tac. }
  cbn [Z.eqb].
  wp_step wp_PEM_read_bio_X509; [lookup_tac|]. cbv zeta. cbn [bio_data bio_set_data].
  destruct (PEM_decode_X509 dc) as [[c crest]|] eqn:Hdc.
  2:{ (* no certificate in the file *)
      wp_store. wp_load. cbn [is_null N.eqb NULL].
      wp_step wp_BIO_free_all; [lookup_tac|]. free_norm Hb1.
      wp_load. wp_step wp_X509_free_null. wp_load. wp_step wp_EVP_PKEY_free_null.
      apply wp_ret. repeat apply conj; read_tac. }
  intros p Hp Hb1p. fresh_ne Hp.
  wp_store. wp_load. cbn [is_null N.eqb].
  wp_step wp_BIO_free_all; [lookup_tac|]. free_norm Hb1.
  wp_step wp_BIO_new. intros b2 Hb2. fresh_ne Hb2.
  wp_step wp_BIO_read_filename; [lookup_tac|]. cbv zeta. mem_simpl.
  destruct (files w !! ca_key_path) as [dk|] eqn:Hfk.
  2:{ (* the key file cannot be read *)
      cbn [Z.eqb]. wp_step wp_BIO_free_all; [lookup_tac|]. free_norm Hb2.
      wp_load. wp_step wp_X509_free; [lookup_tac|].
      wp_load. wp_step wp_EVP_PKEY_free_null.
      apply wp_ret. repeat apply conj; try read_tac.
      eexists. split; [lookup_tac | cbn [deref]; lookup_tac]. }
  cbn [Z.eqb].
  wp_step wp_PEM_read_bio_PrivateKey; [lookup_tac|]. cbv zeta. cbn [bio_data bio_set_data].
  destruct (PEM_decode_PrivateKey dk) as [[k krest]|] eqn:Hdk.
  2:{ (* no key in the file: the test on ca_key lets the call go on *)
      wp_store. cbn [is_null N.eqb].
      wp_step wp_BIO_free_all; [lookup_tac|]. free_norm Hb2.
      apply wp_ret. repeat apply conj; read_tac. }
  intros r pk Hr Hpk Hb2r Hb2pk Hrpk. fresh_ne Hr. fresh_ne Hpk.
  wp_store. cbn [is_null N.eqb].
  wp_step wp_BIO_free_all; [lookup_tac|]. free_norm Hb2.
  apply wp_ret. repeat apply conj; read_tac.
Qed.

End load_ca.

(** * crt_to_pem and key_to_pem *)

(** The first [n] bytes of the buffer at [p], when all of them have been
    written. *)
Definition read_buf (w : world) (p : ptr) (n : N) : option (list byte) :=
  match deref w p with
  | Some (OBuf d) =>
      if bool_decide (N.to_nat n ≤ length d)%nat then mapM id (take (N.to_nat n) d) else None
  | _ => None
  end.

Lemma read_buf_fill (bs : list byte) (old : list (option byte)) :
  (length bs ≤ length old)%nat →
  mapM id (take (length bs) (fill bs old)) = Some bs.
Proof.
  intros Hlen. unfold fill. rewrite take_app_length'; [|by rewrite length_fmap].
  apply mapM_Some. clear Hlen. induction bs; constructor; auto.
Qed.

Lemma length_fill (bs : list byte) (old : list (option byte)) :
  (length bs ≤ length old)%nat → length (fill bs old) = length old.
Proof. intros. unfold fill. rewrite length_app, length_fmap, length_drop. lia. Qed.

(** The conversions between [int] and [size_t] that the two functions go
    through are the identity on a length that fits in an [int]. *)
Section lengths.
Variable len : nat.
Hypothesis Hlen : Z.of_nat len ≤ INT_MAX.

Lemma pending_int : wrap_int (Z.of_nat len) = Z.of_nat len.
Proof. unfold wrap_int, INT_MAX in *. rewrite Z.mod_small; lia. Qed.

Lemma pending_size_t : wrap_size_t (Z.of_nat len) = N.of_nat len.
Proof. unfold wrap_size_t, INT_MAX in *. rewrite Z.mod_small; lia. Qed.

Lemma malloc_size : wrap_size_t (Z.of_N (N.of_nat len) + 1) = N.of_nat (S len).
Proof. unfold wrap_size_t, INT_MAX in *. rewrite Z.mod_small; lia. Qed.

Lemma read_len : wrap_int (Z.of_N (N.of_nat len)) = Z.of_nat len.
Proof. rewrite nat_N_Z. apply pending_int. Qed.

End lengths.

(** What the two functions leave behind: [*bytes] points to a buffer that
    starts with the text, [*size] is the length of the text. *)
Definition pem_out (w' : world) (bytes size : positive) (pem : list byte) : Prop :=
  out w' size = N.of_nat (length pem) ∧
  read_buf w' (out w' bytes) (out w' size) = Some pem.

Ltac pem_tail buf Hbuf Hlen :=
  wp_step wp_BIO_pending; [lookup_tac|]; cbn [app];
  rewrite (pending_int _ Hlen), (pending_size_t _ Hlen);
  wp_store; wp_load;
  rewrite (malloc_size _ Hlen);
  wp_step wp_malloc; intros buf Hbuf; fresh_ne Hbuf;
  wp_store; wp_load; wp_load;
  rewrite (read_len _ Hlen);
  wp_step wp_BIO_read_all; [lookup_tac | lookup_tac | rewrite length_replicate; lia |];
  wp_step wp_BIO_free_all; [lookup_tac|].

Ltac pem_done b buf Hlen :=
  split;
  [ unfold pem_out, read_buf; split; read_tac;
    rewrite Nat2N.id, bool_decide_eq_true_2
      by (rewrite length_fill; rewrite length_replicate; lia);
    apply read_buf_fill; rewrite length_replicate; lia
  | exists (Npos b), (Npos buf); mem_simpl; rewrite <- !app_assoc; cbn [app]; reflexivity ].

Section pem_writers.
Context `{PemCodec}.

Lemma crt_to_pem_spec w crt c bytes size vb vs :
  mem w !! crt = Some (OX509 c) →
  mem w !! bytes = Some (OCell vb) → mem w !! size = Some (OCell vs) → bytes ≠ size →
  Z.of_nat (length (PEM_encode_X509 c)) ≤ INT_MAX →
  wp (crt_to_pem (Npos crt) (Npos bytes) (Npos size)) w (λ _ w',
    pem_out w' bytes size (PEM_encode_X509 c) ∧
    ∃ bio buf,
      calls w' = calls w ++
        [Enter Fcrt_to_pem; EvBIO_new BIO_s_mem; EvPEM_write_bio_X509 bio (Npos crt);
         EvBIO_pending bio; EvMalloc (N.of_nat (S (length (PEM_encode_X509 c))));
         EvBIO_read bio buf (Z.of_nat (length (PEM_encode_X509 c)));
         EvBIO_free_all bio]).
Proof.
  intros Hcrt Hb Hs Hne Hlen. unfold crt_to_pem.
  wp_step wp_emit.
  wp_step wp_BIO_new. intros b Hbio. fresh_ne Hbio.
  wp_step wp_PEM_write_bio_X509; [lookup_tac..|].
  pem_tail buf Hbuf Hlen.
  pem_done b buf Hlen.
Qed.

Lemma key_to_pem_spec w key ra k bytes size vb vs :
  mem w !! key = Some (OPkey (Npos ra)) → mem w !! ra = Some (ORsa k) →
  mem w !! bytes = Some (OCell vb) → mem w !! size = Some (OCell vs) → bytes ≠ size →
  Z.of_nat (length (PEM_encode_PrivateKey k)) ≤ INT_MAX →
  wp (key_to_pem (Npos key) (Npos bytes) (Npos size)) w (λ _ w',
    pem_out w' bytes size (PEM_encode_PrivateKey k) ∧
    ∃ bio buf,
      calls w' = calls w ++
        [Enter Fkey_to_pem; EvBIO_new BIO_s_mem;
         EvPEM_write_bio_PrivateKey bio (Npos key) None None 0 NULL NULL;
         EvBIO_pending bio; EvMalloc (N.of_nat (S (length (PEM_encode_PrivateKey k))));
         EvBIO_read bio buf (Z.of_nat (length (PEM_encode_PrivateKey k)));
         EvBIO_free_all bio]).
Proof.
  intros Hkey Hra Hb Hs Hne Hlen. unfold key_to_pem.
  wp_step wp_emit.
  wp_step wp_BIO_new. intros b Hbio. fresh_ne Hbio.
  wp_step wp_PEM_write_bio_PrivateKey; [lookup_tac..|]. cbn [private_key_pem].
  pem_tail buf Hbuf Hlen.
  pem_done b buf Hlen.
Qed.

End pem_writers.

(** * What load_ca does with the two files *)

Section load_ca_results.
Context `{PemCodec}.

(** load_ca has defined behaviour whenever [ca_key] and [ca_crt] point
    to two variables, and [load_ca_post] is all it can do. *)
Lemma load_ca_returns w ca_key_path key ca_crt_path crt vk vc :
  mem w !! key = Some (OCell vk) → mem w !! crt = Some (OCell vc) → key ≠ crt →
  ∃ r w',
    load_ca ca_key_path (Npos key) ca_crt_path (Npos crt) w = Returns r w' ∧
    load_ca_post (ca_input_of w ca_key_path ca_crt_path) key crt r w'.
Proof. intros Hk Hc Hne. by apply wp_returns, (load_ca_spec _ _ _ _ _ vk vc). Qed.

(** A key file that can be read but holds no key: the call reports
    success and [*ca_key] is NULL. *)
Lemma load_ca_corrupt_key w ca_key_path key ca_crt_path crt vk vc c :
  mem w !! key = Some (OCell vk) → mem w !! crt = Some (OCell vc) → key ≠ crt →
  ca_input_of w ca_key_path ca_crt_path = KeyCorrupt c →
  ∃ w',
    load_ca ca_key_path (Npos key) ca_crt_path (Npos crt) w = Returns 1 w' ∧
    read_x509 w' (out w' crt) = Some c ∧ out w' key = NULL.
Proof.
  intros Hk Hc Hne Hin.
  destruct (load_ca_returns w ca_key_path key ca_crt_path crt vk vc Hk Hc Hne)
    as (r & w' & Hrun & Hpost).
  rewrite Hin in Hpost. destruct Hpost as (-> & ? & ?). by exists w'.
Qed.

(** What the specification states of a key that does not belong to the
    certificate: load_ca turns the pair down. *)
Definition rejects_mismatch (w : world) (ca_key_path : string) (key : positive)
    (ca_crt_path : string) (crt : positive) : Prop :=
  ∀ c k,
    ca_input_of w ca_key_path ca_crt_path = Loaded c k →
    X509_check_private_key c k = false →
    ∃ w', load_ca ca_key_path (Npos key) ca_crt_path (Npos crt) w = Returns 0 w'.

(** C4, as the code has it: load_ca never compares the key with the
    certificate.  When both files can be read and both decode, it returns
    1 with the decoded certificate in [*ca_crt] and the decoded key in
    [*ca_key], whether or not the key belongs to the certificate. *)
Theorem load_ca_checks_no_mismatch w ca_key_path key ca_crt_path crt vk vc c k :
  mem w !! key = Some (OCell vk) → mem w !! crt = Some (OCell vc) → key ≠ crt →
  ca_input_of w ca_key_path ca_crt_path = Loaded c k →
  ∃ w',
    load_ca ca_key_path (Npos key) ca_crt_path (Npos crt) w = Returns 1 w' ∧
    read_x509 w' (out w' crt) = Some c ∧
    read_key w' (out w' key) = Some k.
Proof.
  intros Hk Hc Hne Hin.
  destruct (load_ca_returns w ca_key_path key ca_crt_path crt vk vc Hk Hc Hne)
    as (r & w' & Hrun & Hpost).
  rewrite Hin in Hpost. destruct Hpost as (-> & ? & ?). by exists w'.
Qed.

End load_ca_results.

(** * A small codec and a disk for the examples *)

(** A codec given by a table of values and their PEM texts: a value of
    the table encodes to its text, and a stream that starts with a text
    of the table decodes to its value. *)
Fixpoint table_encode {A} `{EqDecision A} (tbl : list (A * list byte)) (x : A) : list byte :=
  match tbl with
  | [] => []
  | (y, t) :: tbl => if decide (y = x) then t else table_encode tbl x
  end.

Fixpoint table_decode {A} (tbl : list (A * list byte)) (d : list byte)
    : option (A * list byte) :=
  match tbl with
  | [] => None
  | (x, t) :: tbl =>
      if bool_decide (take (length t) d = t) then Some (x, drop (length t) d)
      else table_decode tbl d
  end.

Definition pem_text (label body : string) : list byte :=
  String.list_byte_of_string ("-----BEGIN " +:+ label +:+ "-----" +:+ body +:+
                       "-----END " +:+ label +:+ "-----").

(** A second key, which is not the CA's. *)
Definition other_rsa : rsa_key := {| rsa_bits := 4096; rsa_e := 65537; rsa_n := 888 |}.

Definition cert_table : list (x509 * list byte) :=
  [(ca_cert, pem_text "CERTIFICATE" "TnVjbGV1cyBDQQ==")].

Definition key_table : list (rsa_key * list byte) :=
  [(ca_rsa, pem_text "PRIVATE KEY" "Nzc3"); (other_rsa, pem_text "PRIVATE KEY" "ODg4")].

Definition example_codec : PemCodec :=
  {| PEM_encode_X509 := table_encode cert_table;
     PEM_decode_X509 := table_decode cert_table;
     PEM_encode_PrivateKey := table_encode key_table;
     PEM_encrypt_PrivateKey := λ _ pass k,
       pem_text "ENCRYPTED PRIVATE KEY" "" ++ pass ++ table_encode key_table k;
     PEM_decode_PrivateKey := table_decode key_table |}.

(** A caller of load_ca: the variables [ca_key] (address 1) and [ca_crt]
    (address 2), and the two files; server.crt holds the CA certificate. *)
Definition disk (key_file : list byte) : world :=
  World (<[1%positive := OCell 0]> (<[2%positive := OCell 0]> ∅))
        (<[RSA_SERVER_CERT := table_encode cert_table ca_cert]>
           (<[RSA_SERVER_KEY := key_file]> ∅))
        [] [] [].

(** server.key holds the CA's key, another key, or no key at all. *)
Definition w_disk : world := disk (table_encode key_table ca_rsa).
Definition w_disk_mismatch : world := disk (table_encode key_table other_rsa).
Definition w_disk_corrupt_key : world := disk (String.list_byte_of_string "not a key").

(** C1: with a readable certificate that decodes and a readable key file
    in which the PEM reader finds no key, load_ca returns 1, not 0, and
    leaves NULL in [*ca_key]: line 189 tests [ca_key], the address of the
    caller's variable, where line 182 tests [*ca_crt]. *)
Theorem load_ca_corrupt_key_reports_success :
  ca_input_of (H := example_codec) w_disk_corrupt_key RSA_SERVER_KEY RSA_SERVER_CERT
    = KeyCorrupt ca_cert ∧
  ∃ w',
    load_ca (H := example_codec) RSA_SERVER_KEY 1%N RSA_SERVER_CERT 2%N w_disk_corrupt_key
      = Returns 1 w' ∧
    read_x509 w' (out w' 2) = Some ca_cert ∧
    out w' 1 = NULL.
Proof.
  split; [by vm_compute|].
  apply (load_ca_corrupt_key (H := example_codec) w_disk_corrupt_key
           RSA_SERVER_KEY 1 RSA_SERVER_CERT 2 0%N 0%N ca_cert);
    [reflexivity | reflexivity | done | by vm_compute].
Qed.

(** The CA certificate with a key that is not the CA's: load_ca does not
    turn the pair down. *)
Lemma load_ca_accepts_mismatch :
  ¬ rejects_mismatch (H := example_codec) w_disk_mismatch RSA_SERVER_KEY 1 RSA_SERVER_CERT 2.
Proof.
  intros Hrej.
  destruct (Hrej ca_cert other_rsa) as (w' & Hrun); [by vm_compute | by vm_compute |].
  vm_compute in Hrun. discriminate Hrun.
Qed.

Lemma load_ca_checks_no_mismatch_witness :
  X509_check_private_key ca_cert other_rsa = false ∧
  ∃ w',
    load_ca (H := example_codec) RSA_SERVER_KEY 1%N RSA_SERVER_CERT 2%N w_disk_mismatch
      = Returns 1 w' ∧
    read_x509 w' (out w' 2) = Some ca_cert ∧
    read_key w' (out w' 1) = Some other_rsa.
Proof.
  split; [by vm_compute|].
  apply (load_ca_checks_no_mismatch (H := example_codec) w_disk_mismatch
           RSA_SERVER_KEY 1 RSA_SERVER_CERT 2 0%N 0%N ca_cert other_rsa);
    [reflexivity | reflexivity | done | by vm_compute].
Defined.

(** * Encoding and decoding through the functions of auth.c *)

Section round_trip.
Context `{PemCodec}.

(** encode_cert: crt_to_pem run on a certificate (address 1) by a caller
    with the variables [crt_bytes] (2) and [crt_size] (3); the result is
    the [*crt_size] bytes at [*crt_bytes]. *)
Definition encode_cert (c : x509) : option (list byte) :=
  let w := World (<[1%positive := OX509 c]> (<[2%positive := OCell 0]>
                 (<[3%positive := OCell 0]> ∅))) ∅ [] [] [] in
  match crt_to_pem 1%N 2%N 3%N w with
  | Returns _ w' => read_buf w' (out w' 2) (out w' 3)
  | Undefined => None
  end.

(** encode_key: key_to_pem run on a key (address 1, its RSA at 2), with
    [key_bytes] at 3 and [key_size] at 4. *)
Definition encode_key (k : rsa_key) : option (list byte) :=
  let w := World (<[1%positive := OPkey 2%N]> (<[2%positive := ORsa k]>
                 (<[3%positive := OCell 0]> (<[4%positive := OCell 0]> ∅)))) ∅ [] [] [] in
  match key_to_pem 1%N 3%N 4%N w with
  | Returns _ w' => read_buf w' (out w' 3) (out w' 4)
  | Undefined => None
  end.

(** decode_ca: load_ca run on the two texts stored as server.key and
    server.crt; the key and certificate it leaves when it returns 1. *)
Definition decode_ca (key_pem crt_pem : list byte) : option (rsa_key * x509) :=
  let w := World (<[1%positive := OCell 0]> (<[2%positive := OCell 0]> ∅))
                 (<[RSA_SERVER_KEY := key_pem]> (<[RSA_SERVER_CERT := crt_pem]> ∅))
                 [] [] [] in
  match load_ca RSA_SERVER_KEY 1%N RSA_SERVER_CERT 2%N w with
  | Returns r w' =>
      if r =? 1 then
        match read_key w' (out w' 1), read_x509 w' (out w' 2) with
        | Some k, Some c => Some (k, c)
        | _, _ => None
        end
      else None
  | Undefined => None
  end.

Lemma encode_cert_pem c :
  Z.of_nat (length (PEM_encode_X509 c)) ≤ INT_MAX →
  encode_cert c = Some (PEM_encode_X509 c).
Proof.
  intros Hlen. unfold encode_cert. cbv zeta.
  match goal with
  | |- context [crt_to_pem ?a ?b ?s ?w] =>
      pose proof (crt_to_pem_spec w 1 c 2 3 0%N 0%N) as Hwp
  end.
  apply wp_returns in Hwp as ([] & w' & -> & [[_ Hbuf] _]); done.
Qed.

Lemma encode_key_pem k :
  Z.of_nat (length (PEM_encode_PrivateKey k)) ≤ INT_MAX →
  encode_key k = Some (PEM_encode_PrivateKey k).
Proof.
  intros Hlen. unfold encode_key. cbv zeta.
  match goal with
  | |- context [key_to_pem ?a ?b ?s ?w] =>
      pose proof (key_to_pem_spec w 1 2 k 3 4 0%N 0%N) as Hwp
  end.
  apply wp_returns in Hwp as ([] & w' & -> & [[_ Hbuf] _]); done.
Qed.

Lemma decode_ca_pem key_pem crt_pem k c :
  fst <$> PEM_decode_PrivateKey key_pem = Some k →
  fst <$> PEM_decode_X509 crt_pem = Some c →
  decode_ca key_pem crt_pem = Some (k, c).
Proof.
  intros Hk Hc. unfold decode_ca. cbv zeta.
  match goal with
  | |- context [load_ca ?kp ?a ?cp ?b ?w] =>
      destruct (load_ca_returns w kp 1 cp 2 0%N 0%N) as (r & w' & -> & Hpost);
        [done..|];
      assert (ca_input_of w kp cp = Loaded c k) as Hin
  end.
  { unfold ca_input_of. cbn [files].
    rewrite lookup_insert_ne, lookup_insert_eq by done.
    destruct (PEM_decode_X509 crt_pem) as [[c' ?]|]; [|done].
    injection Hc as ->. rewrite lookup_insert_eq.
    destruct (PEM_decode_PrivateKey key_pem) as [[k' ?]|]; [|done].
    by injection Hk as ->. }
  rewrite Hin in Hpost. destruct Hpost as (-> & -> & ->). done.
Qed.

(** C9: key_to_pem hands PEM_write_bio_PrivateKey no cipher, no
    passphrase and no callback, and that is its only write, so the
    [*key_size] bytes it leaves at [*key_bytes] are the text of the
    private key in the clear. *)
Theorem key_to_pem_plaintext w key ra k bytes size vb vs :
  mem w !! key = Some (OPkey (Npos ra)) → mem w !! ra = Some (ORsa k) →
  mem w !! bytes = Some (OCell vb) → mem w !! size = Some (OCell vs) → bytes ≠ size →
  Z.of_nat (length (PEM_encode_PrivateKey k)) ≤ INT_MAX →
  ∃ w' bio buf,
    key_to_pem (Npos key) (Npos bytes) (Npos size) w = Returns tt w' ∧
    calls w' = calls w ++
      [Enter Fkey_to_pem; EvBIO_new BIO_s_mem;
       EvPEM_write_bio_PrivateKey bio (Npos key) None None 0 NULL NULL;
       EvBIO_pending bio; EvMalloc (N.of_nat (S (length (PEM_encode_PrivateKey k))));
       EvBIO_read bio buf (Z.of_nat (length (PEM_encode_PrivateKey k)));
       EvBIO_free_all bio] ∧
    out w' size = N.of_nat (length (PEM_encode_PrivateKey k)) ∧
    read_buf w' (out w' bytes) (out w' size) = Some (private_key_pem k None None 0) ∧
    private_key_pem k None None 0 = PEM_encode_PrivateKey k.
Proof.
  intros Hkey Hra Hb Hs Hne Hlen.
  pose proof (key_to_pem_spec w key ra k bytes size vb vs Hkey Hra Hb Hs Hne Hlen) as Hwp.
  apply wp_returns in Hwp as ([] & w' & Hrun & [Hsize Hbuf] & bio & buf & Hcalls).
  by exists w', bio, buf.
Qed.

End round_trip.

(** A caller of key_to_pem: the CA key at address 1 (its RSA at 2) and
    the variables [key_bytes] (3) and [key_size] (4). *)
Definition w_key : world :=
  World (<[1%positive := OPkey 2%N]> (<[2%positive := ORsa ca_rsa]>
        (<[3%positive := OCell 0]> (<[4%positive := OCell 0]> ∅)))) ∅ [] [] [].

Lemma key_to_pem_plaintext_witness :
  ∃ w' bio buf,
    key_to_pem (H := example_codec) 1%N 3%N 4%N w_key = Returns tt w' ∧
    calls w' = calls w_key ++
      [Enter Fkey_to_pem; EvBIO_new BIO_s_mem;
       EvPEM_write_bio_PrivateKey bio 1%N None None 0 NULL NULL;
       EvBIO_pending bio;
       EvMalloc (N.of_nat (S (length (PEM_encode_PrivateKey (PemCodec := example_codec) ca_rsa))));
       EvBIO_read bio buf
         (Z.of_nat (length (PEM_encode_PrivateKey (PemCodec := example_codec) ca_rsa)));
       EvBIO_free_all bio] ∧
    out w' 4 = N.of_nat (length (PEM_encode_PrivateKey (PemCodec := example_codec) ca_rsa)) ∧
    read_buf w' (out w' 3) (out w' 4)
      = Some (private_key_pem (H := example_codec) ca_rsa None None 0) ∧
    private_key_pem (H := example_codec) ca_rsa None None 0
      = PEM_encode_PrivateKey (PemCodec := example_codec) ca_rsa.
Proof.
  apply (key_to_pem_plaintext (H := example_codec) w_key 1 2 ca_rsa 3 4 0%N 0%N);
    [reflexivity | reflexivity | reflexivity | reflexivity | done | by vm_compute].
Defined.

(** * OpenSSL's PEM text format on symbolic certificates and keys *)

(** ** Bytes as numbers *)

Definition Z_of_byte (b : byte) : Z := Z.of_N (Byte.to_N b).
Definition byte_of_Z (z : Z) : byte := default x00 (Byte.of_N (Z.to_N z)).

Lemma Z_of_byte_range b : 0 ≤ Z_of_byte b < 256.
Proof. unfold Z_of_byte. pose proof (Byte.to_N_bounded b). lia. Qed.

Lemma byte_of_Z_of_byte b : byte_of_Z (Z_of_byte b) = b.
Proof. unfold byte_of_Z, Z_of_byte. by rewrite N2Z.id, Byte.of_to_N. Qed.

Lemma Z_of_byte_of_Z z : 0 ≤ z < 256 → Z_of_byte (byte_of_Z z) = z.
Proof.
  intros Hz. unfold byte_of_Z, Z_of_byte.
  destruct (Byte.of_N (Z.to_N z)) as [b|] eqn:E.
  - apply Byte.to_of_N in E. cbn. lia.
  - apply Byte.of_N_None_iff in E. lia.
Qed.

(** Big-endian numbers of [k] bytes. *)
Fixpoint be_bytes (k : nat) (u : Z) : list byte :=
  match k with
  | O => []
  | S k => be_bytes k (u / 256) ++ [byte_of_Z (u mod 256)]
  end.

Definition be_value (bs : list byte) : Z :=
  fold_left (λ acc b, acc * 256 + Z_of_byte b) bs 0.

(** The number of bytes an unsigned number takes (one for 0). *)
Definition byte_len (u : Z) : nat := Z.to_nat (Z.log2 u / 8 + 1).

Lemma length_be_bytes k u : length (be_bytes k u) = k.
Proof. revert u. induction k; intros u; cbn; [done|]. rewrite length_app, IHk. cbn. lia. Qed.

Lemma be_value_snoc bs b : be_value (bs ++ [b]) = be_value bs * 256 + Z_of_byte b.
Proof. unfold be_value. by rewrite fold_left_app. Qed.

Lemma be_value_bytes k u : 0 ≤ u < 256 ^ Z.of_nat k → be_value (be_bytes k u) = u.
Proof.
  revert u. induction k as [|k IH]; intros u Hu.
  - cbn in *. unfold be_value. cbn. lia.
  - cbn [be_bytes]. rewrite be_value_snoc, Z_of_byte_of_Z by (apply Z.mod_pos_bound; lia).
    rewrite IH.
    + pose proof (Z.div_mod u 256). lia.
    + rewrite Nat2Z.inj_succ, Z.pow_succ_r in Hu by lia.
      split; [apply Z.div_pos; lia | apply Z.div_lt_upper_bound; lia].
Qed.

Lemma be_value_range bs : 0 ≤ be_value bs < 256 ^ Z.of_nat (length bs).
Proof.
  induction bs as [|b bs IH] using rev_ind.
  - unfold be_value. cbn. lia.
  - rewrite be_value_snoc, length_app. cbn [length].
    replace (Z.of_nat (length bs + 1)) with (Z.succ (Z.of_nat (length bs))) by lia.
    rewrite Z.pow_succ_r by lia. pose proof (Z_of_byte_range b).
    generalize dependent (256 ^ Z.of_nat (length bs)). intros; lia.
Qed.

Lemma byte_len_spec u : 0 ≤ u → u < 256 ^ Z.of_nat (byte_len u).
Proof.
  intros Hu. unfold byte_len.
  assert (0 ≤ Z.log2 u / 8) by (apply Z.div_pos; [apply Z.log2_nonneg | lia]).
  rewrite Z2Nat.id by lia.
  change 256 with (2 ^ 8). rewrite <- Z.pow_mul_r by lia.
  destruct (decide (u = 0)) as [->|]; [reflexivity|].
  apply Z.log2_lt_pow2; [lia|].
  pose proof (Z.div_mod (Z.log2 u) 8). pose proof (Z.mod_pos_bound (Z.log2 u) 8). lia.
Qed.

Lemma byte_len_pos u : (0 < byte_len u)%nat.
Proof.
  unfold byte_len.
  assert (0 ≤ Z.log2 u / 8) by (apply Z.div_pos; [apply Z.log2_nonneg | lia]). lia.
Qed.

Lemma byte_len_small u : 0 ≤ u < 2 ^ 32 → (byte_len u ≤ 4)%nat.
Proof.
  intros Hu. unfold byte_len.
  destruct (decide (u = 0)) as [->|]; [vm_compute; lia|].
  assert (Z.log2 u < 32) by (apply Z.log2_lt_pow2; lia).
  pose proof (Z.log2_nonneg u).
  assert (Z.log2 u / 8 < 4) by (apply Z.div_lt_upper_bound; lia).
  assert (0 ≤ Z.log2 u / 8) by (apply Z.div_pos; lia). lia.
Qed.

(** ** Base64 (RFC 4648, the alphabet A-Z a-z 0-9 + / with = padding) *)

Definition b64_char (s : Z) : byte :=
  if s <? 26 then byte_of_Z (65 + s)
  else if s <? 52 then byte_of_Z (97 + (s - 26))
  else if s <? 62 then byte_of_Z (48 + (s - 52))
  else if s =? 62 then x2b else x2f.

Definition b64_value (c : byte) : option Z :=
  let n := Z_of_byte c in
  if (65 <=? n) && (n <=? 90) then Some (n - 65)
  else if (97 <=? n) && (n <=? 122) then Some (n - 97 + 26)
  else if (48 <=? n) && (n <=? 57) then Some (n - 48 + 52)
  else if n =? 43 then Some 62
  else if n =? 47 then Some 63
  else None.

(** Three bytes as four characters, and back. *)
Definition b64_group (a b c : byte) : list byte :=
  let n := Z_of_byte a * 65536 + Z_of_byte b * 256 + Z_of_byte c in
  [b64_char (n / 262144); b64_char (n / 4096 mod 64);
   b64_char (n / 64 mod 64); b64_char (n mod 64)].

Definition b64_quad (c1 c2 c3 c4 : byte) : option (list byte) :=
  s1 ← b64_value c1; s2 ← b64_value c2; s3 ← b64_value c3; s4 ← b64_value c4;
  let n := ((s1 * 64 + s2) * 64 + s3) * 64 + s4 in
  Some [byte_of_Z (n / 65536); byte_of_Z (n / 256 mod 256); byte_of_Z (n mod 256)].

Fixpoint b64_encode (bs : list byte) : list byte :=
  match bs with
  | [] => []
  | [a] => take 2 (b64_group a x00 x00) ++ [x3d; x3d]
  | [a; b] => take 3 (b64_group a b x00) ++ [x3d]
  | a :: b :: c :: rest => b64_group a b c ++ b64_encode rest
  end.

(** Padding is accepted in the last group only. *)
Fixpoint b64_decode (cs : list byte) : option (list byte) :=
  match cs with
  | [] => Some []
  | c1 :: c2 :: c3 :: c4 :: rest =>
      if decide (c4 = x3d) then
        match rest with
        | [] =>
            if decide (c3 = x3d) then take 1 <$> b64_quad c1 c2 x41 x41
            else take 2 <$> b64_quad c1 c2 c3 x41
        | _ => None
        end
      else
        q ← b64_quad c1 c2 c3 c4;
        r ← b64_decode rest;
        Some (q ++ r)
  | _ => None
  end.

(** A character of a PEM body: no line feed, no dash. *)
Definition pem_char (c : byte) : Prop := c ≠ x0a ∧ c ≠ x2d.

Lemma b64_char_spec s :
  0 ≤ s < 64 →
  b64_value (b64_char s) = Some s ∧ b64_char s ≠ x3d ∧ pem_char (b64_char s).
Proof.
  intros Hs.
  assert (Forall (λ s, b64_value (b64_char s) = Some s ∧ b64_char s ≠ x3d ∧
                       pem_char (b64_char s)) (seqZ 0 64)) as Hall.
  { vm_compute seqZ. unfold pem_char. repeat (constructor; [by vm_compute|]). constructor. }
  rewrite Forall_forall in Hall. apply Hall, elem_of_seqZ. lia.
Qed.

Lemma b64_sextets a b c :
  0 ≤ a < 256 → 0 ≤ b < 256 → 0 ≤ c < 256 →
  let n := a * 65536 + b * 256 + c in
  (0 ≤ n / 262144 < 64) ∧ (0 ≤ n / 4096 mod 64 < 64) ∧
  (0 ≤ n / 64 mod 64 < 64) ∧ (0 ≤ n mod 64 < 64) ∧
  (((n / 262144 * 64 + n / 4096 mod 64) * 64 + n / 64 mod 64) * 64 + n mod 64 = n) ∧
  n / 65536 = a ∧ n / 256 mod 256 = b ∧ n mod 256 = c.
Proof. intros Ha Hb Hc n. subst n. Z.div_mod_to_equations. lia. Qed.

(** The test vectors of RFC 4648, section 10. *)
Example b64_rfc4648 :
  let b64 s := String.string_of_list_byte (b64_encode (String.list_byte_of_string s)) in
  b64 "" = "" ∧ b64 "f" = "Zg==" ∧ b64 "fo" = "Zm8=" ∧ b64 "foo" = "Zm9v" ∧
  b64 "foob" = "Zm9vYg==" ∧ b64 "fooba" = "Zm9vYmE=" ∧ b64 "foobar" = "Zm9vYmFy" ∧
  b64_decode (String.list_byte_of_string "Zm9vYmE=")
    = Some (String.list_byte_of_string "fooba") ∧
  b64_decode (String.list_byte_of_string "Zg==Zm9v") = None ∧
  b64_decode (String.list_byte_of_string "Zm9") = None.
Proof. repeat split; by vm_compute. Qed.

Lemma b64_quad_chars s1 s2 s3 s4 :
  0 ≤ s1 < 64 → 0 ≤ s2 < 64 → 0 ≤ s3 < 64 → 0 ≤ s4 < 64 →
  b64_quad (b64_char s1) (b64_char s2) (b64_char s3) (b64_char s4) =
    let n := ((s1 * 64 + s2) * 64 + s3) * 64 + s4 in
    Some [byte_of_Z (n / 65536); byte_of_Z (n / 256 mod 256); byte_of_Z (n mod 256)].
Proof.
  intros H1 H2 H3 H4. unfold b64_quad.
  rewrite (proj1 (b64_char_spec s1 H1)), (proj1 (b64_char_spec s2 H2)).
  by rewrite (proj1 (b64_char_spec s3 H3)), (proj1 (b64_char_spec s4 H4)).
Qed.

Lemma b64_quad_group a b c :
  b64_quad (b64_char ((Z_of_byte a * 65536 + Z_of_byte b * 256 + Z_of_byte c) / 262144))
           (b64_char ((Z_of_byte a * 65536 + Z_of_byte b * 256 + Z_of_byte c) / 4096 mod 64))
           (b64_char ((Z_of_byte a * 65536 + Z_of_byte b * 256 + Z_of_byte c) / 64 mod 64))
           (b64_char ((Z_of_byte a * 65536 + Z_of_byte b * 256 + Z_of_byte c) mod 64))
    = Some [a; b; c].
Proof.
  destruct (b64_sextets _ _ _ (Z_of_byte_range a) (Z_of_byte_range b) (Z_of_byte_range c))
    as (H1 & H2 & H3 & H4 & Hn & Ha & Hb & Hc).
  rewrite b64_quad_chars by done. cbv zeta. rewrite Hn, Ha, Hb, Hc.
  by rewrite !byte_of_Z_of_byte.
Qed.

Lemma b64_pad2 a :
  0 ≤ a < 256 →
  let n := a * 65536 in
  (0 ≤ n / 262144 < 64) ∧ (0 ≤ n / 4096 mod 64 < 64) ∧
  ((n / 262144 * 64 + n / 4096 mod 64) * 64 * 64) / 65536 = a.
Proof. intros Ha n. subst n. Z.div_mod_to_equations. lia. Qed.

Lemma b64_pad1 a b :
  0 ≤ a < 256 → 0 ≤ b < 256 →
  let n := a * 65536 + b * 256 in
  (0 ≤ n / 262144 < 64) ∧ (0 ≤ n / 4096 mod 64 < 64) ∧ (0 ≤ n / 64 mod 64 < 64) ∧
  (((n / 262144 * 64 + n / 4096 mod 64) * 64 + n / 64 mod 64) * 64) / 65536 = a ∧
  (((n / 262144 * 64 + n / 4096 mod 64) * 64 + n / 64 mod 64) * 64) / 256 mod 256 = b.
Proof. intros Ha Hb n. subst n. Z.div_mod_to_equations. lia. Qed.

Lemma b64_decode_encode bs : b64_decode (b64_encode bs) = Some bs.
Proof.
  induction bs as [bs IH] using (induction_ltof1 _ length). unfold ltof in IH.
  destruct bs as [|a [|b [|c rest]]].
  - done.
  - cbn [b64_encode b64_group take app b64_decode].
    change (Z_of_byte x00) with 0. rewrite Z.mul_0_l, !Z.add_0_r.
    destruct (b64_pad2 _ (Z_of_byte_range a)) as (H1 & H2 & Ha). cbv zeta in *.
    rewrite !decide_True by done.
    change x41 with (b64_char 0). rewrite b64_quad_chars by (done || lia). cbv zeta.
    cbn [fmap option_fmap option_map take]. rewrite !Z.add_0_r, Ha.
    by rewrite byte_of_Z_of_byte.
  - cbn [b64_encode b64_group take app b64_decode].
    change (Z_of_byte x00) with 0. rewrite !Z.add_0_r.
    destruct (b64_pad1 _ _ (Z_of_byte_range a) (Z_of_byte_range b)) as (H1 & H2 & H3 & Ha & Hb).
    cbv zeta in *.
    rewrite decide_True by done.
    rewrite decide_False by (apply (b64_char_spec _ H3)).
    change x41 with (b64_char 0). rewrite b64_quad_chars by (done || lia). cbv zeta.
    cbn [fmap option_fmap option_map take]. rewrite !Z.add_0_r, Ha, Hb.
    by rewrite !byte_of_Z_of_byte.
  - cbn [b64_encode b64_group app b64_decode].
    destruct (b64_sextets _ _ _ (Z_of_byte_range a) (Z_of_byte_range b) (Z_of_byte_range c))
      as (H1 & H2 & H3 & H4 & _).
    cbv zeta in *.
    rewrite decide_False by (apply (b64_char_spec _ H4)).
    rewrite b64_quad_group. cbn [mbind option_bind].
    rewrite IH by (cbn [length]; lia). done.
Qed.

(** The characters of an encoding are characters of a PEM body. *)
Lemma b64_encode_chars bs : Forall pem_char (b64_encode bs).
Proof.
  induction bs as [bs IH] using (induction_ltof1 _ length). unfold ltof in IH.
  assert (pem_char x3d) as Hpad by (split; discriminate).
  destruct bs as [|a [|b [|c rest]]].
  - constructor.
  - cbn [b64_encode b64_group take app].
    change (Z_of_byte x00) with 0. rewrite Z.mul_0_l, !Z.add_0_r.
    destruct (b64_pad2 _ (Z_of_byte_range a)) as (H1 & H2 & _). cbv zeta in *.
    repeat constructor; try done; by apply b64_char_spec.
  - cbn [b64_encode b64_group take app].
    change (Z_of_byte x00) with 0. rewrite !Z.add_0_r.
    destruct (b64_pad1 _ _ (Z_of_byte_range a) (Z_of_byte_range b)) as (H1 & H2 & H3 & _).
    cbv zeta in *.
    repeat constructor; try done; by apply b64_char_spec.
  - cbn [b64_encode b64_group app].
    destruct (b64_sextets _ _ _ (Z_of_byte_range a) (Z_of_byte_range b) (Z_of_byte_range c))
      as (H1 & H2 & H3 & H4 & _).
    cbv zeta in *.
    repeat (constructor; [by apply b64_char_spec|]).
    apply IH. cbn [length]. lia.
Qed.

Lemma length_b64_encode bs : (length bs ≤ length (b64_encode bs))%nat.
Proof.
  induction bs as [bs IH] using (induction_ltof1 _ length). unfold ltof in IH.
  destruct bs as [|a [|b [|c rest]]]; cbn [b64_encode b64_group take app length]; try lia.
  specialize (IH rest). cbn [length] in IH. lia.
Qed.

(** ** The PEM armour (RFC 7468, as PEM_write_bio lays it out)

    A line "-----BEGIN label-----", the Base64 text of the DER encoding
    in lines of 64 characters, and a line "-----END label-----"; every
    line ends with a line feed. *)

Definition begin_line (label : string) : list byte :=
  String.list_byte_of_string ("-----BEGIN " +:+ label +:+ "-----").

Definition end_line (label : string) : list byte :=
  String.list_byte_of_string ("-----END " +:+ label +:+ "-----").

Fixpoint lines64 (fuel : nat) (cs : list byte) : list (list byte) :=
  match fuel with
  | O => []
  | S fuel =>
      match cs with
      | [] => []
      | _ => take 64 cs :: lines64 fuel (drop 64 cs)
      end
  end.

Definition unlines (ls : list (list byte)) : list byte :=
  concat ((λ l, l ++ [x0a]) <$> ls).

Definition pem_encode (label : string) (der : list byte) : list byte :=
  let body := b64_encode der in
  begin_line label ++ [x0a] ++ unlines (lines64 (length body) body) ++ end_line label ++ [x0a].

(** The next line of a text, without its line feed, and what follows;
    the last line may lack the line feed. *)
Fixpoint read_line (l : list byte) : option (list byte * list byte) :=
  match l with
  | [] => None
  | c :: l =>
      if decide (c = x0a) then Some ([], l)
      else
        match read_line l with
        | Some (ln, r) => Some (c :: ln, r)
        | None => Some ([c], [])
        end
  end.

(** The lines of a body up to the END line, joined. *)
Fixpoint pem_body (fuel : nat) (label : string) (l acc : list byte)
    : option (list byte * list byte) :=
  match fuel with
  | O => None
  | S fuel =>
      '(ln, r) ← read_line l;
      if decide (ln = end_line label) then Some (acc, r)
      else pem_body fuel label r (acc ++ ln)
  end.

(** PEM_read_bio skips lines until the BEGIN line of the label it looks
    for, and decodes the body that follows. *)
Fixpoint pem_find (fuel : nat) (label : string) (l : list byte)
    : option (list byte * list byte) :=
  match fuel with
  | O => None
  | S fuel =>
      '(ln, r) ← read_line l;
      if decide (ln = begin_line label) then pem_body (S (length r)) label r []
      else pem_find fuel label r
  end.

Definition pem_decode (label : string) (l : list byte) : option (list byte * list byte) :=
  '(body, rest) ← pem_find (S (length l)) label l;
  der ← b64_decode body;
  Some (der, rest).

Lemma read_line_app ln r : x0a ∉ ln → read_line (ln ++ x0a :: r) = Some (ln, r).
Proof.
  induction ln as [|c ln IH]; intros Hnl; cbn.
  - done.
  - apply not_elem_of_cons in Hnl as [Hc Hnl].
    rewrite decide_False by done. by rewrite IH.
Qed.

Lemma lines64_concat fuel cs : (length cs ≤ fuel)%nat → concat (lines64 fuel cs) = cs.
Proof.
  revert cs. induction fuel as [|fuel IH]; intros cs Hlen.
  - destruct cs; [done | cbn in Hlen; lia].
  - destruct cs as [|c cs]; [done|].
    cbn [lines64 concat]. rewrite IH; [apply take_drop|].
    rewrite length_drop. cbn [length] in *. lia.
Qed.

Lemma lines64_chars fuel cs :
  Forall pem_char cs → Forall (λ ln, Forall pem_char ln ∧ ln ≠ []) (lines64 fuel cs).
Proof.
  revert cs. induction fuel as [|fuel IH]; intros cs Hcs; [constructor|].
  destruct cs as [|c cs]; [constructor|].
  cbn [lines64]. constructor.
  - split; [by apply Forall_take | done].
  - by apply IH, Forall_drop.
Qed.

Lemma length_unlines ls : (length (concat ls) ≤ length (unlines ls))%nat.
Proof.
  unfold unlines. induction ls as [|l ls IH]; [done|].
  cbn. rewrite !length_app. cbn. lia.
Qed.

Lemma length_unlines_lines ls : (length ls ≤ length (unlines ls))%nat.
Proof.
  unfold unlines. induction ls as [|l ls IH]; [done|].
  cbn. rewrite !length_app. cbn. lia.
Qed.

(** A label whose two lines can be told from the body: no line feed in
    them, and the END line starts with a dash. *)
Definition pem_label (label : string) : Prop :=
  (x0a ∉ begin_line label) ∧ (x0a ∉ end_line label) ∧ head (end_line label) = Some x2d.

Lemma pem_body_lines label ls acc fuel r :
  pem_label label →
  Forall (λ ln, Forall pem_char ln ∧ ln ≠ []) ls → (length ls < fuel)%nat →
  pem_body fuel label (unlines ls ++ end_line label ++ x0a :: r) acc
    = Some (acc ++ concat ls, r).
Proof.
  intros (_ & Hend & Hdash). revert acc fuel.
  induction ls as [|ln ls IH]; intros acc fuel Hls Hfuel.
  - destruct fuel as [|fuel]; [cbn in Hfuel; lia|].
    cbn [pem_body unlines fmap list_fmap concat app].
    rewrite read_line_app by done. cbn [mbind option_bind].
    rewrite decide_True by done. by rewrite app_nil_r.
  - destruct fuel as [|fuel]; [cbn in Hfuel; lia|].
    apply Forall_cons in Hls as [[Hln Hne] Hls].
    unfold unlines. cbn [pem_body fmap list_fmap concat].
    rewrite <- !app_assoc. cbn [app].
    rewrite read_line_app.
    2:{ intros Hin. rewrite Forall_forall in Hln. by destruct (Hln _ Hin). }
    cbn [mbind option_bind].
    rewrite decide_False.
    2:{ intros ->. destruct (end_line label) as [|c t]; [done|].
        injection Hdash as ->. apply Forall_cons in Hln as [[_ Hc] _]. done. }
    fold (unlines ls). rewrite IH by (done || (cbn [length] in Hfuel; lia)).
    by rewrite <- app_assoc.
Qed.

Lemma pem_decode_encode label der rest :
  pem_label label →
  pem_decode label (pem_encode label der ++ rest) = Some (der, rest).
Proof.
  intros Hlabel. unfold pem_decode, pem_encode. cbv zeta.
  cbn [pem_find]. rewrite <- !app_assoc. cbn [app].
  rewrite read_line_app by apply Hlabel. cbn [mbind option_bind].
  rewrite decide_True by done.
  rewrite pem_body_lines; [| done | apply lines64_chars, b64_encode_chars |].
  2:{ rewrite !length_app.
      pose proof (length_unlines_lines (lines64 (length (b64_encode der)) (b64_encode der))).
      lia. }
  cbn [app mbind option_bind]. rewrite lines64_concat by done.
  by rewrite b64_decode_encode.
Qed.

Lemma length_pem_encode label der : (length der ≤ length (pem_encode label der))%nat.
Proof.
  unfold pem_encode. cbv zeta. rewrite !length_app.
  pose proof (length_unlines (lines64 (length (b64_encode der)) (b64_encode der))) as Hl.
  rewrite lines64_concat in Hl by done.
  pose proof (length_b64_encode der). lia.
Qed.

Example pem_encode_lines :
  let man := String.list_byte_of_string "Man" in
  pem_encode "CERTIFICATE" man =
    String.list_byte_of_string "-----BEGIN CERTIFICATE-----" ++ [x0a] ++
    String.list_byte_of_string "TWFu" ++ [x0a] ++
    String.list_byte_of_string "-----END CERTIFICATE-----" ++ [x0a] ∧
  length <$> lines64 100 (replicate 100 x41) = [64; 36]%nat ∧
  pem_decode "CERTIFICATE"
    (String.list_byte_of_string "junk" ++ [x0a] ++ pem_encode "CERTIFICATE" man ++ [x41])
    = Some (man, [x41]) ∧
  pem_decode "CERTIFICATE"
    (String.list_byte_of_string "-----BEGIN CERTIFICATE-----" ++ [x0a] ++
     String.list_byte_of_string "TWFu" ++ [x0a] ++
     String.list_byte_of_string "-----END CERTIFICATE-----")
    = Some (man, []) ∧
  pem_decode "PRIVATE KEY" (pem_encode "CERTIFICATE" man) = None ∧
  pem_decode "CERTIFICATE" (String.list_byte_of_string "not a certificate") = None.
Proof. repeat split; by vm_compute. Qed.

(** ** DER (X.690): tag, length, value

    The certificates and keys of the model are symbolic, and so is their
    DER encoding: a SEQUENCE per record with the fields in the order of
    the record, INTEGER for numbers, UTF8String for texts, an OBJECT
    IDENTIFIER for the digest. *)

(** Texts of up to 4 GiB: their length takes at most four bytes. *)
Definition small (l : list byte) : Prop := Z.of_nat (length l) < 2 ^ 32.

Definition enc_len (n : nat) : list byte :=
  let z := Z.of_nat n in
  if z <? 128 then [byte_of_Z z]
  else byte_of_Z (128 + Z.of_nat (byte_len z)) :: be_bytes (byte_len z) z.

Definition dec_len (l : list byte) : option (nat * list byte) :=
  match l with
  | [] => None
  | b :: r =>
      let v := Z_of_byte b in
      if v <? 128 then Some (Z.to_nat v, r)
      else
        let k := Z.to_nat (v - 128) in
        if bool_decide (k ≤ length r)%nat
        then Some (Z.to_nat (be_value (take k r)), drop k r)
        else None
  end.

Definition enc_tlv (tag : byte) (content : list byte) : list byte :=
  tag :: enc_len (length content) ++ content.

Definition dec_tlv (tag : byte) (l : list byte) : option (list byte * list byte) :=
  match l with
  | [] => None
  | t :: r =>
      if decide (t = tag) then
        '(n, r) ← dec_len r;
        if bool_decide (n ≤ length r)%nat then Some (take n r, drop n r) else None
      else None
  end.

Lemma dec_len_enc n rest :
  Z.of_nat n < 2 ^ 32 → dec_len (enc_len n ++ rest) = Some (n, rest).
Proof.
  intros Hn. unfold enc_len. cbv zeta.
  destruct (Z.of_nat n <? 128) eqn:E.
  - apply Z.ltb_lt in E. cbn [app dec_len]. cbv zeta.
    rewrite Z_of_byte_of_Z by lia. rewrite (proj2 (Z.ltb_lt _ _)) by done.
    by rewrite Nat2Z.id.
  - apply Z.ltb_ge in E. cbn [app dec_len]. cbv zeta.
    pose proof (byte_len_small (Z.of_nat n)) as Hk.
    rewrite Z_of_byte_of_Z by lia. rewrite (proj2 (Z.ltb_ge _ _)) by lia.
    replace (128 + Z.of_nat (byte_len (Z.of_nat n)) - 128) with (Z.of_nat (byte_len (Z.of_nat n)))
      by lia.
    rewrite Nat2Z.id.
    rewrite bool_decide_eq_true_2 by (rewrite length_app, length_be_bytes; lia).
    rewrite take_app_length', drop_app_length' by (by rewrite length_be_bytes).
    rewrite be_value_bytes by (split; [lia | apply byte_len_spec; lia]).
    by rewrite Nat2Z.id.
Qed.

Lemma dec_tlv_enc tag content rest :
  small content → dec_tlv tag (enc_tlv tag content ++ rest) = Some (content, rest).
Proof.
  intros Hs. unfold enc_tlv. cbn [app dec_tlv]. rewrite decide_True by done.
  rewrite <- app_assoc, dec_len_enc by done. cbn [mbind option_bind].
  rewrite bool_decide_eq_true_2 by (rewrite length_app; lia).
  by rewrite take_app_length, drop_app_length.
Qed.

Lemma small_app l1 l2 : small (l1 ++ l2) → small l1 ∧ small l2.
Proof. unfold small. rewrite length_app. lia. Qed.

Lemma small_tlv tag content : small (enc_tlv tag content) → small content.
Proof. unfold small, enc_tlv. cbn [length]. rewrite length_app. lia. Qed.

(** INTEGER: two's complement, big-endian, in the least number of bytes. *)
Definition int_len (z : Z) : nat := byte_len (2 * (if z <? 0 then - z - 1 else z)).

Definition enc_int (z : Z) : list byte :=
  let k := int_len z in enc_tlv x02 (be_bytes k (z mod 256 ^ Z.of_nat k)).

Definition dec_int (l : list byte) : option (Z * list byte) :=
  '(c, r) ← dec_tlv x02 l;
  if decide (c = []) then None
  else
    let u := be_value c in
    let m := 256 ^ Z.of_nat (length c) in
    Some (if 2 * u <? m then u else u - m, r).

Lemma dec_int_enc z rest : small (enc_int z) → dec_int (enc_int z ++ rest) = Some (z, rest).
Proof.
  intros Hs. unfold dec_int, enc_int in *. cbv zeta in *.
  rewrite dec_tlv_enc by (by apply small_tlv in Hs). cbn [mbind option_bind]. clear Hs.
  assert (2 * (if z <? 0 then - z - 1 else z) < 256 ^ Z.of_nat (int_len z)) as Hk
    by (apply byte_len_spec; destruct (z <? 0) eqn:E;
        [apply Z.ltb_lt in E | apply Z.ltb_ge in E]; lia).
  assert (int_len z ≠ 0)%nat as Hk0
    by (pose proof (byte_len_pos (2 * (if z <? 0 then - z - 1 else z)));
        unfold int_len; lia).
  generalize dependent (int_len z). intros k Hk Hk0.
  rewrite decide_False by (intros E; apply (f_equal length) in E;
                           rewrite length_be_bytes in E; done).
  rewrite length_be_bytes.
  destruct k as [|k]; [done|]. clear Hk0.
  rewrite Nat2Z.inj_succ, Z.pow_succ_r in * by lia.
  assert (0 < 256 ^ Z.of_nat k) as Hpos by (apply Z.pow_pos_nonneg; lia).
  rewrite be_value_bytes
    by (rewrite Nat2Z.inj_succ, Z.pow_succ_r by lia; apply Z.mod_pos_bound; lia).
  f_equal. f_equal.
  generalize dependent (256 ^ Z.of_nat k). intros p Hk Hpos.
  destruct (z <? 0) eqn:E; [apply Z.ltb_lt in E | apply Z.ltb_ge in E].
  - assert (z mod (256 * p) = z + 256 * p) as ->.
    { symmetry. apply (Z.mod_unique _ _ (-1)); lia. }
    rewrite (proj2 (Z.ltb_ge _ _)) by lia. lia.
  - rewrite Z.mod_small by lia. by rewrite (proj2 (Z.ltb_lt _ _)) by lia.
Qed.

(** Numbers of the model that are never negative. *)
Definition enc_nat (n : N) : list byte := enc_int (Z.of_N n).

Definition dec_nat (l : list byte) : option (N * list byte) :=
  '(z, r) ← dec_int l;
  if 0 <=? z then Some (Z.to_N z, r) else None.

Lemma dec_nat_enc n rest : small (enc_nat n) → dec_nat (enc_nat n ++ rest) = Some (n, rest).
Proof.
  intros Hs. unfold dec_nat, enc_nat in *. rewrite dec_int_enc by done.
  cbn [mbind option_bind]. rewrite (proj2 (Z.leb_le _ _)) by lia. by rewrite N2Z.id.
Qed.

(** UTF8String. *)
Definition enc_str (s : string) : list byte := enc_tlv x0c (String.list_byte_of_string s).

Definition dec_str (l : list byte) : option (string * list byte) :=
  '(c, r) ← dec_tlv x0c l; Some (String.string_of_list_byte c, r).

Lemma dec_str_enc s rest : small (enc_str s) → dec_str (enc_str s ++ rest) = Some (s, rest).
Proof.
  intros Hs. unfold dec_str, enc_str in *.
  rewrite dec_tlv_enc by (by apply small_tlv in Hs). cbn [mbind option_bind].
  by rewrite String.string_of_list_byte_of_string.
Qed.

(** The digests by their object identifiers (RFC 8017, RFC 3279, NIST). *)
Definition digest_oid (d : digest) : list byte :=
  match d with
  | EVP_md5 => [x2a; x86; x48; x86; xf7; x0d; x02; x05]
  | EVP_sha1 => [x2b; x0e; x03; x02; x1a]
  | EVP_sha256 => [x60; x86; x48; x01; x65; x03; x04; x02; x01]
  | EVP_sha512 => [x60; x86; x48; x01; x65; x03; x04; x02; x03]
  end.

Definition enc_digest (d : digest) : list byte := enc_tlv x06 (digest_oid d).

Definition dec_digest (l : list byte) : option (digest * list byte) :=
  '(c, r) ← dec_tlv x06 l;
  d ← list_find (λ d, digest_oid d = c) [EVP_md5; EVP_sha1; EVP_sha256; EVP_sha512];
  Some (d.2, r).

Lemma dec_digest_enc d rest : dec_digest (enc_digest d ++ rest) = Some (d, rest).
Proof.
  unfold dec_digest, enc_digest.
  rewrite dec_tlv_enc by (unfold small; destruct d; cbn; lia).
  by destruct d.
Qed.

Example enc_int_bytes :
  enc_int 127 = [x02; x01; x7f] ∧ enc_int 128 = [x02; x02; x00; x80] ∧
  enc_int (-1) = [x02; x01; xff] ∧ enc_int (-129) = [x02; x02; xff; x7f] ∧
  enc_int 65537 = [x02; x03; x01; x00; x01] ∧
  enc_len 300 = [x82; x01; x2c].
Proof. repeat split; by vm_compute. Qed.

Ltac small_tac :=
  unfold small, enc_tlv in *; cbn [length] in *; rewrite ?length_app in *; lia.

Ltac der_field lem := rewrite lem by small_tac; cbn [mbind option_bind].

(** A distinguished name: a SEQUENCE of attributes, each a SEQUENCE of
    its type and its value. *)
Definition enc_attr (a : string * string) : list byte :=
  enc_tlv x30 (enc_str a.1 ++ enc_str a.2).

Definition dec_attr (l : list byte) : option ((string * string) * list byte) :=
  '(c, r) ← dec_tlv x30 l;
  '(t, c) ← dec_str c;
  '(v, c) ← dec_str c;
  if decide (c = []) then Some ((t, v), r) else None.

Definition enc_name (nm : x509_name) : list byte :=
  enc_tlv x30 (concat (enc_attr <$> nm)).

Fixpoint dec_attrs (fuel : nat) (l : list byte) : option x509_name :=
  match fuel with
  | O => None
  | S fuel =>
      if decide (l = []) then Some []
      else '(a, r) ← dec_attr l; nm ← dec_attrs fuel r; Some (a :: nm)
  end.

Definition dec_name (l : list byte) : option (x509_name * list byte) :=
  '(c, r) ← dec_tlv x30 l;
  nm ← dec_attrs (S (length c)) c;
  Some (nm, r).

Lemma dec_attr_enc a rest : small (enc_attr a) → dec_attr (enc_attr a ++ rest) = Some (a, rest).
Proof.
  intros Hs. unfold dec_attr, enc_attr in *.
  der_field dec_tlv_enc. der_field dec_str_enc.
  rewrite <- (app_nil_r (enc_str a.2)). der_field dec_str_enc.
  by destruct a.
Qed.

Lemma dec_attrs_enc nm fuel :
  small (concat (enc_attr <$> nm)) → (length nm < fuel)%nat →
  dec_attrs fuel (concat (enc_attr <$> nm)) = Some nm.
Proof.
  revert fuel. induction nm as [|a nm IH]; intros fuel Hs Hfuel.
  - destruct fuel; [cbn in Hfuel; lia | done].
  - destruct fuel as [|fuel]; [cbn in Hfuel; lia|].
    cbn [fmap list_fmap concat] in *. apply small_app in Hs as [Ha Hnm].
    cbn [dec_attrs]. rewrite decide_False by done.
    rewrite dec_attr_enc by done. cbn [mbind option_bind].
    rewrite IH by (done || (cbn [length] in Hfuel; lia)). done.
Qed.

Lemma length_enc_attrs nm : (length nm ≤ length (concat (enc_attr <$> nm)))%nat.
Proof.
  induction nm as [|a nm IH]; [done|].
  cbn [fmap list_fmap concat length]. rewrite length_app.
  unfold enc_attr at 1, enc_tlv. cbn [length]. lia.
Qed.

Lemma dec_name_enc nm rest : small (enc_name nm) → dec_name (enc_name nm ++ rest) = Some (nm, rest).
Proof.
  intros Hs. unfold dec_name, enc_name in *.
  rewrite dec_tlv_enc by (by apply small_tlv in Hs). cbn [mbind option_bind].
  rewrite dec_attrs_enc; [done | by apply small_tlv in Hs |].
  pose proof (length_enc_attrs nm). lia.
Qed.

(** Keys, and what a certificate says and how it is signed. *)
Definition enc_pub (p : rsa_pub) : list byte :=
  enc_tlv x30 (enc_int (pub_bits p) ++ enc_int (pub_e p) ++ enc_nat (pub_n p)).

Definition dec_pub (l : list byte) : option (rsa_pub * list byte) :=
  '(c, r) ← dec_tlv x30 l;
  '(bits, c) ← dec_int c;
  '(e, c) ← dec_int c;
  '(n, c) ← dec_nat c;
  if decide (c = []) then Some ({| pub_bits := bits; pub_e := e; pub_n := n |}, r) else None.

Definition enc_key (k : rsa_key) : list byte :=
  enc_tlv x30 (enc_int (rsa_bits k) ++ enc_int (rsa_e k) ++ enc_nat (rsa_n k)).

Definition dec_key (l : list byte) : option (rsa_key * list byte) :=
  '(c, r) ← dec_tlv x30 l;
  '(bits, c) ← dec_int c;
  '(e, c) ← dec_int c;
  '(n, c) ← dec_nat c;
  if decide (c = []) then Some ({| rsa_bits := bits; rsa_e := e; rsa_n := n |}, r) else None.

Definition enc_info (i : cert_info) : list byte :=
  enc_tlv x30 (enc_int (ci_serial i) ++ enc_name (ci_issuer i) ++
               enc_int (ci_not_before i) ++ enc_int (ci_not_after i) ++
               enc_name (ci_subject i) ++ enc_pub (ci_pubkey i)).

Definition dec_info (l : list byte) : option (cert_info * list byte) :=
  '(c, r) ← dec_tlv x30 l;
  '(serial, c) ← dec_int c;
  '(issuer, c) ← dec_name c;
  '(not_before, c) ← dec_int c;
  '(not_after, c) ← dec_int c;
  '(subject, c) ← dec_name c;
  '(pubkey, c) ← dec_pub c;
  if decide (c = []) then
    Some ({| ci_serial := serial; ci_issuer := issuer; ci_not_before := not_before;
             ci_not_after := not_after; ci_subject := subject; ci_pubkey := pubkey |}, r)
  else None.

Definition enc_sig (s : signature cert_info) : list byte :=
  enc_tlv x30 (enc_digest (sig_md s) ++ enc_nat (sig_signer s) ++ enc_info (sig_over s)).

Definition dec_sig (l : list byte) : option (signature cert_info * list byte) :=
  '(c, r) ← dec_tlv x30 l;
  '(md, c) ← dec_digest c;
  '(signer, c) ← dec_nat c;
  '(over, c) ← dec_info c;
  if decide (c = []) then Some (Signature md signer over, r) else None.

Definition enc_x509 (c : x509) : list byte :=
  enc_tlv x30 (enc_info (crt_info c) ++ enc_sig (crt_sig c)).

Definition dec_x509 (l : list byte) : option (x509 * list byte) :=
  '(c, r) ← dec_tlv x30 l;
  '(info, c) ← dec_info c;
  '(sg, c) ← dec_sig c;
  if decide (c = []) then Some ({| crt_info := info; crt_sig := sg |}, r) else None.

Lemma dec_pub_enc p rest : small (enc_pub p) → dec_pub (enc_pub p ++ rest) = Some (p, rest).
Proof.
  intros Hs. unfold dec_pub, enc_pub in *.
  der_field dec_tlv_enc. der_field dec_int_enc. der_field dec_int_enc.
  rewrite <- (app_nil_r (enc_nat _)). der_field dec_nat_enc.
  by destruct p.
Qed.

Lemma dec_key_enc k rest : small (enc_key k) → dec_key (enc_key k ++ rest) = Some (k, rest).
Proof.
  intros Hs. unfold dec_key, enc_key in *.
  der_field dec_tlv_enc. der_field dec_int_enc. der_field dec_int_enc.
  rewrite <- (app_nil_r (enc_nat _)). der_field dec_nat_enc.
  by destruct k.
Qed.

Lemma dec_info_enc i rest : small (enc_info i) → dec_info (enc_info i ++ rest) = Some (i, rest).
Proof.
  intros Hs. unfold dec_info, enc_info in *.
  der_field dec_tlv_enc. der_field dec_int_enc. der_field dec_name_enc.
  der_field dec_int_enc. der_field dec_int_enc. der_field dec_name_enc.
  rewrite <- (app_nil_r (enc_pub _)). der_field dec_pub_enc.
  by destruct i.
Qed.

Lemma dec_sig_enc s rest : small (enc_sig s) → dec_sig (enc_sig s ++ rest) = Some (s, rest).
Proof.
  intros Hs. unfold dec_sig, enc_sig in *.
  der_field dec_tlv_enc. rewrite dec_digest_enc. cbn [mbind option_bind].
  der_field dec_nat_enc.
  rewrite <- (app_nil_r (enc_info _)). der_field dec_info_enc.
  by destruct s.
Qed.

Lemma dec_x509_enc c rest : small (enc_x509 c) → dec_x509 (enc_x509 c ++ rest) = Some (c, rest).
Proof.
  intros Hs. unfold dec_x509, enc_x509 in *.
  der_field dec_tlv_enc. der_field dec_info_enc.
  rewrite <- (app_nil_r (enc_sig _)). der_field dec_sig_enc.
  by destruct c.
Qed.

(** ** The codec

    What PEM_write_bio_X509 and PEM_write_bio_PrivateKey write, and what
    PEM_read_bio_X509 and PEM_read_bio_PrivateKey read: the armour around
    the Base64 text of the DER encoding, under the labels CERTIFICATE and
    PRIVATE KEY.  An encrypted key goes under ENCRYPTED PRIVATE KEY, and
    the reader, which is given no passphrase, does not take it for a key;
    its OCTET STRING stands for the ciphertext. *)

Definition cipher_oid (c : cipher) : list byte :=
  match c with
  | EVP_des_ede3_cbc => [x2a; x86; x48; x86; xf7; x0d; x03; x07]
  | EVP_aes_256_cbc => [x60; x86; x48; x01; x65; x03; x04; x01; x2a]
  end.

Definition pem_codec : PemCodec :=
  {| PEM_encode_X509 c := pem_encode "CERTIFICATE" (enc_x509 c);
     PEM_decode_X509 l :=
       '(der, rest) ← pem_decode "CERTIFICATE" l;
       '(c, r) ← dec_x509 der;
       if decide (r = []) then Some (c, rest) else None;
     PEM_encode_PrivateKey k := pem_encode "PRIVATE KEY" (enc_key k);
     PEM_encrypt_PrivateKey ci pass k :=
       pem_encode "ENCRYPTED PRIVATE KEY"
         (enc_tlv x30 (enc_tlv x06 (cipher_oid ci) ++ enc_tlv x04 (pass ++ enc_key k)));
     PEM_decode_PrivateKey l :=
       '(der, rest) ← pem_decode "PRIVATE KEY" l;
       '(k, r) ← dec_key der;
       if decide (r = []) then Some (k, rest) else None |}.

Lemma pem_label_certificate : pem_label "CERTIFICATE".
Proof. unfold pem_label. apply (bool_decide_unpack _). by vm_compute. Qed.

Lemma pem_label_private_key : pem_label "PRIVATE KEY".
Proof. unfold pem_label. apply (bool_decide_unpack _). by vm_compute. Qed.

Lemma small_pem label der : Z.of_nat (length (pem_encode label der)) ≤ INT_MAX → small der.
Proof. pose proof (length_pem_encode label der). unfold small, INT_MAX. lia. Qed.

(** The readers give back what the writers were given, and leave what
    follows the block in the stream. *)
Lemma pem_codec_cert c rest :
  Z.of_nat (length (PEM_encode_X509 (PemCodec := pem_codec) c)) ≤ INT_MAX →
  PEM_decode_X509 (PemCodec := pem_codec) (PEM_encode_X509 (PemCodec := pem_codec) c ++ rest)
    = Some (c, rest).
Proof.
  intros Hs%small_pem. cbn [PEM_decode_X509 PEM_encode_X509 pem_codec].
  rewrite (pem_decode_encode _ _ _ pem_label_certificate). cbn [mbind option_bind].
  rewrite <- (app_nil_r (enc_x509 c)), dec_x509_enc by done. done.
Qed.

Lemma pem_codec_key k rest :
  Z.of_nat (length (PEM_encode_PrivateKey (PemCodec := pem_codec) k)) ≤ INT_MAX →
  PEM_decode_PrivateKey (PemCodec := pem_codec)
    (PEM_encode_PrivateKey (PemCodec := pem_codec) k ++ rest) = Some (k, rest).
Proof.
  intros Hs%small_pem. cbn [PEM_decode_PrivateKey PEM_encode_PrivateKey pem_codec].
  rewrite (pem_decode_encode _ _ _ pem_label_private_key). cbn [mbind option_bind].
  rewrite <- (app_nil_r (enc_key k)), dec_key_enc by done. done.
Qed.

(** A key written under a cipher is not read back as a key. *)
Example encrypted_key_not_read :
  PEM_decode_PrivateKey (PemCodec := pem_codec)
    (PEM_encrypt_PrivateKey (PemCodec := pem_codec) EVP_aes_256_cbc
       (String.list_byte_of_string "secret") ca_rsa) = None ∧
  PEM_decode_X509 (PemCodec := pem_codec)
    (PEM_encode_PrivateKey (PemCodec := pem_codec) ca_rsa) = None ∧
  PEM_decode_X509 (PemCodec := pem_codec)
    (take 100 (PEM_encode_X509 (PemCodec := pem_codec) ca_cert)) = None.
Proof. repeat split; by vm_compute. Qed.

(** A certificate or a key is valid for crt_to_pem and key_to_pem when
    its PEM text fits the [int] that BIO_pending returns and BIO_read
    takes. *)
Definition valid_cert (c : x509) : Prop :=
  Z.of_nat (length (PEM_encode_X509 (PemCodec := pem_codec) c)) ≤ INT_MAX.

Definition valid_key (k : rsa_key) : Prop :=
  Z.of_nat (length (PEM_encode_PrivateKey (PemCodec := pem_codec) k)) ≤ INT_MAX.

(** C7: for every valid certificate and every valid key, the text
    crt_to_pem and key_to_pem produce is read back by load_ca
    (PEM_read_bio_X509, PEM_read_bio_PrivateKey) as the same certificate
    and the same key. *)
Theorem pem_round_trip (c : x509) (k : rsa_key) :
  valid_cert c → valid_key k →
  ∃ crt_pem key_pem,
    encode_cert (H := pem_codec) c = Some crt_pem ∧
    encode_key (H := pem_codec) k = Some key_pem ∧
    decode_ca (H := pem_codec) key_pem crt_pem = Some (k, c).
Proof.
  intros Hc Hk.
  exists (PEM_encode_X509 (PemCodec := pem_codec) c),
         (PEM_encode_PrivateKey (PemCodec := pem_codec) k).
  split; [by apply encode_cert_pem|]. split; [by apply encode_key_pem|].
  apply decode_ca_pem.
  - rewrite <- (app_nil_r (PEM_encode_PrivateKey k)), pem_codec_key by done. done.
  - rewrite <- (app_nil_r (PEM_encode_X509 c)), pem_codec_cert by done. done.
Qed.

Lemma pem_round_trip_witness :
  ∃ crt_pem key_pem,
    encode_cert (H := pem_codec) ca_cert = Some crt_pem ∧
    encode_key (H := pem_codec) ca_rsa = Some key_pem ∧
    decode_ca (H := pem_codec) key_pem crt_pem = Some (ca_rsa, ca_cert).
Proof.
  apply (pem_round_trip ca_cert ca_rsa); by vm_compute.
Defined.

(** * The issuance server loop *)

(** Modelled from the spec: the error taxonomy of section 7; auth.c has
    no error type, its functions return 0 or 1. *)
Inductive error :=
| GenerationError | MalformedPemError | CaNotFoundError | CaCorruptError
| CaMismatchError | InvalidCsrError | SigningError | ConnectionError.

(** Modelled from the spec: what is written back to a connection, the
    PEM text of the certificate or an error payload (section 6); nothing
    in auth.c writes to a socket. *)
Inductive response :=
| Issued (pem : list byte)
| Failed (e : error).

(** Modelled from the spec: the states of section 4.5; auth.c has no
    server state. *)
Inductive loop_state :=
| Listening (port : Z)
| AwaitingRequest
| Issuing (c : csr)
| Responding (r : response)
| Closed.

(** Modelled from the spec: the loop, the connections that have not
    been accepted yet (each given by the bytes its client sends) and the
    responses written so far, one per connection served; auth.c opens no
    socket. *)
Record server := Server {
  state : loop_state;
  pending : list (list byte);
  sent : list response
}.

Section server_loop.
(** The collaborators of the loop in section 4.5: the PEM codec for
    requests (auth.c has no reader of requests), the certificate issuer
    with the CA identity loaded at start-up (in auth.c the empty
    generate_signed_key_pair), and the PEM encoding of a certificate. *)
Variable decode_csr : list byte → option csr.
Variable issue : csr → error + x509.
Variable encode_crt : x509 → list byte.

(** Modelled from the spec: the response a request is owed (sections
    4.5 and 7: a request that does not decode is answered with
    MalformedPemError, an issuance error with that error); auth.c handles
    no request. *)
Definition respond (req : list byte) : response :=
  match decode_csr req with
  | None => Failed MalformedPemError
  | Some c =>
      match issue c with
      | inl e => Failed e
      | inr crt => Issued (encode_crt crt)
      end
  end.

(** Modelled from the spec: one transition of the server loop.
    server_loop is declared in auth.c (line 57) and defined nowhere, and
    main does not call it; this is section 4.5 of the specification:
    Listening → AwaitingRequest → Issuing → Responding → AwaitingRequest,
    a decode or issuance error is answered with an error response, and
    the loop is Closed only when no connection is left to accept. *)
Definition step (s : server) : server :=
  match state s with
  | Listening _ => Server AwaitingRequest (pending s) (sent s)
  | AwaitingRequest =>
      match pending s with
      | [] => Server Closed [] (sent s)
      | req :: rest =>
          match decode_csr req with
          | Some c => Server (Issuing c) rest (sent s)
          | None => Server (Responding (Failed MalformedPemError)) rest (sent s)
          end
      end
  | Issuing c =>
      Server (Responding match issue c with
                         | inl e => Failed e
                         | inr crt => Issued (encode_crt crt)
                         end)
             (pending s) (sent s)
  | Responding r => Server AwaitingRequest (pending s) (sent s ++ [r])
  | Closed => s
  end.

(** Modelled from the spec: [n] transitions of the loop, which auth.c
    does not have. *)
Fixpoint run (n : nat) (s : server) : server :=
  match n with
  | O => s
  | S n => run n (step s)
  end.

(** Modelled from the spec: the server loop on [port], run until the
    connections of the scenario have been served (three transitions per
    connection at most, one to start listening, one to close). *)
Definition server_loop (port : Z) (conns : list (list byte)) : server :=
  run (3 * length conns + 2) (Server (Listening port) conns []).

Lemma run_add n m s : run (n + m) s = run m (run n s).
Proof. revert s. induction n as [|n IH]; intros s; [done|]. apply IH. Qed.

Lemma run_closed n s : state s = Closed → run n s = s.
Proof.
  induction n as [|n IH]; intros Hs; [done|]. cbn. unfold step. rewrite Hs. by apply IH.
Qed.

(** Serving one connection takes two or three transitions and leaves
    the loop awaiting the next one. *)
Lemma serve_one req rest out :
  ∃ n, (2 ≤ n ≤ 3)%nat ∧
       run n (Server AwaitingRequest (req :: rest) out)
         = Server AwaitingRequest rest (out ++ [respond req]).
Proof.
  unfold respond. destruct (decode_csr req) as [c|] eqn:Hd.
  - exists 3%nat. split; [lia|]. cbn. unfold step. cbn. by rewrite Hd.
  - exists 2%nat. split; [lia|]. cbn. unfold step. cbn. by rewrite Hd.
Qed.

Lemma serve_all conns rest out :
  ∃ n, (n ≤ 3 * length conns)%nat ∧
       run n (Server AwaitingRequest (conns ++ rest) out)
         = Server AwaitingRequest rest (out ++ (respond <$> conns)).
Proof.
  revert out. induction conns as [|req conns IH]; intros out.
  - exists 0%nat. split; [cbn; lia|]. cbn. by rewrite app_nil_r.
  - destruct (serve_one req (conns ++ rest) out) as (n1 & Hn1 & H1).
    destruct (IH (out ++ [respond req])) as (n2 & Hn2 & H2).
    exists (n1 + n2)%nat. split; [cbn [length]; lia|].
    rewrite run_add. cbn [app]. rewrite H1, H2. by rewrite <- app_assoc.
Qed.

Lemma server_loop_serves_all port conns :
  server_loop port conns = Server Closed [] (respond <$> conns).
Proof.
  unfold server_loop.
  destruct (serve_all conns [] []) as (n & Hn & Hrun). rewrite app_nil_r in Hrun.
  replace (3 * length conns + 2)%nat with (S (n + S (3 * length conns - n)))%nat by lia.
  change (run (S ?k) ?s) with (run k (step s)).
  change (step (Server (Listening port) conns [])) with (Server AwaitingRequest conns []).
  rewrite run_add, Hrun.
  change (run (S ?k) ?s) with (run k (step s)).
  by apply run_closed.
Qed.

(** The loop is closed only once no connection is left. *)
Definition closes_last (s : server) : Prop := state s = Closed → pending s = [].

Lemma step_closes_last s : closes_last s → closes_last (step s).
Proof.
  unfold closes_last, step. destruct s as [[] p o]; cbn; try done.
  - destruct p as [|req rest]; [done|]. by destruct (decode_csr req).
Qed.

Lemma run_closes_last n s : closes_last s → closes_last (run n s).
Proof.
  revert s. induction n as [|n IH]; intros s Hs; [done|].
  by apply IH, step_closes_last.
Qed.

(** C8: a request that does not decode gets the MalformedPemError
    response and leaves the loop awaiting the connections that follow;
    each of them, like each one before, gets the response it is owed,
    and the loop closes only once no connection is left. *)
Theorem server_loop_survives_malformed port pre bad post :
  decode_csr bad = None →
  (∃ n, run n (Server (Listening port) (pre ++ bad :: post) [])
          = Server AwaitingRequest post ((respond <$> pre) ++ [Failed MalformedPemError])) ∧
  sent (server_loop port (pre ++ bad :: post))
    = (respond <$> pre) ++ Failed MalformedPemError :: (respond <$> post) ∧
  (∀ n, closes_last (run n (Server (Listening port) (pre ++ bad :: post) []))).
Proof.
  intros Hbad.
  assert (respond bad = Failed MalformedPemError) as Hresp by (unfold respond; by rewrite Hbad).
  split; [|split].
  - destruct (serve_all (pre ++ [bad]) post []) as (n & _ & Hrun).
    exists (S n). change (run (S ?k) ?s) with (run k (step s)).
    change (step (Server (Listening port) ?c [])) with (Server AwaitingRequest c []).
    rewrite <- app_assoc in Hrun. cbn [app] in Hrun. rewrite Hrun.
    by rewrite fmap_app, <- Hresp.
  - rewrite server_loop_serves_all. cbn [sent]. by rewrite fmap_app, fmap_cons, Hresp.
  - intros n. by apply run_closes_last.
Qed.

End server_loop.

(** A port with three clients: the second sends bytes that are no
    request, the other two send the one request the decoder knows, for
    which the issuer hands out the CA certificate. *)
Definition request_text : list byte := pem_text "CERTIFICATE REQUEST" "Q1NS".

Definition example_request : csr :=
  {| csr_name := csr_subject;
     csr_pubkey := Some (RSA_public other_rsa);
     csr_sig := Some (sign other_rsa EVP_sha256
                        {| ri_subject := csr_subject;
                           ri_pubkey := Some (RSA_public other_rsa) |}) |}.

Definition example_decode_csr (d : list byte) : option csr :=
  if bool_decide (d = request_text) then Some example_request else None.

Definition example_issue (c : csr) : error + x509 := inr ca_cert.

Lemma server_loop_survives_malformed_witness :
  let respond := respond example_decode_csr example_issue (table_encode cert_table) in
  let run := run example_decode_csr example_issue (table_encode cert_table) in
  let conns := [request_text] ++ String.list_byte_of_string "GET / HTTP/1.0" :: [request_text] in
  (∃ n, run n (Server (Listening PORT) conns [])
          = Server AwaitingRequest [request_text]
              ((respond <$> [request_text]) ++ [Failed MalformedPemError])) ∧
  sent (server_loop example_decode_csr example_issue (table_encode cert_table) PORT conns)
    = (respond <$> [request_text]) ++ Failed MalformedPemError :: (respond <$> [request_text]) ∧
  (∀ n, closes_last (run n (Server (Listening PORT) conns []))).
Proof.
  apply (server_loop_survives_malformed example_decode_csr example_issue
           (table_encode cert_table) PORT [request_text]
           (String.list_byte_of_string "GET / HTTP/1.0") [request_text]).
  by vm_compute.
Defined.

(** * Further properties of load_ca: memory, BIOs and calls *)

(** Two memories built by inserts and deletes at addresses known to be equal or
    different. *)
Ltac map_eq_tac :=
  apply map_eq; intros ?i;
  repeat first [rewrite lookup_insert | rewrite lookup_delete];
  repeat case_decide; simplify_eq; done.

(** An event that is not in a list of events given in full. *)
Ltac not_in_calls H :=
  repeat (apply elem_of_cons in H as [H|H]; [first [discriminate H | by simplify_eq]|]);
  by apply elem_of_nil in H.

Section load_ca_effect.
Context `{PemCodec}.

(** All that load_ca does, by what the two files hold: the result, the
    memory it leaves and the calls it makes.  Files, entropy and fault
    schedule are as before. *)
Definition load_ca_effect (w : world) (ca_key_path : string) (key : positive)
    (ca_crt_path : string) (crt : positive) (r : Z) (w' : world) : Prop :=
  files w' = files w ∧ entropy w' = entropy w ∧ faults w' = faults w ∧
  let opened b := [Enter Fload_ca; EvBIO_new BIO_s_file;
                   EvBIO_read_filename (Npos b) ca_crt_path] in
  match ca_input_of w ca_key_path ca_crt_path with
  | CertUnreadable =>
      r = 0 ∧ mem w' = <[key := OCell NULL]> (<[crt := OCell NULL]> (mem w)) ∧
      ∃ b1, calls w' = calls w ++ opened b1 ++
        [EvBIO_free_all (Npos b1); EvX509_free NULL; EvEVP_PKEY_free NULL]
  | CertCorrupt =>
      r = 0 ∧ mem w' = <[key := OCell NULL]> (<[crt := OCell NULL]> (mem w)) ∧
      ∃ b1, calls w' = calls w ++ opened b1 ++
        [EvPEM_read_bio_X509 (Npos b1); EvBIO_free_all (Npos b1);
         EvX509_free NULL; EvEVP_PKEY_free NULL]
  | KeyUnreadable c =>
      r = 0 ∧
      ∃ b1 b2 p, mem w !! p = None ∧
        mem w' = <[key := OCell NULL]> (<[crt := OCell (Npos p)]> (mem w)) ∧
        calls w' = calls w ++ opened b1 ++
          [EvPEM_read_bio_X509 (Npos b1); EvBIO_free_all (Npos b1);
           EvBIO_new BIO_s_file; EvBIO_read_filename (Npos b2) ca_key_path;
           EvBIO_free_all (Npos b2); EvX509_free (Npos p); EvEVP_PKEY_free NULL]
  | KeyCorrupt c =>
      r = 1 ∧
      ∃ b1 b2 p, mem w !! p = None ∧
        mem w' = <[key := OCell NULL]> (<[crt := OCell (Npos p)]>
                   (<[p := OX509 c]> (mem w))) ∧
        calls w' = calls w ++ opened b1 ++
          [EvPEM_read_bio_X509 (Npos b1); EvBIO_free_all (Npos b1);
           EvBIO_new BIO_s_file; EvBIO_read_filename (Npos b2) ca_key_path;
           EvPEM_read_bio_PrivateKey (Npos b2); EvBIO_free_all (Npos b2)]
  | Loaded c k =>
      r = 1 ∧
      ∃ b1 b2 p rk pk,
        mem w !! p = None ∧ mem w !! rk = None ∧ mem w !! pk = None ∧
        p ≠ rk ∧ p ≠ pk ∧ rk ≠ pk ∧
        mem w' = <[key := OCell (Npos pk)]> (<[pk := OPkey (Npos rk)]>
                   (<[rk := ORsa k]> (<[crt := OCell (Npos p)]>
                   (<[p := OX509 c]> (mem w))))) ∧
        calls w' = calls w ++ opened b1 ++
          [EvPEM_read_bio_X509 (Npos b1); EvBIO_free_all (Npos b1);
           EvBIO_new BIO_s_file; EvBIO_read_filename (Npos b2) ca_key_path;
           EvPEM_read_bio_PrivateKey (Npos b2); EvBIO_free_all (Npos b2)]
  end.

Ltac effect_start :=
  apply wp_ret; unfold load_ca_effect, ca_input_of; mem_simpl;
  repeat match goal with
         | H : ?x = _ |- context [match ?x with _ => _ end] => rewrite H
         end;
  cbv zeta; do 3 (split; [reflexivity|]); split; [reflexivity|].

Ltac calls_done := rewrite <- ?app_assoc; reflexivity.

(** A BIO found in a memory in which none was inserted. *)
Ltac bio_cases H :=
  repeat (apply lookup_insert_Some in H as [[_ H]|[_ H]]; [discriminate H|]).

Lemma load_ca_effect_spec w ca_key_path key ca_crt_path crt vk vc :
  mem w !! key = Some (OCell vk) → mem w !! crt = Some (OCell vc) → key ≠ crt →
  wp (load_ca ca_key_path (Npos key) ca_crt_path (Npos crt)) w
     (load_ca_effect w ca_key_path key ca_crt_path crt).
Proof.
  intros Hk Hc Hne. unfold load_ca, load_ca_err.
  wp_step wp_emit. wp_store. wp_store.
  wp_step wp_BIO_new. intros b1 Hb1. fresh_ne Hb1.
  wp_step wp_BIO_read_filename; [lookup_tac|]. cbv zeta. mem_simpl.
  destruct (files w !! ca_crt_path) as [dc|] eqn:Hfc.
  2:{ cbn [Z.eqb]. wp_step wp_BIO_free_all; [lookup_tac|]. free_norm Hb1.
      wp_load. wp_step wp_X509_free_null. wp_load. wp_step wp_EVP_PKEY_free_null.
      effect_start. split; [map_eq_tac|]. exists b1. calls_done. }
  cbn [Z.eqb].
  wp_step wp_PEM_read_bio_X509; [lookup_tac|]. cbv zeta. cbn [bio_data bio_set_data].
  destruct (PEM_decode_X509 dc) as [[c crest]|] eqn:Hdc.
  2:{ wp_store. wp_load. cbn [is_null N.eqb NULL].
      wp_step wp_BIO_free_all; [lookup_tac|]. free_norm Hb1.
      wp_load. wp_step wp_X509_free_null. wp_load. wp_step wp_EVP_PKEY_free_null.
      effect_start. split; [map_eq_tac|]. exists b1. calls_done. }
  intros p Hp Hb1p. fresh_ne Hp.
  wp_store. wp_load. cbn [is_null N.eqb].
  wp_step wp_BIO_free_all; [lookup_tac|]. free_norm Hb1.
  wp_step wp_BIO_new. intros b2 Hb2. fresh_ne Hb2.
  wp_step wp_BIO_read_filename; [lookup_tac|]. cbv zeta. mem_simpl.
  destruct (files w !! ca_key_path) as [dk|] eqn:Hfk.
  2:{ cbn [Z.eqb]. wp_step wp_BIO_free_all; [lookup_tac|]. free_norm Hb2.
      wp_load. wp_step wp_X509_free; [lookup_tac|]. free_norm Hp.
      wp_load. wp_step wp_EVP_PKEY_free_null.
      effect_start. exists b1, b2, p. split; [done|]. split; [map_eq_tac|]. calls_done. }
  cbn [Z.eqb].
  wp_step wp_PEM_read_bio_PrivateKey; [lookup_tac|]. cbv zeta. cbn [bio_data bio_set_data].
  destruct (PEM_decode_PrivateKey dk) as [[k krest]|] eqn:Hdk.
  2:{ wp_store. cbn [is_null N.eqb].
      wp_step wp_BIO_free_all; [lookup_tac|]. free_norm Hb2.
      effect_start. exists b1, b2, p. split; [done|]. split; [map_eq_tac|]. calls_done. }
  intros r pk Hr Hpk Hb2r Hb2pk Hrpk. fresh_ne Hr. fresh_ne Hpk.
  wp_store. cbn [is_null N.eqb].
  wp_step wp_BIO_free_all; [lookup_tac|]. free_norm Hb2.
  effect_start. exists b1, b2, p, r, pk.
  repeat apply conj; try done; [map_eq_tac | calls_done].
Qed.

Lemma load_ca_runs w ca_key_path key ca_crt_path crt vk vc :
  mem w !! key = Some (OCell vk) → mem w !! crt = Some (OCell vc) → key ≠ crt →
  ∃ r w',
    load_ca ca_key_path (Npos key) ca_crt_path (Npos crt) w = Returns r w' ∧
    load_ca_effect w ca_key_path key ca_crt_path crt r w'.
Proof. intros Hk Hc Hne. by apply wp_returns, (load_ca_effect_spec _ _ _ _ _ vk vc). Qed.

(** The world [w] with the content of the file [path] replaced. *)
Definition with_file (path : string) (d : list byte) (w : world) : world :=
  World (mem w) (<[path := d]> (files w)) (entropy w) (faults w) (calls w).

(** X1: the result of load_ca does not depend on what the key file
    holds.  Called with two distinct variables on a disk whose key file
    can be read, it returns the same value, 0 or 1, whatever is put in the
    place of the key file's content; and it returns 1 only when the
    certificate file has been read and holds a certificate. *)
Theorem load_ca_result_ignores_key_content
    w ca_key_path key ca_crt_path crt vk vc dk dk' :
  mem w !! key = Some (OCell vk) → mem w !! crt = Some (OCell vc) → key ≠ crt →
  ca_key_path ≠ ca_crt_path → files w !! ca_key_path = Some dk →
  ∃ r w1 w2,
    load_ca ca_key_path (Npos key) ca_crt_path (Npos crt) w = Returns r w1 ∧
    load_ca ca_key_path (Npos key) ca_crt_path (Npos crt) (with_file ca_key_path dk' w)
      = Returns r w2 ∧
    (r = 0 ∨ r = 1) ∧
    (r = 1 → ∃ dc, files w !! ca_crt_path = Some dc ∧ is_Some (PEM_decode_X509 dc)).
Proof.
  intros Hk Hc Hne Hpaths Hfk.
  destruct (load_ca_runs w ca_key_path key ca_crt_path crt vk vc Hk Hc Hne)
    as (r & w1 & Hrun1 & _ & _ & _ & Heff1).
  destruct (load_ca_runs (with_file ca_key_path dk' w) ca_key_path key ca_crt_path crt vk vc
              Hk Hc Hne) as (r' & w2 & Hrun2 & _ & _ & _ & Heff2).
  cbv zeta in Heff1, Heff2. unfold ca_input_of in Heff1, Heff2.
  cbn [files with_file] in Heff2.
  rewrite lookup_insert_ne, lookup_insert_eq in Heff2 by done. rewrite Hfk in Heff1.
  exists r, w1, w2. split; [done|].
  destruct (files w !! ca_crt_path) as [dc|].
  2:{ destruct Heff1 as (-> & _), Heff2 as (-> & _). repeat apply conj; [done | by left | done]. }
  destruct (PEM_decode_X509 dc) as [[c crest]|] eqn:Hdc.
  2:{ destruct Heff1 as (-> & _), Heff2 as (-> & _). repeat apply conj; [done | by left | done]. }
  assert (r = 1) as -> by (destruct (PEM_decode_PrivateKey dk) as [[]|]; by destruct Heff1).
  assert (r' = 1) as -> by (destruct (PEM_decode_PrivateKey dk') as [[]|]; by destruct Heff2).
  repeat apply conj; [done | by right |]. intros _. exists dc. by rewrite Hdc.
Qed.

(** X2: when the certificate file cannot be read, or holds no
    certificate, load_ca returns 0 with NULL in both variables; the rest
    of the memory is as it was (the BIO it opened is freed), and the key
    file is neither opened nor parsed. *)
Theorem load_ca_bad_certificate w ca_key_path key ca_crt_path crt vk vc :
  mem w !! key = Some (OCell vk) → mem w !! crt = Some (OCell vc) → key ≠ crt →
  (∀ dc, files w !! ca_crt_path = Some dc → PEM_decode_X509 dc = None) →
  ∃ w' cs,
    load_ca ca_key_path (Npos key) ca_crt_path (Npos crt) w = Returns 0 w' ∧
    mem w' = <[key := OCell NULL]> (<[crt := OCell NULL]> (mem w)) ∧
    files w' = files w ∧
    calls w' = calls w ++ cs ∧
    (∀ b, EvPEM_read_bio_PrivateKey b ∉ cs) ∧
    (ca_key_path ≠ ca_crt_path → ∀ b, EvBIO_read_filename b ca_key_path ∉ cs).
Proof.
  intros Hk Hc Hne Hbad.
  destruct (load_ca_runs w ca_key_path key ca_crt_path crt vk vc Hk Hc Hne)
    as (r & w' & Hrun & Hfiles & _ & _ & Heff).
  cbv zeta in Heff. unfold ca_input_of in Heff.
  destruct (files w !! ca_crt_path) as [dc|].
  - rewrite (Hbad dc eq_refl) in Heff. destruct Heff as (-> & Hmem & b1 & Hcalls).
    eexists w', _. repeat apply conj; [done..| exact Hcalls | |].
    + intros b Hin. not_in_calls Hin.
    + intros Hpaths b Hin. not_in_calls Hin.
  - destruct Heff as (-> & Hmem & b1 & Hcalls).
    eexists w', _. repeat apply conj; [done..| exact Hcalls | |].
    + intros b Hin. not_in_calls Hin.
    + intros Hpaths b Hin. not_in_calls Hin.
Qed.


(** X4: on every path load_ca leaves files, entropy and fault schedule
    alone, changes no object of the caller other than the two variables,
    and frees each BIO it creates: no BIO is live afterwards that was not
    live before. *)
Theorem load_ca_frame w ca_key_path key ca_crt_path crt vk vc :
  mem w !! key = Some (OCell vk) → mem w !! crt = Some (OCell vc) → key ≠ crt →
  ∃ r w',
    load_ca ca_key_path (Npos key) ca_crt_path (Npos crt) w = Returns r w' ∧
    files w' = files w ∧ entropy w' = entropy w ∧ faults w' = faults w ∧
    (∀ a o, a ≠ key → a ≠ crt → mem w !! a = Some o → mem w' !! a = Some o) ∧
    (∀ a b, mem w' !! a = Some (OBio b) → mem w !! a = Some (OBio b)).
Proof.
  intros Hk Hc Hne.
  destruct (load_ca_runs w ca_key_path key ca_crt_path crt vk vc Hk Hc Hne)
    as (r & w' & Hrun & Hf & He & Hfs & Heff).
  exists r, w'. do 4 (split; [done|]). cbv zeta in Heff.
  destruct (ca_input_of w ca_key_path ca_crt_path) as [| |c|c|c k].
  - destruct Heff as (_ & -> & _). split.
    + intros a o ? ? Ha. lookup_tac.
    + intros a b Ha. by bio_cases Ha.
  - destruct Heff as (_ & -> & _). split.
    + intros a o ? ? Ha. lookup_tac.
    + intros a b Ha. by bio_cases Ha.
  - destruct Heff as (_ & b1 & b2 & p & Hp & -> & _). split.
    + intros a o ? ? Ha. lookup_tac.
    + intros a b Ha. by bio_cases Ha.
  - destruct Heff as (_ & b1 & b2 & p & Hp & -> & _). split.
    + intros a o ? ? Ha.
      assert (p ≠ a) by (intros ->; rewrite Hp in Ha; discriminate Ha). lookup_tac.
    + intros a b Ha. by bio_cases Ha.
  - destruct Heff as (_ & b1 & b2 & p & rk & pk & Hp & Hrk & Hpk & _ & _ & _ & -> & _). split.
    + intros a o ? ? Ha.
      assert (p ≠ a) by (intros ->; rewrite Hp in Ha; discriminate Ha).
      assert (rk ≠ a) by (intros ->; rewrite Hrk in Ha; discriminate Ha).
      assert (pk ≠ a) by (intros ->; rewrite Hpk in Ha; discriminate Ha).
      lookup_tac.
    + intros a b Ha. by bio_cases Ha.
Qed.

(** X5: load_ca overwrites [*ca_crt] and [*ca_key] without freeing what
    they pointed to.  Loading twice into the same variables leaves the
    certificate and key of the first call live in memory, while the two
    variables point to the new copies. *)
Theorem load_ca_twice_leaks w ca_key_path key ca_crt_path crt vk vc dc c rest dk k krest :
  mem w !! key = Some (OCell vk) → mem w !! crt = Some (OCell vc) → key ≠ crt →
  files w !! ca_crt_path = Some dc → PEM_decode_X509 dc = Some (c, rest) →
  files w !! ca_key_path = Some dk → PEM_decode_PrivateKey dk = Some (k, krest) →
  ∃ w1 w2,
    load_ca ca_key_path (Npos key) ca_crt_path (Npos crt) w = Returns 1 w1 ∧
    load_ca ca_key_path (Npos key) ca_crt_path (Npos crt) w1 = Returns 1 w2 ∧
    read_x509 w2 (out w1 crt) = Some c ∧ read_key w2 (out w1 key) = Some k ∧
    out w2 crt ≠ out w1 crt ∧ out w2 key ≠ out w1 key ∧
    read_x509 w2 (out w2 crt) = Some c ∧ read_key w2 (out w2 key) = Some k.
Proof.
  intros Hk Hc Hne Hfc Hdc Hfk Hdk.
  destruct (load_ca_runs w ca_key_path key ca_crt_path crt vk vc Hk Hc Hne)
    as (r & w1 & Hrun1 & Hf1 & _ & _ & Heff1).
  cbv zeta in Heff1. unfold ca_input_of in Heff1. rewrite Hfc, Hdc, Hfk, Hdk in Heff1.
  destruct Heff1 as (-> & _ & _ & p & rk & pk & Hp & Hrk & Hpk & ? & ? & ? & Hmem1 & _).
  fresh_ne Hp. fresh_ne Hrk. fresh_ne Hpk.
  assert (mem w1 !! key = Some (OCell (Npos pk))) as Hk1 by (rewrite Hmem1; lookup_tac).
  assert (mem w1 !! crt = Some (OCell (Npos p))) as Hc1 by (rewrite Hmem1; lookup_tac).
  assert (mem w1 !! p = Some (OX509 c)) as Hp1 by (rewrite Hmem1; lookup_tac).
  assert (mem w1 !! rk = Some (ORsa k)) as Hrk1 by (rewrite Hmem1; lookup_tac).
  assert (mem w1 !! pk = Some (OPkey (Npos rk))) as Hpk1 by (rewrite Hmem1; lookup_tac).
  destruct (load_ca_runs w1 ca_key_path key ca_crt_path crt _ _ Hk1 Hc1 Hne)
    as (r & w2 & Hrun2 & _ & _ & _ & Heff2).
  cbv zeta in Heff2. unfold ca_input_of in Heff2. rewrite Hf1, Hfc, Hdc, Hfk, Hdk in Heff2.
  destruct Heff2 as (-> & _ & _ & p' & rk' & pk' & Hp' & Hrk' & Hpk' & ? & ? & ? & Hmem2 & _).
  clear Hmem1. fresh_ne Hp'. fresh_ne Hrk'. fresh_ne Hpk'.
  exists w1, w2. do 2 (split; [done|]).
  unfold read_x509, read_key, out, deref. rewrite Hk1, Hc1, Hmem2.
  repeat apply conj; read_tac; by intros [= ->].
Qed.

End load_ca_effect.

(** * Further properties of crt_to_pem and key_to_pem *)

Lemma fill_fresh (pem : list byte) :
  fill pem (replicate (S (length pem)) None) = (Some <$> pem) ++ [None].
Proof.
  unfold fill. rewrite drop_replicate.
  by replace (S (length pem) - length pem)%nat with 1%nat by lia.
Qed.

Lemma mapM_id_Some (l : list byte) : mapM id (Some <$> l) = Some l.
Proof. apply mapM_Some. induction l; constructor; auto. Qed.

(** The memory crt_to_pem and key_to_pem leave for a text [pem]: its
    length in [*size], and in [*bytes] the address [buf] of a new buffer
    of one byte more than the text, whose last byte has not been written.
    Nothing else changes; the BIO is gone. *)
Definition pem_mem (m : gmap positive obj) (bytes size buf : positive) (pem : list byte)
    : gmap positive obj :=
  <[bytes := OCell (Npos buf)]>
    (<[buf := OBuf ((Some <$> pem) ++ [None])]>
    (<[size := OCell (N.of_nat (length pem))]> m)).

Definition pem_effect (w w' : world) (bytes size : positive) (pem : list byte) : Prop :=
  files w' = files w ∧ entropy w' = entropy w ∧ faults w' = faults w ∧
  ∃ buf, mem w !! buf = None ∧ mem w' = pem_mem (mem w) bytes size buf pem.

Ltac pem_effect_done b buf Hbio :=
  unfold pem_effect, pem_mem; mem_simpl; do 3 (split; [reflexivity|]);
  exists buf; split; [done|];
  rewrite Nat2N.id, fill_fresh; map_eq_tac.

(** The text is read back from the buffer, and one byte more is not. *)
Lemma pem_mem_read w' m bytes size buf pem :
  bytes ≠ size → bytes ≠ buf → size ≠ buf →
  mem w' = pem_mem m bytes size buf pem →
  out w' bytes = Npos buf ∧ out w' size = N.of_nat (length pem) ∧
  read_buf w' (out w' bytes) (out w' size) = Some pem ∧
  read_buf w' (out w' bytes) (out w' size + 1) = None.
Proof.
  intros ? ? ? Hmem. unfold read_buf, out, deref, pem_mem in *. rewrite Hmem.
  rewrite lookup_insert_eq, lookup_insert_ne, lookup_insert_ne, !lookup_insert_eq by done.
  rewrite lookup_insert_ne, lookup_insert_eq by done.
  do 2 (split; [done|]).
  replace (N.to_nat (N.of_nat (length pem) + 1)) with (S (length pem)) by lia.
  rewrite Nat2N.id, !bool_decide_eq_true_2 by (rewrite length_app, length_fmap; cbn; lia).
  split.
  - rewrite take_app_length' by (by rewrite length_fmap). apply mapM_id_Some.
  - rewrite firstn_all2 by (rewrite length_app, length_fmap; cbn; lia).
    apply mapM_None. rewrite Exists_exists. exists None. split; [|done].
    apply elem_of_app. right. apply list_elem_of_here.
Qed.

Section pem_effect.
Context `{PemCodec}.

Lemma crt_to_pem_effect_spec w crt c bytes size vb vs :
  mem w !! crt = Some (OX509 c) →
  mem w !! bytes = Some (OCell vb) → mem w !! size = Some (OCell vs) → bytes ≠ size →
  Z.of_nat (length (PEM_encode_X509 c)) ≤ INT_MAX →
  wp (crt_to_pem (Npos crt) (Npos bytes) (Npos size)) w
     (λ _ w', pem_effect w w' bytes size (PEM_encode_X509 c)).
Proof.
  intros Hcrt Hb Hs Hne Hlen. unfold crt_to_pem.
  wp_step wp_emit.
  wp_step wp_BIO_new. intros b Hbio. fresh_ne Hbio.
  wp_step wp_PEM_write_bio_X509; [lookup_tac..|].
  pem_tail buf Hbuf Hlen.
  pem_effect_done b buf Hbio.
Qed.

Lemma key_to_pem_effect_spec w key ra k bytes size vb vs :
  mem w !! key = Some (OPkey (Npos ra)) → mem w !! ra = Some (ORsa k) →
  mem w !! bytes = Some (OCell vb) → mem w !! size = Some (OCell vs) → bytes ≠ size →
  Z.of_nat (length (PEM_encode_PrivateKey k)) ≤ INT_MAX →
  wp (key_to_pem (Npos key) (Npos bytes) (Npos size)) w
     (λ _ w', pem_effect w w' bytes size (PEM_encode_PrivateKey k)).
Proof.
  intros Hkey Hra Hb Hs Hne Hlen. unfold key_to_pem.
  wp_step wp_emit.
  wp_step wp_BIO_new. intros b Hbio. fresh_ne Hbio.
  wp_step wp_PEM_write_bio_PrivateKey; [lookup_tac..|]. cbn [private_key_pem].
  pem_tail buf Hbuf Hlen.
  pem_effect_done b buf Hbio.
Qed.

(** X6: crt_to_pem allocates one byte more than the PEM text and never
    writes it.  After the call [*crt_size] is the length of the text,
    [*crt_bytes] is a new buffer holding the text followed by one
    unwritten byte (no terminator is stored), the BIO is freed and the
    rest of the memory is as before. *)
Theorem crt_to_pem_buffer w crt c bytes size vb vs :
  mem w !! crt = Some (OX509 c) →
  mem w !! bytes = Some (OCell vb) → mem w !! size = Some (OCell vs) → bytes ≠ size →
  Z.of_nat (length (PEM_encode_X509 c)) ≤ INT_MAX →
  ∃ w' buf,
    crt_to_pem (Npos crt) (Npos bytes) (Npos size) w = Returns tt w' ∧
    mem w !! buf = None ∧
    mem w' = <[bytes := OCell (Npos buf)]>
               (<[buf := OBuf ((Some <$> PEM_encode_X509 c) ++ [None])]>
               (<[size := OCell (N.of_nat (length (PEM_encode_X509 c)))]> (mem w))) ∧
    read_buf w' (out w' bytes) (out w' size) = Some (PEM_encode_X509 c) ∧
    read_buf w' (out w' bytes) (out w' size + 1) = None.
Proof.
  intros Hcrt Hb Hs Hne Hlen.
  pose proof (crt_to_pem_effect_spec w crt c bytes size vb vs Hcrt Hb Hs Hne Hlen) as Hwp.
  apply wp_returns in Hwp as ([] & w' & Hrun & _ & _ & _ & buf & Hbuf & Hmem).
  fresh_ne Hbuf.
  destruct (pem_mem_read w' (mem w) bytes size buf (PEM_encode_X509 c))
    as (_ & _ & Hread & Hpast); [done..|].
  by exists w', buf.
Qed.

(** X7: key_to_pem does the same with the private key: the buffer at
    [*key_bytes] holds the PEM text of the key followed by one byte that
    is never written, [*key_size] is the length of the text, and nothing
    else in memory changes. *)
Theorem key_to_pem_buffer w key ra k bytes size vb vs :
  mem w !! key = Some (OPkey (Npos ra)) → mem w !! ra = Some (ORsa k) →
  mem w !! bytes = Some (OCell vb) → mem w !! size = Some (OCell vs) → bytes ≠ size →
  Z.of_nat (length (PEM_encode_PrivateKey k)) ≤ INT_MAX →
  ∃ w' buf,
    key_to_pem (Npos key) (Npos bytes) (Npos size) w = Returns tt w' ∧
    mem w !! buf = None ∧
    mem w' = <[bytes := OCell (Npos buf)]>
               (<[buf := OBuf ((Some <$> PEM_encode_PrivateKey k) ++ [None])]>
               (<[size := OCell (N.of_nat (length (PEM_encode_PrivateKey k)))]> (mem w))) ∧
    read_buf w' (out w' bytes) (out w' size) = Some (PEM_encode_PrivateKey k) ∧
    read_buf w' (out w' bytes) (out w' size + 1) = None.
Proof.
  intros Hkey Hra Hb Hs Hne Hlen.
  pose proof (key_to_pem_effect_spec w key ra k bytes size vb vs Hkey Hra Hb Hs Hne Hlen)
    as Hwp.
  apply wp_returns in Hwp as ([] & w' & Hrun & _ & _ & _ & buf & Hbuf & Hmem).
  fresh_ne Hbuf.
  destruct (pem_mem_read w' (mem w) bytes size buf (PEM_encode_PrivateKey k))
    as (_ & _ & Hread & Hpast); [done..|].
  by exists w', buf.
Qed.

(** key_to_pem on a NULL key: PEM_write_bio_PrivateKey writes nothing,
    and the call goes on with an empty BIO. *)
Lemma key_to_pem_null_spec w bytes size vb vs :
  mem w !! bytes = Some (OCell vb) → mem w !! size = Some (OCell vs) → bytes ≠ size →
  wp (key_to_pem NULL (Npos bytes) (Npos size)) w (λ _ w', pem_effect w w' bytes size []).
Proof.
  intros Hb Hs Hne. unfold key_to_pem.
  wp_step wp_emit.
  wp_step wp_BIO_new. intros b Hbio. fresh_ne Hbio.
  apply wp_bind.
  assert (∀ w0 Q, mem w0 !! b = Some (OBio (BioMem [])) →
            Q 0 (log (EvPEM_write_bio_PrivateKey (Npos b) NULL None None 0 NULL NULL) w0) →
            wp (PEM_write_bio_PrivateKey (Npos b) NULL None None 0 NULL NULL) w0 Q) as Hnull.
  { intros w0 Q Hb0 HQ. apply wp_call. unfold wp. cbn [is_null N.eqb NULL deref mem log].
    by rewrite Hb0. }
  apply Hnull; [lookup_tac|]. clear Hnull.
  assert (Z.of_nat (@length byte []) ≤ INT_MAX) as Hlen by (cbn; unfold INT_MAX; lia).
  pem_tail buf Hbuf Hlen.
  pem_effect_done b buf Hbio.
Qed.

(** X8: a NULL [*ca_key] left by a call of load_ca that returned 1 is
    not caught by key_to_pem either.  On that [*ca_key] key_to_pem
    returns, with [*key_size] 0 and [*key_bytes] a new buffer of one
    unwritten byte: the caller gets an empty text and no error. *)
Theorem load_ca_null_key_then_key_to_pem
    w ca_key_path key ca_crt_path crt vk vc bytes size vb vs w1 :
  mem w !! key = Some (OCell vk) → mem w !! crt = Some (OCell vc) →
  mem w !! bytes = Some (OCell vb) → mem w !! size = Some (OCell vs) →
  NoDup [key; crt; bytes; size] →
  load_ca ca_key_path (Npos key) ca_crt_path (Npos crt) w = Returns 1 w1 →
  out w1 key = NULL →
  ∃ w2 buf,
    key_to_pem (out w1 key) (Npos bytes) (Npos size) w1 = Returns tt w2 ∧
    out w2 size = 0%N ∧ out w2 bytes = Npos buf ∧
    mem w1 !! buf = None ∧ mem w2 !! buf = Some (OBuf [None]) ∧
    read_buf w2 (out w2 bytes) (out w2 size) = Some [].
Proof.
  intros Hk Hc Hb Hs Hnd Hrun Hnull.
  rewrite !NoDup_cons, !not_elem_of_cons in Hnd. destruct_and!.
  destruct (load_ca_runs w ca_key_path key ca_crt_path crt vk vc) as
    (r & w1' & Hrun1 & _ & _ & _ & Heff); [done..|].
  rewrite Hrun in Hrun1. injection Hrun1 as <- <-. cbv zeta in Heff.
  assert (mem w1 !! bytes = Some (OCell vb) ∧ mem w1 !! size = Some (OCell vs)) as [Hb1 Hs1].
  { destruct (ca_input_of w ca_key_path ca_crt_path) as [| |c|c|c k].
    - by destruct Heff.
    - by destruct Heff.
    - by destruct Heff.
    - destruct Heff as (_ & b1 & b2 & p & Hp & -> & _). fresh_ne Hp. split; lookup_tac.
    - destruct Heff as (_ & b1 & b2 & p & rk & pk & Hp & Hrk & Hpk & _ & _ & _ & -> & _).
      fresh_ne Hp. fresh_ne Hrk. fresh_ne Hpk. split; lookup_tac. }
  clear Heff. rewrite Hnull.
  pose proof (key_to_pem_null_spec w1 bytes size vb vs Hb1 Hs1) as Hwp.
  apply wp_returns in Hwp as ([] & w2 & Hrun2 & _ & _ & _ & buf & Hbuf & Hmem2); [|done].
  fresh_ne Hbuf.
  destruct (pem_mem_read w2 (mem w1) bytes size buf []) as (Hbytes & Hsize & Hread & _);
    [done..|].
  exists w2, buf. repeat apply conj; try done.
  rewrite Hmem2. unfold pem_mem. by rewrite lookup_insert_ne, lookup_insert_eq.
Qed.

(** X9: what load_ca has loaded can be written out again.  After a call
    on two files that decode, crt_to_pem on [*ca_crt] and key_to_pem on
    [*ca_key] both return, and leave the PEM texts of the certificate and
    of the key that were decoded. *)
Theorem load_ca_then_to_pem
    w ca_key_path key ca_crt_path crt vk vc dc c rest dk k krest cb cs kb ks vcb vcs vkb vks :
  mem w !! key = Some (OCell vk) → mem w !! crt = Some (OCell vc) →
  mem w !! cb = Some (OCell vcb) → mem w !! cs = Some (OCell vcs) →
  mem w !! kb = Some (OCell vkb) → mem w !! ks = Some (OCell vks) →
  NoDup [key; crt; cb; cs; kb; ks] →
  files w !! ca_crt_path = Some dc → PEM_decode_X509 dc = Some (c, rest) →
  files w !! ca_key_path = Some dk → PEM_decode_PrivateKey dk = Some (k, krest) →
  Z.of_nat (length (PEM_encode_X509 c)) ≤ INT_MAX →
  Z.of_nat (length (PEM_encode_PrivateKey k)) ≤ INT_MAX →
  ∃ w1 w2 w3,
    load_ca ca_key_path (Npos key) ca_crt_path (Npos crt) w = Returns 1 w1 ∧
    crt_to_pem (out w1 crt) (Npos cb) (Npos cs) w1 = Returns tt w2 ∧
    key_to_pem (out w2 key) (Npos kb) (Npos ks) w2 = Returns tt w3 ∧
    read_buf w3 (out w3 cb) (out w3 cs) = Some (PEM_encode_X509 c) ∧
    read_buf w3 (out w3 kb) (out w3 ks) = Some (PEM_encode_PrivateKey k).
Proof.
  intros Hk Hc Hcb Hcs Hkb Hks Hnd Hfc Hdc Hfk Hdk Hclen Hklen.
  rewrite !NoDup_cons, !not_elem_of_cons in Hnd. destruct_and!.
  destruct (load_ca_runs w ca_key_path key ca_crt_path crt vk vc) as
    (r & w1 & Hrun1 & _ & _ & _ & Heff); [done..|].
  cbv zeta in Heff. unfold ca_input_of in Heff. rewrite Hfc, Hdc, Hfk, Hdk in Heff.
  destruct Heff as (-> & _ & _ & p & rk & pk & Hp & Hrk & Hpk & ? & ? & ? & Hmem1 & _).
  fresh_ne Hp. fresh_ne Hrk. fresh_ne Hpk.
  assert (mem w1 !! crt = Some (OCell (Npos p))) as Hc1 by (rewrite Hmem1; lookup_tac).
  assert (mem w1 !! p = Some (OX509 c)) as Hp1 by (rewrite Hmem1; lookup_tac).
  assert (mem w1 !! cb = Some (OCell vcb)) as Hcb1 by (rewrite Hmem1; lookup_tac).
  assert (mem w1 !! cs = Some (OCell vcs)) as Hcs1 by (rewrite Hmem1; lookup_tac).
  pose proof (crt_to_pem_effect_spec w1 p c cb cs vcb vcs Hp1 Hcb1 Hcs1) as Hwp2.
  apply wp_returns in Hwp2 as ([] & w2 & Hrun2 & _ & _ & _ & buf & Hbuf & Hmem2); [|done..].
  rewrite Hmem1 in Hbuf. fresh_ne Hbuf. unfold pem_mem in Hmem2. rewrite Hmem1 in Hmem2.
  clear Hmem1.
  assert (mem w2 !! key = Some (OCell (Npos pk))) as Hk2 by (rewrite Hmem2; lookup_tac).
  assert (mem w2 !! pk = Some (OPkey (Npos rk))) as Hpk2 by (rewrite Hmem2; lookup_tac).
  assert (mem w2 !! rk = Some (ORsa k)) as Hrk2 by (rewrite Hmem2; lookup_tac).
  assert (mem w2 !! kb = Some (OCell vkb)) as Hkb2 by (rewrite Hmem2; lookup_tac).
  assert (mem w2 !! ks = Some (OCell vks)) as Hks2 by (rewrite Hmem2; lookup_tac).
  assert (mem w2 !! cb = Some (OCell (Npos buf))) as Hcb2 by (rewrite Hmem2; lookup_tac).
  assert (mem w2 !! cs = Some (OCell (N.of_nat (length (PEM_encode_X509 c))))) as Hcs2
    by (rewrite Hmem2; lookup_tac).
  assert (mem w2 !! buf = Some (OBuf ((Some <$> PEM_encode_X509 c) ++ [None]))) as Hbuf2
    by (rewrite Hmem2; lookup_tac).
  pose proof (key_to_pem_effect_spec w2 pk rk k kb ks vkb vks Hpk2 Hrk2 Hkb2 Hks2) as Hwp3.
  apply wp_returns in Hwp3 as ([] & w3 & Hrun3 & _ & _ & _ & buf' & Hbuf' & Hmem3); [|done..].
  clear Hmem2. fresh_ne Hbuf'.
  destruct (pem_mem_read w3 (mem w2) kb ks buf' (PEM_encode_PrivateKey k))
    as (_ & _ & Hread & _); [done..|].
  exists w1, w2, w3. unfold out at 1 2. rewrite Hc1, Hk2.
  do 3 (split; [done|]). split; [|done].
  unfold read_buf, out, deref. rewrite Hmem3. unfold pem_mem.
  rewrite !(lookup_insert_ne _ kb), !(lookup_insert_ne _ buf'), !(lookup_insert_ne _ ks) by done.
  rewrite Hcb2, Hcs2.
  rewrite !(lookup_insert_ne _ kb), !(lookup_insert_ne _ buf'), !(lookup_insert_ne _ ks) by done.
  rewrite Hbuf2, Nat2N.id, bool_decide_eq_true_2 by (rewrite length_app, length_fmap; cbn; lia).
  rewrite take_app_length' by (by rewrite length_fmap). apply mapM_id_Some.
Qed.

End pem_effect.

(** * Further properties of generate_csr *)

(** The request generate_csr builds around the key with modulus [n],
    with its subject at [nm]. *)
Definition csr_req (n : N) (nm : positive) : x509_req :=
  {| req_pubkey := Some (RSA_public (csr_key n));
     req_name := nm;
     req_sig := Some (sign (csr_key n) EVP_sha256
                        {| ri_subject := csr_subject;
                           ri_pubkey := Some (RSA_public (csr_key n)) |}) |}.

(** The memory a successful call leaves: the envelope [kp] with its key
    [ra], the request [rp] with its subject [nm], and their addresses in
    the two variables. *)
Definition csr_mem (m : gmap positive obj) (key req kp ra rp nm : positive) (n : N)
    : gmap positive obj :=
  <[key := OCell (Npos kp)]> (<[req := OCell (Npos rp)]>
    (<[kp := OPkey (Npos ra)]> (<[ra := ORsa (csr_key n)]>
    (<[rp := OReq (csr_req n nm)]> (<[nm := OName csr_subject]> m))))).

Definition csr_effect (w w' : world) (key req : positive) : Prop :=
  ∃ n kp ra rp nm,
    entropy w = n :: entropy w' ∧ files w' = files w ∧ faults w' = drop 3 (faults w) ∧
    mem w !! kp = None ∧ mem w !! ra = None ∧ mem w !! rp = None ∧ mem w !! nm = None ∧
    NoDup [kp; ra; rp; nm] ∧
    mem w' = csr_mem (mem w) key req kp ra rp nm n.

Ltac nodup_tac :=
  repeat (apply NoDup_cons; split;
    [ let Hin := fresh in
      intros Hin;
      repeat (apply elem_of_cons in Hin as [Hin|Hin]; [first [done | by simplify_eq]|]);
      by apply elem_of_nil in Hin |]);
  apply NoDup_nil_2.

Lemma csr_faults_false w :
  csr_faults w = false →
  fault_at w 0 = false ∧ fault_at w 1 = false ∧ fault_at w 2 = false ∧
  ∃ n pool, entropy w = n :: pool.
Proof.
  unfold csr_faults. intros Hf.
  apply orb_false_elim in Hf as [Hf Hf2]. apply orb_false_elim in Hf as [Hf He].
  apply orb_false_elim in Hf as [Hf0 Hf1]. apply bool_decide_eq_false in He.
  repeat apply conj; try done. destruct (entropy w) as [|n pool]; [done|]. by exists n, pool.
Qed.

Lemma generate_csr_effect_spec w key req vk vr :
  mem w !! key = Some (OCell vk) → mem w !! req = Some (OCell vr) → key ≠ req →
  csr_faults w = false →
  wp (generate_csr (Npos key) (Npos req)) w (λ r w', r = 1 ∧ csr_effect w w' key req).
Proof.
  intros Hk Hr Hne Hok.
  apply csr_faults_false in Hok as (Hok0 & Hok1 & Hok2 & n0 & pool0 & Hent).
  unfold generate_csr, generate_csr_err.
  wp_step wp_emit.
  wp_step wp_EVP_PKEY_new; [intros Hf0; fault_contra | intros Hf0 kp Hkp].
  fresh_ne Hkp.
  wp_store. wp_load. cbn [is_null N.eqb].
  wp_step wp_X509_REQ_new; [intros Hf1; fault_contra | intros Hf1 nm rp Hnm Hrp Hnmrp].
  fresh_ne Hnm. fresh_ne Hrp.
  wp_store. wp_load. cbn [is_null N.eqb].
  wp_step wp_RSA_generate_key; [intros He | intros n pool ra He Hra].
  { mem_simpl. rewrite Hent in He. discriminate He. }
  fresh_ne Hra.
  wp_load.
  wp_step wp_EVP_PKEY_assign_RSA; [lookup_tac|]. cbn [is_null N.eqb Z.eqb].
  wp_load. wp_load.
  wp_step wp_X509_REQ_set_pubkey; [lookup_tac..|].
  wp_load.
  wp_step wp_X509_REQ_get_subject_name; [lookup_tac|]. cbn [req_name].
  do 6 wp_add_entry.
  wp_load. wp_load.
  wp_step wp_X509_REQ_sign; [lookup_tac.. | intros Hf2; fault_contra | intros Hf2].
  change (RSA_size _ =? 0) with false. cbv iota.
  apply wp_ret. split; [done|].
  exists n, kp, ra, rp, nm. mem_simpl.
  repeat apply conj; try done.
  - by rewrite !drop_drop.
  - nodup_tac.
  - unfold csr_mem, csr_req. map_eq_tac.
Qed.

(** X10: a call of generate_csr in which nothing fails returns 1 and
    adds exactly four objects to the memory: the key envelope, its RSA
    key, the request and the request's subject.  It takes one value from
    the entropy pool and three steps of the fault schedule, leaves the
    files alone, and frees nothing: what [*key] and [*req] pointed to
    before the call is still there, no longer referred to by them. *)
Theorem generate_csr_success_effect w key req vk vr :
  mem w !! key = Some (OCell vk) → mem w !! req = Some (OCell vr) → key ≠ req →
  csr_faults w = false →
  ∃ w' n kp ra rp nm,
    generate_csr (Npos key) (Npos req) w = Returns 1 w' ∧
    entropy w = n :: entropy w' ∧ files w' = files w ∧ faults w' = drop 3 (faults w) ∧
    mem w !! kp = None ∧ mem w !! ra = None ∧ mem w !! rp = None ∧ mem w !! nm = None ∧
    NoDup [kp; ra; rp; nm] ∧
    mem w' =
      <[key := OCell (Npos kp)]> (<[req := OCell (Npos rp)]>
        (<[kp := OPkey (Npos ra)]> (<[ra := ORsa (csr_key n)]>
        (<[rp := OReq {| req_pubkey := Some (RSA_public (csr_key n));
                         req_name := nm;
                         req_sig := Some (sign (csr_key n) EVP_sha256
                                            {| ri_subject := csr_subject;
                                               ri_pubkey := Some (RSA_public (csr_key n)) |}) |}]>
        (<[nm := OName csr_subject]> (mem w)))))).
Proof.
  intros Hk Hr Hne Hok.
  pose proof (generate_csr_effect_spec w key req vk vr Hk Hr Hne Hok) as Hwp.
  apply wp_returns in Hwp as (r & w' & Hrun & -> & n & kp & ra & rp & nm & Heff).
  by exists w', n, kp, ra, rp, nm.
Qed.

(** X11: when EVP_PKEY_new fails, the err block runs before the call
    has created anything, and frees what the caller had in [*req]: a
    request that was live before the call is destroyed together with its
    subject, [*req] keeps its address, and [*key] is NULL. *)
Theorem generate_csr_failure_frees_callers_request w key req vk a r es :
  mem w !! key = Some (OCell vk) → mem w !! req = Some (OCell (Npos a)) → key ≠ req →
  mem w !! a = Some (OReq r) → mem w !! req_name r = Some (OName es) →
  fault_at w 0 = true →
  ∃ w',
    generate_csr (Npos key) (Npos req) w = Returns 0 w' ∧
    mem w' = <[key := OCell NULL]> (delete (req_name r) (delete a (mem w))) ∧
    out w' req = Npos a ∧
    read_req w (out w req) =
      Some {| csr_name := es; csr_pubkey := req_pubkey r; csr_sig := req_sig r |} ∧
    read_req w' (out w' req) = None.
Proof.
  intros Hk Hr Hne Ha Hnm Hf0.
  kinds_ne a key. kinds_ne a req. kinds_ne (req_name r) key. kinds_ne (req_name r) req.
  kinds_ne (req_name r) a.
  assert (wp (generate_csr (Npos key) (Npos req)) w (λ r0 w',
            r0 = 0 ∧
            mem w' = <[key := OCell NULL]> (delete (req_name r) (delete a (mem w))))) as Hwp.
  { unfold generate_csr, generate_csr_err.
    wp_step wp_emit.
    wp_step wp_EVP_PKEY_new; [intros _ | intros Hf; fault_contra].
    wp_store. wp_load. cbn [is_null N.eqb NULL]. wp_load.
    wp_step wp_EVP_PKEY_free_null. wp_load.
    wp_step wp_X509_REQ_free; [lookup_tac|]. apply wp_ret.
    split; [done|]. mem_simpl.
    map_eq_tac. }
  apply wp_returns in Hwp as (r0 & w' & Hrun & -> & Hmem).
  exists w'. do 2 (split; [done|]).
  unfold read_req, out, deref. rewrite Hmem, Hr, Ha, Hnm.
  rewrite lookup_insert_ne, lookup_delete_ne, lookup_delete_ne, Hr by done.
  by rewrite lookup_insert_ne, lookup_delete_ne, lookup_delete_eq.
Qed.

(** X12: the subject of a request built by generate_csr has five
    entries, country, state, organisation, unit and common name, in that
    order.  The call that adds the locality is made, with the empty
    string REQ_DN_L, but the library turns an empty value down and the
    source does not look at its result: the request has no locality. *)
Theorem generate_csr_subject_has_no_locality w key req vk vr w' :
  mem w !! key = Some (OCell vk) → mem w !! req = Some (OCell vr) → key ≠ req →
  generate_csr (Npos key) (Npos req) w = Returns 1 w' →
  ∃ c nm,
    read_req w' (out w' req) = Some c ∧
    csr_name c = [("C", "US"); ("ST", "MI"); ("O", "Grand Valley State University");
                  ("OU", "IT"); ("CN", "www.gvsu.edu")] ∧
    (∀ v, ("L", v) ∉ csr_name c) ∧
    (EvX509_NAME_add_entry_by_txt nm "L" "" ∈ calls w').
Proof.
  intros Hk Hr Hne Hrun.
  pose proof (generate_csr_success w key req vk vr w' Hk Hr Hne Hrun) as Hbuilt.
  destruct (csr_built_read _ _ _ _ Hbuilt) as (n & pool & _ & _ & Hreq).
  destruct Hbuilt as (n' & pool' & kp & ra & rp & nm & _ & _ & _ & _ & _ & _ & _ & Hcalls).
  eexists _, (Npos nm). split; [exact Hreq|]. cbn [csr_name]. split; [done|]. split.
  - intros v Hin. not_in_calls Hin.
  - rewrite Hcalls. apply elem_of_app. right.
    do 9 apply list_elem_of_further. apply list_elem_of_here.
Qed.

Section csr_pem.
Context `{PemCodec}.

(** X13: the key generate_csr leaves in [*key] can be handed to
    key_to_pem: the two calls in a row return, the buffer holds the PEM
    text of the generated key in the clear, and key and request are as
    generate_csr left them. *)
Theorem generate_csr_then_key_to_pem w key req bytes size vk vr vb vs n pool :
  mem w !! key = Some (OCell vk) → mem w !! req = Some (OCell vr) →
  mem w !! bytes = Some (OCell vb) → mem w !! size = Some (OCell vs) →
  NoDup [key; req; bytes; size] →
  csr_faults w = false → entropy w = n :: pool →
  Z.of_nat (length (PEM_encode_PrivateKey (csr_key n))) ≤ INT_MAX →
  ∃ w1 w2,
    generate_csr (Npos key) (Npos req) w = Returns 1 w1 ∧
    key_to_pem (out w1 key) (Npos bytes) (Npos size) w1 = Returns tt w2 ∧
    read_buf w2 (out w2 bytes) (out w2 size) = Some (PEM_encode_PrivateKey (csr_key n)) ∧
    read_key w2 (out w2 key) = Some (csr_key n) ∧
    read_req w2 (out w2 req) = read_req w1 (out w1 req).
Proof.
  intros Hk Hr Hb Hs Hnd Hok Hent Hlen.
  rewrite !NoDup_cons, !not_elem_of_cons in Hnd. destruct_and!.
  pose proof (generate_csr_effect_spec w key req vk vr Hk Hr) as Hwp1.
  apply wp_returns in Hwp1 as (r & w1 & Hrun1 & -> & n' & kp & ra & rp & nm & He & _ & _ &
    Hkp & Hra & Hrp & Hnm & Hnd & Hmem1); [|done..].
  rewrite Hent in He. injection He as <- _.
  rewrite !NoDup_cons, !not_elem_of_cons in Hnd. destruct_and!.
  fresh_ne Hkp. fresh_ne Hra. fresh_ne Hrp. fresh_ne Hnm.
  unfold csr_mem in Hmem1.
  assert (mem w1 !! key = Some (OCell (Npos kp))) as Hk1 by (rewrite Hmem1; lookup_tac).
  assert (mem w1 !! req = Some (OCell (Npos rp))) as Hr1 by (rewrite Hmem1; lookup_tac).
  assert (mem w1 !! kp = Some (OPkey (Npos ra))) as Hkp1 by (rewrite Hmem1; lookup_tac).
  assert (mem w1 !! ra = Some (ORsa (csr_key n))) as Hra1 by (rewrite Hmem1; lookup_tac).
  assert (mem w1 !! rp = Some (OReq (csr_req n nm))) as Hrp1 by (rewrite Hmem1; lookup_tac).
  assert (mem w1 !! nm = Some (OName csr_subject)) as Hnm1 by (rewrite Hmem1; lookup_tac).
  assert (mem w1 !! bytes = Some (OCell vb)) as Hb1 by (rewrite Hmem1; lookup_tac).
  assert (mem w1 !! size = Some (OCell vs)) as Hs1 by (rewrite Hmem1; lookup_tac).
  clear Hmem1.
  pose proof (key_to_pem_effect_spec w1 kp ra (csr_key n) bytes size vb vs Hkp1 Hra1 Hb1 Hs1)
    as Hwp2.
  apply wp_returns in Hwp2 as ([] & w2 & Hrun2 & _ & _ & _ & buf & Hbuf & Hmem2); [|done..].
  fresh_ne Hbuf.
  destruct (pem_mem_read w2 (mem w1) bytes size buf (PEM_encode_PrivateKey (csr_key n)))
    as (_ & _ & Hread & _); [done..|].
  exists w1, w2. unfold out at 1. rewrite Hk1.
  do 3 (split; [done|]).
  unfold read_key, read_req, out, deref. rewrite Hmem2. unfold pem_mem.
  rewrite !(lookup_insert_ne _ bytes), !(lookup_insert_ne _ buf), !(lookup_insert_ne _ size)
    by done.
  rewrite Hk1, Hr1.
  rewrite !(lookup_insert_ne _ bytes), !(lookup_insert_ne _ buf), !(lookup_insert_ne _ size)
    by done.
  rewrite Hkp1, Hrp1.
  rewrite !(lookup_insert_ne _ bytes), !(lookup_insert_ne _ buf), !(lookup_insert_ne _ size)
    by done.
  by rewrite Hra1.
Qed.

(** X14: print_bytes cannot print what crt_to_pem produces.  Its loop
    body hands a byte to the conversion %s, so the call is defined only
    for a size of 0, and the text of a certificate is not empty. *)
Theorem crt_to_pem_then_print_bytes w crt c bytes size vb vs :
  mem w !! crt = Some (OX509 c) →
  mem w !! bytes = Some (OCell vb) → mem w !! size = Some (OCell vs) → bytes ≠ size →
  Z.of_nat (length (PEM_encode_X509 c)) ≤ INT_MAX →
  PEM_encode_X509 c ≠ [] →
  ∃ w',
    crt_to_pem (Npos crt) (Npos bytes) (Npos size) w = Returns tt w' ∧
    print_bytes (out w' bytes) (out w' size) w' = Undefined.
Proof.
  intros Hcrt Hb Hs Hne Hlen Htext.
  pose proof (crt_to_pem_effect_spec w crt c bytes size vb vs Hcrt Hb Hs Hne Hlen) as Hwp.
  apply wp_returns in Hwp as ([] & w' & Hrun & _ & _ & _ & buf & Hbuf & Hmem).
  fresh_ne Hbuf.
  destruct (pem_mem_read w' (mem w) bytes size buf (PEM_encode_X509 c))
    as (_ & Hsize & _); [done..|].
  exists w'. split; [done|].
  unfold print_bytes, enter, emit, mbind, M_bind. rewrite Hsize.
  by destruct (PEM_encode_X509 c).
Qed.

End csr_pem.

(** X15: when generate_csr fails after both allocations have succeeded
    (the entropy pool is empty, or the signature fails), it returns 0
    with everything it built freed and the rest of the memory as before,
    but [*key] and [*req] are not reset: they hold the addresses of the
    freed objects, and a caller that frees either after the failure
    frees it twice. *)
Theorem generate_csr_late_failure_dangling w key req vk vr :
  mem w !! key = Some (OCell vk) → mem w !! req = Some (OCell vr) → key ≠ req →
  fault_at w 0 = false → fault_at w 1 = false → csr_faults w = true →
  ∃ w' kp rp,
    generate_csr (Npos key) (Npos req) w = Returns 0 w' ∧
    mem w !! kp = None ∧ mem w !! rp = None ∧
    mem w' = <[key := OCell (Npos kp)]> (<[req := OCell (Npos rp)]> (mem w)) ∧
    (k ← load (Npos key); EVP_PKEY_free k) w' = Undefined ∧
    (r ← load (Npos req); X509_REQ_free r) w' = Undefined.
Proof.
  intros Hk Hr Hne Hok0 Hok1 Hbad.
  assert (wp (generate_csr (Npos key) (Npos req)) w (λ r0 w',
            r0 = 0 ∧ ∃ kp rp, mem w !! kp = None ∧ mem w !! rp = None ∧
              mem w' = <[key := OCell (Npos kp)]> (<[req := OCell (Npos rp)]> (mem w))))
    as Hwp.
  { unfold generate_csr, generate_csr_err.
    wp_step wp_emit.
    wp_step wp_EVP_PKEY_new; [intros Hf0; fault_contra | intros Hf0 kp Hkp].
    fresh_ne Hkp.
    wp_store. wp_load. cbn [is_null N.eqb].
    wp_step wp_X509_REQ_new; [intros Hf1; fault_contra | intros Hf1 nm rp Hnm Hrp Hnmrp].
    fresh_ne Hnm. fresh_ne Hrp.
    wp_store. wp_load. cbn [is_null N.eqb].
    wp_step wp_RSA_generate_key; [intros He | intros n pool ra He Hra].
    { wp_load. wp_step wp_EVP_PKEY_assign_RSA; [lookup_tac|].
      cbn [is_null N.eqb NULL Z.eqb]. wp_load.
      wp_step wp_EVP_PKEY_free; [lookup_tac|]. wp_load.
      wp_step wp_X509_REQ_free; [lookup_tac|]. apply wp_ret.
      split; [done|]. exists kp, rp. do 2 (split; [done|]).
      mem_simpl. cbn [req_name]. map_eq_tac. }
    fresh_ne Hra.
    wp_load.
    wp_step wp_EVP_PKEY_assign_RSA; [lookup_tac|]. cbn [is_null N.eqb Z.eqb].
    wp_load. wp_load.
    wp_step wp_X509_REQ_set_pubkey; [lookup_tac..|].
    wp_load.
    wp_step wp_X509_REQ_get_subject_name; [lookup_tac|]. cbn [req_name].
    do 6 wp_add_entry.
    wp_load. wp_load.
    wp_step wp_X509_REQ_sign; [lookup_tac.. | intros Hf2 | intros Hf2].
    { cbn [Z.eqb]. wp_load.
      wp_step wp_EVP_PKEY_free; [lookup_tac|]. wp_load.
      wp_step wp_X509_REQ_free; [lookup_tac|]. apply wp_ret.
      split; [done|]. exists kp, rp. do 2 (split; [done|]).
      mem_simpl. cbn [req_name]. map_eq_tac. }
    exfalso. unfold csr_faults in Hbad. fault_norm.
    rewrite Hok0, Hok1, Hf2, He, bool_decide_eq_false_2 in Hbad by done.
    discriminate Hbad. }
  apply wp_returns in Hwp as (r0 & w' & Hrun & -> & kp & rp & Hkp & Hrp & Hmem).
  fresh_ne Hkp. fresh_ne Hrp.
  exists w', kp, rp. do 4 (split; [done|]).
  unfold mbind, M_bind, load, deref. rewrite Hmem.
  rewrite lookup_insert_eq, lookup_insert_ne, lookup_insert_eq by done.
  unfold EVP_PKEY_free, X509_REQ_free, emit, mbind, M_bind. cbn [mem log].
  rewrite Hmem, !lookup_insert_ne, Hkp, Hrp by done. done.
Qed.

Section load_ca_null.
Context `{PemCodec}.

(** X16: load_ca stores NULL through [ca_key] (line 176) before it
    looks at anything else, so a call with a NULL [ca_key] is undefined
    whatever the files hold and wherever [ca_crt] points.  The test of
    [ca_key] on line 189 comes after that store. *)
Theorem load_ca_null_key_undefined (ca_key_path ca_crt_path : string) (ca_crt : ptr) (w : world) :
  load_ca ca_key_path NULL ca_crt_path ca_crt w = Undefined.
Proof.
  unfold load_ca. apply undefined_bind, wp_emit.
  unfold mbind at 1, M_bind at 1.
  destruct (store ca_crt NULL _) as [[] w1|]; [|done].
  by apply undefined_first.
Qed.

End load_ca_null.

(** * The further properties on the example disk and callers *)

(** The caller of load_ca with a certificate file that holds no
    certificate, and with no key file at all. *)
Definition w_disk_corrupt_cert : world :=
  World (<[1%positive := OCell 0]> (<[2%positive := OCell 0]> ∅))
        (<[RSA_SERVER_CERT := String.list_byte_of_string "not a certificate"]>
           (<[RSA_SERVER_KEY := table_encode key_table ca_rsa]> ∅))
        [] [] [].



(** A caller that loads the CA and writes it out again: [ca_key] (1),
    [ca_crt] (2), and the variables for the two texts and their sizes
    (3 to 6). *)
Definition w_disk_export : world :=
  World (<[1%positive := OCell 0]> (<[2%positive := OCell 0]>
        (<[3%positive := OCell 0]> (<[4%positive := OCell 0]>
        (<[5%positive := OCell 0]> (<[6%positive := OCell 0]> ∅))))))
        (files w_disk) [] [] [].

(** The same caller when server.key holds no key, before load_ca and
    after it has returned (1, with NULL in [ca_key]). *)
Definition w_disk_corrupt_export : world :=
  with_file RSA_SERVER_KEY (String.list_byte_of_string "not a key") w_disk_export.

Definition w_disk_corrupt_export_done : world :=
  Eval vm_compute in
    match load_ca (H := example_codec) RSA_SERVER_KEY 1%N RSA_SERVER_CERT 2%N
            w_disk_corrupt_export with
    | Returns _ w' => w'
    | Undefined => w_disk_corrupt_export
    end.

(** A caller of generate_csr whose [req] (2) holds a live request (3,
    its subject at 4), when no memory is left for the first allocation. *)
Definition w_call_live_req : world :=
  World (<[1%positive := OCell 0]> (<[2%positive := OCell 3]>
        (<[3%positive := OReq {| req_pubkey := None; req_name := 4; req_sig := None |}]>
        (<[4%positive := OName [("CN", "old")]]> ∅))))
        ∅ [12345%N] [true] [].

(** A caller that generates a request and writes the key out: [key] (1),
    [req] (2), [key_bytes] (3), [key_size] (4); the entropy pool yields
    the modulus of a key the example codec has a text for. *)
Definition w_call_export : world :=
  World (<[1%positive := OCell 0]> (<[2%positive := OCell 0]>
        (<[3%positive := OCell 0]> (<[4%positive := OCell 0]> ∅))))
        ∅ [777%N] [] [].

Lemma load_ca_result_ignores_key_content_witness :
  ∃ r w1 w2,
    load_ca (H := example_codec) RSA_SERVER_KEY 1%N RSA_SERVER_CERT 2%N w_disk = Returns r w1 ∧
    load_ca (H := example_codec) RSA_SERVER_KEY 1%N RSA_SERVER_CERT 2%N
      (with_file RSA_SERVER_KEY (String.list_byte_of_string "not a key") w_disk)
      = Returns r w2 ∧
    (r = 0 ∨ r = 1) ∧
    (r = 1 → ∃ dc, files w_disk !! RSA_SERVER_CERT = Some dc ∧
                   is_Some (PEM_decode_X509 (PemCodec := example_codec) dc)).
Proof.
  apply (load_ca_result_ignores_key_content (H := example_codec) w_disk
           RSA_SERVER_KEY 1 RSA_SERVER_CERT 2 0%N 0%N
           (table_encode key_table ca_rsa) (String.list_byte_of_string "not a key"));
    [reflexivity | reflexivity | done | done | reflexivity].
Defined.

Lemma load_ca_bad_certificate_witness :
  ∃ w' cs,
    load_ca (H := example_codec) RSA_SERVER_KEY 1%N RSA_SERVER_CERT 2%N w_disk_corrupt_cert
      = Returns 0 w' ∧
    mem w' = <[1%positive := OCell NULL]> (<[2%positive := OCell NULL]>
               (mem w_disk_corrupt_cert)) ∧
    files w' = files w_disk_corrupt_cert ∧
    calls w' = calls w_disk_corrupt_cert ++ cs ∧
    (∀ b, EvPEM_read_bio_PrivateKey b ∉ cs) ∧
    (RSA_SERVER_KEY ≠ RSA_SERVER_CERT → ∀ b, EvBIO_read_filename b RSA_SERVER_KEY ∉ cs).
Proof.
  apply (load_ca_bad_certificate (H := example_codec) w_disk_corrupt_cert
           RSA_SERVER_KEY 1 RSA_SERVER_CERT 2 0%N 0%N);
    [reflexivity | reflexivity | done |].
  intros dc Hdc. vm_compute in Hdc. injection Hdc as <-. by vm_compute.
Defined.


Lemma load_ca_frame_witness :
  ∃ r w',
    load_ca (H := example_codec) RSA_SERVER_KEY 1%N RSA_SERVER_CERT 2%N w_disk = Returns r w' ∧
    files w' = files w_disk ∧ entropy w' = entropy w_disk ∧ faults w' = faults w_disk ∧
    (∀ a o, a ≠ 1%positive → a ≠ 2%positive →
       mem w_disk !! a = Some o → mem w' !! a = Some o) ∧
    (∀ a b, mem w' !! a = Some (OBio b) → mem w_disk !! a = Some (OBio b)).
Proof.
  apply (load_ca_frame (H := example_codec) w_disk RSA_SERVER_KEY 1 RSA_SERVER_CERT 2 0%N 0%N);
    [reflexivity | reflexivity | done].
Defined.

Lemma load_ca_twice_leaks_witness :
  ∃ w1 w2,
    load_ca (H := example_codec) RSA_SERVER_KEY 1%N RSA_SERVER_CERT 2%N w_disk = Returns 1 w1 ∧
    load_ca (H := example_codec) RSA_SERVER_KEY 1%N RSA_SERVER_CERT 2%N w1 = Returns 1 w2 ∧
    read_x509 w2 (out w1 2) = Some ca_cert ∧ read_key w2 (out w1 1) = Some ca_rsa ∧
    out w2 2 ≠ out w1 2 ∧ out w2 1 ≠ out w1 1 ∧
    read_x509 w2 (out w2 2) = Some ca_cert ∧ read_key w2 (out w2 1) = Some ca_rsa.
Proof.
  apply (load_ca_twice_leaks (H := example_codec) w_disk
           RSA_SERVER_KEY 1 RSA_SERVER_CERT 2 0%N 0%N
           (table_encode cert_table ca_cert) ca_cert []
           (table_encode key_table ca_rsa) ca_rsa []);
    [reflexivity | reflexivity | done | reflexivity | by vm_compute
    | reflexivity | by vm_compute].
Defined.

Lemma crt_to_pem_buffer_witness :
  ∃ w' buf,
    crt_to_pem (H := example_codec) 5%N 1%N 2%N w_ca = Returns tt w' ∧
    mem w_ca !! buf = None ∧
    mem w' = <[1%positive := OCell (Npos buf)]>
               (<[buf := OBuf ((Some <$> PEM_encode_X509 (PemCodec := example_codec) ca_cert)
                               ++ [None])]>
               (<[2%positive := OCell (N.of_nat (length
                    (PEM_encode_X509 (PemCodec := example_codec) ca_cert)))]> (mem w_ca))) ∧
    read_buf w' (out w' 1) (out w' 2)
      = Some (PEM_encode_X509 (PemCodec := example_codec) ca_cert) ∧
    read_buf w' (out w' 1) (out w' 2 + 1) = None.
Proof.
  apply (crt_to_pem_buffer (H := example_codec) w_ca 5 ca_cert 1 2 0%N 0%N);
    [reflexivity | reflexivity | reflexivity | done | by vm_compute].
Defined.

Lemma key_to_pem_buffer_witness :
  ∃ w' buf,
    key_to_pem (H := example_codec) 1%N 3%N 4%N w_key = Returns tt w' ∧
    mem w_key !! buf = None ∧
    mem w' = <[3%positive := OCell (Npos buf)]>
               (<[buf := OBuf ((Some <$> PEM_encode_PrivateKey (PemCodec := example_codec) ca_rsa)
                               ++ [None])]>
               (<[4%positive := OCell (N.of_nat (length
                    (PEM_encode_PrivateKey (PemCodec := example_codec) ca_rsa)))]>
                  (mem w_key))) ∧
    read_buf w' (out w' 3) (out w' 4)
      = Some (PEM_encode_PrivateKey (PemCodec := example_codec) ca_rsa) ∧
    read_buf w' (out w' 3) (out w' 4 + 1) = None.
Proof.
  apply (key_to_pem_buffer (H := example_codec) w_key 1 2 ca_rsa 3 4 0%N 0%N);
    [reflexivity | reflexivity | reflexivity | reflexivity | done | by vm_compute].
Defined.

Lemma load_ca_null_key_then_key_to_pem_witness :
  ∃ w2 buf,
    key_to_pem (H := example_codec) (out w_disk_corrupt_export_done 1) 5%N 6%N
      w_disk_corrupt_export_done = Returns tt w2 ∧
    out w2 6 = 0%N ∧ out w2 5 = Npos buf ∧
    mem w_disk_corrupt_export_done !! buf = None ∧ mem w2 !! buf = Some (OBuf [None]) ∧
    read_buf w2 (out w2 5) (out w2 6) = Some [].
Proof.
  apply (load_ca_null_key_then_key_to_pem (H := example_codec) w_disk_corrupt_export
           RSA_SERVER_KEY 1 RSA_SERVER_CERT 2 0%N 0%N 5 6 0%N 0%N w_disk_corrupt_export_done);
    [reflexivity | reflexivity | reflexivity | reflexivity
    | by apply (bool_decide_unpack _) | by vm_compute | by vm_compute].
Defined.

Lemma load_ca_then_to_pem_witness :
  ∃ w1 w2 w3,
    load_ca (H := example_codec) RSA_SERVER_KEY 1%N RSA_SERVER_CERT 2%N w_disk_export
      = Returns 1 w1 ∧
    crt_to_pem (H := example_codec) (out w1 2) 3%N 4%N w1 = Returns tt w2 ∧
    key_to_pem (H := example_codec) (out w2 1) 5%N 6%N w2 = Returns tt w3 ∧
    read_buf w3 (out w3 3) (out w3 4)
      = Some (PEM_encode_X509 (PemCodec := example_codec) ca_cert) ∧
    read_buf w3 (out w3 5) (out w3 6)
      = Some (PEM_encode_PrivateKey (PemCodec := example_codec) ca_rsa).
Proof.
  apply (load_ca_then_to_pem (H := example_codec) w_disk_export
           RSA_SERVER_KEY 1 RSA_SERVER_CERT 2 0%N 0%N
           (table_encode cert_table ca_cert) ca_cert []
           (table_encode key_table ca_rsa) ca_rsa [] 3 4 5 6 0%N 0%N 0%N 0%N);
    [reflexivity | reflexivity | reflexivity | reflexivity | reflexivity | reflexivity
    | by apply (bool_decide_unpack _)
    | reflexivity | by vm_compute | reflexivity | by vm_compute
    | by vm_compute | by vm_compute].
Defined.

Lemma generate_csr_success_effect_witness :
  ∃ w' n kp ra rp nm,
    generate_csr 1%N 2%N w_call = Returns 1 w' ∧
    entropy w_call = n :: entropy w' ∧ files w' = files w_call ∧
    faults w' = drop 3 (faults w_call) ∧
    mem w_call !! kp = None ∧ mem w_call !! ra = None ∧
    mem w_call !! rp = None ∧ mem w_call !! nm = None ∧
    NoDup [kp; ra; rp; nm] ∧
    mem w' =
      <[1%positive := OCell (Npos kp)]> (<[2%positive := OCell (Npos rp)]>
        (<[kp := OPkey (Npos ra)]> (<[ra := ORsa (csr_key n)]>
        (<[rp := OReq {| req_pubkey := Some (RSA_public (csr_key n));
                         req_name := nm;
                         req_sig := Some (sign (csr_key n) EVP_sha256
                                            {| ri_subject := csr_subject;
                                               ri_pubkey := Some (RSA_public (csr_key n)) |}) |}]>
        (<[nm := OName csr_subject]> (mem w_call)))))).
Proof.
  apply (generate_csr_success_effect w_call 1 2 0%N 0%N);
    [reflexivity | reflexivity | done | reflexivity].
Defined.

Lemma generate_csr_failure_frees_callers_request_witness :
  ∃ w',
    generate_csr 1%N 2%N w_call_live_req = Returns 0 w' ∧
    mem w' = <[1%positive := OCell NULL]>
               (delete 4%positive (delete 3%positive (mem w_call_live_req))) ∧
    out w' 2 = 3%N ∧
    read_req w_call_live_req (out w_call_live_req 2) =
      Some {| csr_name := [("CN", "old")]; csr_pubkey := None; csr_sig := None |} ∧
    read_req w' (out w' 2) = None.
Proof.
  apply (generate_csr_failure_frees_callers_request w_call_live_req 1 2 0%N 3
           {| req_pubkey := None; req_name := 4; req_sig := None |} [("CN", "old")]);
    [reflexivity | reflexivity | done | reflexivity | reflexivity | reflexivity].
Defined.

Lemma generate_csr_subject_has_no_locality_witness :
  ∃ c nm,
    read_req w_call_done (out w_call_done 2) = Some c ∧
    csr_name c = [("C", "US"); ("ST", "MI"); ("O", "Grand Valley State University");
                  ("OU", "IT"); ("CN", "www.gvsu.edu")] ∧
    (∀ v, ("L", v) ∉ csr_name c) ∧
    (EvX509_NAME_add_entry_by_txt nm "L" "" ∈ calls w_call_done).
Proof.
  apply (generate_csr_subject_has_no_locality w_call 1 2 0%N 0%N w_call_done);
    [reflexivity | reflexivity | done | by vm_compute].
Defined.

Lemma generate_csr_then_key_to_pem_witness :
  ∃ w1 w2,
    generate_csr 1%N 2%N w_call_export = Returns 1 w1 ∧
    key_to_pem (H := example_codec) (out w1 1) 3%N 4%N w1 = Returns tt w2 ∧
    read_buf w2 (out w2 3) (out w2 4)
      = Some (PEM_encode_PrivateKey (PemCodec := example_codec) (csr_key 777)) ∧
    read_key w2 (out w2 1) = Some (csr_key 777) ∧
    read_req w2 (out w2 2) = read_req w1 (out w1 2).
Proof.
  apply (generate_csr_then_key_to_pem (H := example_codec) w_call_export
           1 2 3 4 0%N 0%N 0%N 0%N 777%N []);
    [reflexivity | reflexivity | reflexivity | reflexivity
    | by apply (bool_decide_unpack _) | reflexivity | reflexivity | by vm_compute].
Defined.

Lemma crt_to_pem_then_print_bytes_witness :
  ∃ w',
    crt_to_pem (H := example_codec) 5%N 1%N 2%N w_ca = Returns tt w' ∧
    print_bytes (out w' 1) (out w' 2) w' = Undefined.
Proof.
  apply (crt_to_pem_then_print_bytes (H := example_codec) w_ca 5 ca_cert 1 2 0%N 0%N);
    [reflexivity | reflexivity | reflexivity | done | by vm_compute | by vm_compute].
Defined.

Lemma generate_csr_late_failure_dangling_witness :
  ∃ w' kp rp,
    generate_csr 1%N 2%N w_call_sign_fault = Returns 0 w' ∧
    mem w_call_sign_fault !! kp = None ∧ mem w_call_sign_fault !! rp = None ∧
    mem w' = <[1%positive := OCell (Npos kp)]> (<[2%positive := OCell (Npos rp)]>
               (mem w_call_sign_fault)) ∧
    (k ← load 1%N; EVP_PKEY_free k) w' = Undefined ∧
    (r ← load 2%N; X509_REQ_free r) w' = Undefined.
Proof.
  apply (generate_csr_late_failure_dangling w_call_sign_fault 1 2 0%N 0%N);
    [reflexivity | reflexivity | done | reflexivity | reflexivity | reflexivity].
Defined.
